(** * Destiny Cards checkout: order-to-CRM synchronisation

    A shallow embedding of the Netlify functions that glue the Stripe
    checkout to the Keap CRM:

    - [Backfill]      netlify/functions/backfill-keap.js
    - [Webhook]       netlify/functions/stripe-webhook.js (the sync)
    - [StripeWebhook] netlify/functions/stripe-webhook.js (the handler)
    - [Tracking]      netlify/functions/update-tracking.js
    - [Fulfillment]   netlify/functions/check-fulfillment.js
    - [Orders], [GetOrders], [GetOrdersPending]
                      netlify/functions/get-orders.js
    - [Inventory]     netlify/functions/get-inventory.js
    - [LegacyPayment] netlify/functions/process-destiny-cards-payment.js
    - [Checkout]      netlify/functions/create-checkout-session.js

    The handlers are asynchronous JavaScript that talks to the CRM with
    [fetch].  The embedding threads a [World] through every call: the CRM
    store, the HTTP statuses the provider is about to answer with, and the
    log of requests that were sent.  An exception is a value of [Res]. *)

From Stdlib Require Import ZArith List String Ascii Bool Lia.
From Stdlib Require Import DecimalString DecimalZ.
Import ListNotations.
Local Open Scope string_scope.
Local Open Scope Z_scope.

Set Implicit Arguments.

(* ================================================================== *)
(** ** Strings and numbers as JavaScript renders them *)

(** The line feed, written '\n' in the source. *)
Definition nl : string := String (ascii_of_nat 10) EmptyString.

(** The double quote character. *)
Definition dquote : string := String (ascii_of_nat 34) EmptyString.

(** [Array.prototype.join]. *)
Definition join (sep : string) (l : list string) : string := String.concat sep l.

(** [String(n)] for an integral number. *)
Definition showZ (n : Z) : string := NilZero.string_of_int (Z.to_int n).

(** [s.replace(c, rep)] with a one-character string pattern: only the
    first occurrence is replaced. *)
Fixpoint replaceFirst (c : ascii) (rep s : string) : string :=
  match s with
  | EmptyString => EmptyString
  | String d s' => if Ascii.eqb c d then rep ++ s' else String d (replaceFirst c rep s')
  end.

(** A JavaScript string is truthy when it is not empty. *)
Definition nonEmpty (s : string) : bool :=
  match s with EmptyString => false | _ => true end.

(** [!!x] for a value that is a string, [null] or [undefined]. *)
Definition truthy (x : option string) : bool :=
  match x with Some s => nonEmpty s | None => false end.

(** *** Decimal amounts

    Amounts are JavaScript numbers.  The embedding computes on exact
    decimals [mant * 10^-scale]; [amountPaid], which the source obtains
    as [amount_total / 100] from an integral number of cents, is the
    decimal with that mantissa and scale 2. *)
Record Dec := mkDec { mant : Z; scale : nat }.

Definition pow10 (n : nat) : Z := 10 ^ Z.of_nat n.

Definition cents (c : Z) : Dec := mkDec c 2.
Definition decZero : Dec := mkDec 0 0.

(** [a + b]. *)
Definition decAdd (a b : Dec) : Dec :=
  let s := Nat.max (scale a) (scale b) in
  mkDec (mant a * pow10 (s - scale a) + mant b * pow10 (s - scale b)) s.

Definition digitChar (d : Z) : ascii := ascii_of_nat (48 + Z.to_nat d).

(** [x.toFixed(2)]: the sign is taken off first, the magnitude is rounded
    to the nearest hundredth (the larger one on a tie), and exactly two
    fraction digits are printed. *)
Definition toFixed2 (x : Dec) : string :=
  let a := Z.abs (mant x) in
  let n := (2 * a * 100 + pow10 (scale x)) / (2 * pow10 (scale x)) in
  (if mant x <? 0 then "-" else EmptyString)
    ++ showZ (n / 100) ++ "."
    ++ String (digitChar ((n mod 100) / 10))
         (String (digitChar (n mod 10)) EmptyString).

Definition isDigit (c : ascii) : bool :=
  let n := nat_of_ascii c in (48 <=? n)%nat && (n <=? 57)%nat.

Definition isSpace (c : ascii) : bool :=
  let n := nat_of_ascii c in
  (n =? 32)%nat || ((9 <=? n)%nat && (n <=? 13)%nat).

Fixpoint skipSpaces (s : string) : string :=
  match s with
  | String c s' => if isSpace c then skipSpaces s' else s
  | EmptyString => EmptyString
  end.

(** Reads the longest run of digits at the head of [s]: its value on top
    of [acc], how many digits were read, and the rest of the string. *)
Fixpoint readDigits (s : string) (acc : Z) (n : nat) : Z * nat * string :=
  match s with
  | String c s' =>
      if isDigit c
      then readDigits s' (10 * acc + (Z.of_nat (nat_of_ascii c) - 48)) (S n)
      else (acc, n, s)
  | EmptyString => (acc, n, s)
  end.

(** [parseFloat(s)] on plain decimal literals: leading white space is
    skipped, then an optional sign, digits, and an optional fraction;
    whatever follows is ignored.  [None] is NaN.  Exponents and the
    literal Infinity, which [parseFloat] also reads, are outside the
    embedding (a string is read up to them). *)
Definition parseFloat (s : string) : option Dec :=
  let s0 := skipSpaces s in
  let '(neg, s1) :=
    match s0 with
    | String c r =>
        if Ascii.eqb c "-" then (true, r)
        else if Ascii.eqb c "+" then (false, r)
        else (false, s0)
    | EmptyString => (false, s0)
    end in
  let '(ip, ni, s2) := readDigits s1 0 0%nat in
  let '(m, nf) :=
    match s2 with
    | String c r =>
        if Ascii.eqb c "."
        then let '(v, k, _) := readDigits r ip 0%nat in (v, k)
        else (ip, 0%nat)
    | EmptyString => (ip, 0%nat)
    end in
  if ((ni =? 0) && (nf =? 0))%nat then None
  else Some (mkDec (if neg then - m else m) nf).

(** [parseFloat(s) || 0]: NaN and zero are falsy. *)
Definition parseFloatOr0 (s : string) : Dec :=
  match parseFloat s with
  | Some d => if mant d =? 0 then decZero else d
  | None => decZero
  end.

(* ================================================================== *)
(** ** The CRM provider

    The provider is not part of the repository.  It is modelled as a
    store of contacts and tags behind the REST calls the handlers make:
    search answers with the contacts of that email in store order, PATCH
    replaces what the payload carries and merges custom fields by id,
    tag ids are attached to and detached from a contact. *)

(** One [{id, content}] pair; [content] is [None] when it is [null]. *)
Record Field := mkField { fid : Z; content : option string }.

Record Address := mkAddress {
  a_field : string;
  a_line1 : string;
  a_line2 : string;
  a_locality : string;
  a_region : string;
  a_postal_code : string;
  a_country_code : string
}.

Record Contact := mkContact {
  id : Z;
  given_name : string;
  family_name : string;
  email : string;
  addresses : list Address;
  opt_in_reason : option string;
  custom_fields : list Field;
  tag_ids : list Z
}.

Record Tag := mkTag { tag_id : Z; tag_name : string }.

Record Crm := mkCrm { contacts : list Contact; tags : list Tag; next_id : Z }.

(** A property of a JSON object: left out, sent as [null], or a value. *)
Inductive Prop3 (A : Type) : Type :=
| Omitted
| Null
| Sent (a : A).
Arguments Omitted {A}.
Arguments Null {A}.
Arguments Sent {A} a.

(** Body of a contact POST or PATCH. *)
Record ContactPayload := mkPayload {
  p_given_name : option string;
  p_family_name : option string;
  p_email : option string;
  p_addresses : option (list Address);
  p_opt_in_reason : Prop3 string;
  p_custom_fields : list Field
}.

(** The REST calls of the handlers.  [SearchContacts e props] is the GET
    on contacts?email=e, [props] telling whether custom fields are asked
    for with optional_properties. *)
Inductive Request : Type :=
| SearchContacts (e : string) (props : bool)
| GetContact (cid : Z)
| CreateContact (p : ContactPayload)
| UpdateContact (cid : Z) (p : ContactPayload)
| SearchTags (name : string)
| CreateTag (name : string)
| ApplyTag (cid tid : Z)
| RemoveTag (cid tid : Z).

(** GET requests read; POST, PATCH and DELETE write. *)
Definition isWrite (r : Request) : bool :=
  match r with
  | SearchContacts _ _ | GetContact _ | SearchTags _ => false
  | CreateContact _ | UpdateContact _ _ | CreateTag _
  | ApplyTag _ _ | RemoveTag _ _ => true
  end.

Inductive Body : Type :=
| NoBody
| ContactsBody (cs : list Contact)
| ContactBody (c : Contact)
| TagsBody (ts : list Tag)
| TagBody (t : Tag).

Record Response := mkResponse { status : Z; body : Body }.

(** [response.ok]. *)
Definition ok (r : Response) : bool := (200 <=? status r) && (status r <=? 299).

Definition findField (i : Z) (fs : list Field) : option Field :=
  find (fun f => fid f =? i) fs.

Definition findContactById (cid : Z) (cs : list Contact) : option Contact :=
  find (fun c => id c =? cid) cs.

(** Writing one custom field: the field of that id is replaced where it
    stands, a new id is appended. *)
Fixpoint setField (f : Field) (fs : list Field) : list Field :=
  match fs with
  | [] => [f]
  | g :: fs' => if fid g =? fid f then f :: fs' else g :: setField f fs'
  end.

Definition mergeFields (new old : list Field) : list Field :=
  fold_left (fun acc f => setField f acc) new old.

Definition orElse {A} (o : option A) (d : A) : A :=
  match o with Some a => a | None => d end.

Definition applyPayload (p : ContactPayload) (c : Contact) : Contact :=
  {| id := id c;
     given_name := orElse (p_given_name p) (given_name c);
     family_name := orElse (p_family_name p) (family_name c);
     email := orElse (p_email p) (email c);
     addresses := orElse (p_addresses p) (addresses c);
     opt_in_reason :=
       match p_opt_in_reason p with
       | Omitted => opt_in_reason c
       | Null => None
       | Sent r => Some r
       end;
     custom_fields := mergeFields (p_custom_fields p) (custom_fields c);
     tag_ids := tag_ids c |}.

Definition blankContact (cid : Z) : Contact :=
  mkContact cid EmptyString EmptyString EmptyString [] None [] [].

Definition withTags (ts : list Z) (c : Contact) : Contact :=
  {| id := id c; given_name := given_name c; family_name := family_name c;
     email := email c; addresses := addresses c;
     opt_in_reason := opt_in_reason c; custom_fields := custom_fields c;
     tag_ids := ts |}.

Definition withoutFields (c : Contact) : Contact :=
  {| id := id c; given_name := given_name c; family_name := family_name c;
     email := email c; addresses := addresses c;
     opt_in_reason := opt_in_reason c; custom_fields := [];
     tag_ids := tag_ids c |}.

Definition mapContact (cid : Z) (f : Contact -> Contact) (cs : list Contact)
  : list Contact :=
  map (fun c => if id c =? cid then f c else c) cs.

Definition hasTag (tid : Z) (c : Contact) : bool :=
  existsb (Z.eqb tid) (tag_ids c).

(** What the provider does with a request it accepts: the status it
    answers with, the body, and the store afterwards. *)
Definition perform (r : Request) (s : Crm) : Response * Crm :=
  match r with
  | SearchContacts e props =>
      let found := filter (fun c => String.eqb (email c) e) (contacts s) in
      (mkResponse 200
         (ContactsBody (if props then found else map withoutFields found)), s)
  | GetContact cid =>
      match findContactById cid (contacts s) with
      | Some c => (mkResponse 200 (ContactBody c), s)
      | None => (mkResponse 404 NoBody, s)
      end
  | CreateContact p =>
      let c := applyPayload p (blankContact (next_id s)) in
      (mkResponse 201 (ContactBody c),
       mkCrm (contacts s ++ [c])%list (tags s) (next_id s + 1))
  | UpdateContact cid p =>
      match findContactById cid (contacts s) with
      | Some c =>
          (mkResponse 200 (ContactBody (applyPayload p c)),
           mkCrm (mapContact cid (applyPayload p) (contacts s)) (tags s) (next_id s))
      | None => (mkResponse 404 NoBody, s)
      end
  | SearchTags name =>
      (mkResponse 200
         (TagsBody (filter (fun t => String.eqb (tag_name t) name) (tags s))), s)
  | CreateTag name =>
      let t := mkTag (next_id s) name in
      (mkResponse 201 (TagBody t),
       mkCrm (contacts s) (tags s ++ [t])%list (next_id s + 1))
  | ApplyTag cid tid =>
      match findContactById cid (contacts s) with
      | Some c =>
          (mkResponse 200 NoBody,
           mkCrm (mapContact cid
                    (fun c => if hasTag tid c then c
                              else withTags (tag_ids c ++ [tid])%list c)
                    (contacts s))
                 (tags s) (next_id s))
      | None => (mkResponse 404 NoBody, s)
      end
  | RemoveTag cid tid =>
      match findContactById cid (contacts s) with
      | Some c =>
          if hasTag tid c
          then (mkResponse 204 NoBody,
                mkCrm (mapContact cid
                         (fun c => withTags
                                     (filter (fun t => negb (t =? tid)) (tag_ids c)) c)
                         (contacts s))
                      (tags s) (next_id s))
          else (mkResponse 404 NoBody, s)
      | None => (mkResponse 404 NoBody, s)
      end
  end.

(* ================================================================== *)
(** ** Effects: the world, exceptions, [fetch] *)

(** [pending] holds the statuses the provider answers the next requests
    with; a success status there lets the request through to [perform],
    any other status is answered without touching the store.  When
    [pending] is used up every request goes through.  [trace] logs the
    requests in the order they were sent. *)
Record World := mkWorld {
  crm : Crm;
  pending : list Z;
  trace : list Request
}.

(** What [new Error(...)] is thrown with.  [message] gives the text. *)
Inductive Error : Type :=
| ContactSearchFailed (st : Z)
| ContactUpdateFailed (st : Z)
| ContactCreationFailed (st : Z)
| TagSearchFailed (st : Z)
| TagCreationFailed (st : Z)
| TagApplicationFailed (st : Z)
| TagRemovalFailed (st : Z)
| KeapSearchFailed (st : Z)
| NoContactFound (e : string)
| TokenNotConfigured (what : string)
| OtherError (msg : string).

Definition message (e : Error) : string :=
  match e with
  | ContactSearchFailed st => "Contact search failed: " ++ showZ st
  | ContactUpdateFailed st => "Contact update failed: " ++ showZ st
  | ContactCreationFailed st => "Contact creation failed: " ++ showZ st
  | TagSearchFailed st => "Tag search failed: " ++ showZ st
  | TagCreationFailed st => "Tag creation failed: " ++ showZ st
  | TagApplicationFailed st => "Tag application failed: " ++ showZ st
  | TagRemovalFailed st => "Tag removal failed: " ++ showZ st
  | KeapSearchFailed st => "Keap search failed: " ++ showZ st
  | NoContactFound e => "No contact found with email: " ++ e
  | TokenNotConfigured what => what
  | OtherError msg => msg
  end.

(** The HTTP status an error carries, when it carries one. *)
Definition errorStatus (e : Error) : option Z :=
  match e with
  | ContactSearchFailed st | ContactUpdateFailed st | ContactCreationFailed st
  | TagSearchFailed st | TagCreationFailed st | TagApplicationFailed st
  | TagRemovalFailed st | KeapSearchFailed st => Some st
  | NoContactFound _ | TokenNotConfigured _ | OtherError _ => None
  end.

Inductive Res (A : Type) : Type :=
| Ok (a : A)
| Throw (e : Error).
Arguments Ok {A} a.
Arguments Throw {A} e.

(** An asynchronous function: it runs on a world and leaves a world,
    whether it returns or throws. *)
Definition M (A : Type) : Type := World -> Res A * World.

Definition ret {A} (a : A) : M A := fun w => (Ok a, w).
Definition throw {A} (e : Error) : M A := fun w => (Throw e, w).
Definition bind {A B} (m : M A) (k : A -> M B) : M B :=
  fun w => match m w with
           | (Ok a, w') => k a w'
           | (Throw e, w') => (Throw e, w')
           end.
(** [try { m } catch (e) { h e }]. *)
Definition tryCatch {A} (m : M A) (h : Error -> M A) : M A :=
  fun w => match m w with
           | (Ok a, w') => (Ok a, w')
           | (Throw e, w') => h e w'
           end.

Declare Scope m_scope.
Delimit Scope m_scope with M.
Notation "x <- m ;; k" := (bind m (fun x => k))
  (at level 61, m at next level, right associativity) : m_scope.
Notation "m ;;; k" := (bind m (fun _ => k))
  (at level 61, right associativity) : m_scope.
Local Open Scope m_scope.

(** [await fetch(...)]: the request is logged, the next pending status is
    taken, and the provider performs the request when that status is a
    success. *)
Definition fetch (r : Request) : M Response := fun w =>
  let '(st, rest) :=
    match pending w with
    | [] => (200, [])
    | s :: l => (s, l)
    end in
  let tr := (trace w ++ [r])%list in
  if ok (mkResponse st NoBody)
  then let '(resp, s') := perform r (crm w) in (Ok resp, mkWorld s' rest tr)
  else (Ok (mkResponse st NoBody), mkWorld (crm w) rest tr).

(** The write requests of a trace. *)
Definition writes (tr : list Request) : list Request := filter isWrite tr.

(** Lifting a call that returns or throws without touching the CRM. *)
Definition liftRes {A} (r : Res A) : M A := fun w => (r, w).

(** A loop over an array with [await] in its body. *)
Fixpoint forEach {A S} (l : list A) (body : A -> S -> M S) (s : S) : M S :=
  match l with
  | [] => ret s
  | x :: l' => s' <- body x s ;; forEach l' body s'
  end.

(** The id in the body of a contact or tag response. *)
Definition contactIdOf (b : Body) : Z :=
  match b with ContactBody c => id c | _ => 0 end.
Definition contactsOf (b : Body) : list Contact :=
  match b with ContactsBody cs => cs | _ => [] end.
Definition tagsOf (b : Body) : list Tag :=
  match b with TagsBody ts => ts | _ => [] end.
Definition tagIdOf (b : Body) : Z :=
  match b with TagBody t => tag_id t | _ => 0 end.

(* ================================================================== *)
(** ** Payment sessions and order data *)

(** A [Date], through the three renderings the handlers ask of it:
    toLocaleDateString('en-US', {month:'short', day:'numeric',
    year:'numeric'}), toISOString().split('T')[0], and
    toLocaleDateString('en-US', {month:'long', year:'numeric'}). *)
Record JsDate := mkDate {
  short_date : string;
  iso_day : string;
  month_year : string
}.

Record CartItem := mkItem {
  productId : string;
  productName : string;
  productPrice : Z;
  quantity : Z
}.

Record ShippingAddress := mkShipping {
  line1 : string;
  line2 : string;
  city : string;
  state : string;
  postalCode : string;
  country : string
}.

Record StripeAddress := mkStripeAddress {
  sa_line1 : string;
  sa_line2 : option string;
  sa_city : string;
  sa_state : string;
  sa_postal_code : string;
  sa_country : string
}.

Record ShippingDetails := mkShippingDetails {
  sd_address : option StripeAddress;
  sd_name : option string
}.

(** [metadata.cartItems] with what [JSON.parse] makes of it. *)
Inductive CartJson : Type :=
| CartAbsent
| CartMalformed
| CartParsed (items : list CartItem).

Record Metadata := mkMetadata {
  m_cartItems : CartJson;
  m_hasPreOrder : option string;
  m_emailConsent : option string
}.

Record Session := mkSession {
  s_id : string;
  shipping_details : option ShippingDetails;
  collected_shipping_details : option ShippingDetails;
  customer_email : option string;
  customer_name : option string;
  metadata : option Metadata;
  amount_total : Z;
  payment_intent : option string;
  created : JsDate
}.

(** A JSON value, as [JSON.parse] gives it and as a request body hands
    it to a handler.  [JUndefined] is what reading a property that is not
    there gives.  An object lists its own properties in the order it
    enumerates them.  Numbers are the integers, printed in full, as
    JavaScript prints those below 10^21. *)
#[local] Unset Elimination Schemes.
Inductive JsVal : Type :=
| JUndefined
| JNull
| JBool (b : bool)
| JNum (n : Z)
| JStr (s : string)
| JArr (items : list JsVal)
| JObj (props : list (string * JsVal)).
#[local] Set Elimination Schemes.

(** [!!x]: [undefined], [null], [false], [0] and the empty string are
    falsy; every array and every object is truthy, an empty one too. *)
Definition jsTruthy (x : JsVal) : bool :=
  match x with
  | JUndefined | JNull | JBool false | JNum 0 | JStr EmptyString => false
  | _ => true
  end.

(** [String(v)], which is also what [v.toString()], a template literal
    and [encodeURIComponent] make of [v]; [None] when the conversion
    throws a TypeError.  An array is its elements joined by commas, a
    [null] or [undefined] element giving the empty string.  An object is
    [[object Object]], unless it carries a property named toString:
    JSON cannot make that one a function, and the conversion throws. *)
Fixpoint jsString (v : JsVal) : option string :=
  match v with
  | JUndefined => Some "undefined"
  | JNull => Some "null"
  | JBool b => Some (if b then "true" else "false")
  | JNum n => Some (showZ n)
  | JStr s => Some s
  | JArr items =>
      let element (x : JsVal) : option string :=
        match x with
        | JUndefined | JNull => Some EmptyString
        | _ => jsString x
        end in
      (fix joinItems (l : list JsVal) : option string :=
         match l with
         | [] => Some EmptyString
         | [x] => element x
         | x :: rest =>
             match element x, joinItems rest with
             | Some a, Some b => Some (a ++ "," ++ b)
             | _, _ => None
             end
         end) items
  | JObj props =>
      if existsb (fun p => String.eqb (fst p) "toString") props
      then None
      else Some "[object Object]"
  end.

Definition hexDigit (n : nat) : ascii :=
  ascii_of_nat (if (n <? 10)%nat then 48 + n else 87 + n).

(** One character of a string inside [JSON.stringify]: the quote and
    the backslash are escaped, and so are the control characters. *)
Definition escapeChar (c : ascii) : string :=
  let n := nat_of_ascii c in
  let bs := String (ascii_of_nat 92) EmptyString in
  if (n =? 34)%nat then bs ++ dquote
  else if (n =? 92)%nat then bs ++ bs
  else if (n =? 8)%nat then bs ++ "b"
  else if (n =? 9)%nat then bs ++ "t"
  else if (n =? 10)%nat then bs ++ "n"
  else if (n =? 12)%nat then bs ++ "f"
  else if (n =? 13)%nat then bs ++ "r"
  else if (n <? 32)%nat
  then bs ++ "u00" ++ String (hexDigit (n / 16)) (String (hexDigit (n mod 16)) EmptyString)
  else String c EmptyString.

Fixpoint escapeString (s : string) : string :=
  match s with
  | EmptyString => EmptyString
  | String c s' => escapeChar c ++ escapeString s'
  end.

Definition quoted (s : string) : string := dquote ++ escapeString s ++ dquote.

(** [JSON.stringify(v)]. *)
Fixpoint stringify (v : JsVal) : string :=
  match v with
  | JUndefined | JNull => "null"
  | JBool b => if b then "true" else "false"
  | JNum n => showZ n
  | JStr s => quoted s
  | JArr items => "[" ++ join "," (map stringify items) ++ "]"
  | JObj props =>
      "{" ++ join ","
               ((fix members (l : list (string * JsVal)) : list string :=
                   match l with
                   | [] => []
                   | (_, JUndefined) :: rest => members rest
                   | (k, x) :: rest => (quoted k ++ ":" ++ stringify x) :: members rest
                   end) props)
          ++ "}"
  end.

(** The payments provider: listing completed sessions under a limit and
    retrieving one session; either call may throw. *)
Record StripeApi := mkStripe {
  listSessions : JsVal -> Res (list string);
  retrieve : string -> Res Session
}.

Record Env := mkEnv {
  ADMIN_API_KEY : option string;
  KEAP_ACCESS_TOKEN : option string;
  STRIPE_SECRET_KEY : option string
}.

(** The name split at its first space: [nameParts[0]] and
    [nameParts.slice(1).join(' ')]. *)
Fixpoint splitName (s : string) : string * string :=
  match s with
  | EmptyString => (EmptyString, EmptyString)
  | String c s' =>
      if Ascii.eqb c " " then (EmptyString, s')
      else let '(a, b) := splitName s' in (String c a, b)
  end.

Definition formatShipping (a : option ShippingAddress) : string :=
  match a with
  | Some a =>
      line1 a ++ (if nonEmpty (line2 a) then nl ++ line2 a else EmptyString) ++ nl
        ++ city a ++ ", " ++ state a ++ " " ++ postalCode a ++ nl ++ country a
  | None => "Not provided"
  end.

Definition orderSummaryOf (cartItems : list CartItem) : string :=
  join nl (map (fun item => showZ (quantity item) ++ "x " ++ productName item) cartItems).

Definition totalPriceOf (cartItems : list CartItem) : Z :=
  fold_left (fun sum item => sum + productPrice item * quantity item) cartItems 0.

Definition productIdsOf (cartItems : list CartItem) : string :=
  join ", " (map productId cartItems).

Definition nativeAddresses (a : option ShippingAddress) : list Address :=
  match a with
  | Some a => [ mkAddress "SHIPPING" (line1 a) (line2 a) (city a) (state a)
                  (postalCode a) (country a) ]
  | None => []
  end.

(** The tags pushed for the cart: one per item with a known product id. *)
Fixpoint productTags (cartItems : list CartItem) : list string :=
  match cartItems with
  | [] => []
  | item :: rest =>
      if String.eqb (productId item) "cards-only"
      then "Destiny Cards - Cards Only" :: productTags rest
      else if String.eqb (productId item) "cards-book-bundle"
      then "Destiny Cards - Cards + Book Bundle" :: productTags rest
      else productTags rest
  end.

Definition baseTags : list string :=
  [ "Destiny Cards - Order Received";
    "Destiny Cards - 1st Edition";
    "Destiny Cards - Awaiting Shipment" ].

Definition preOrderTags : list string :=
  [ "Destiny Cards - Pre-Order (Book Ships March 2026)";
    "Destiny Cards - Pending Book Shipment" ].

Definition repeatCustomerTag : string := "Destiny Cards - Repeat Customer".

Definition dateTag (monthYear : string) : string := "Destiny Cards - " ++ monthYear.

(** Custom field ids, as in the CUSTOM_FIELDS tables of the handlers. *)
Definition PRODUCT_ORDERED : Z := 303.
Definition ORDER_SUMMARY : Z := 305.
Definition PRODUCT_PRICE : Z := 307.
Definition SHIPPING_ADDRESS : Z := 309.
Definition PAYMENT_ID : Z := 311.
Definition ORDER_DATE : Z := 313.
Definition CARDS_TRACKING_NUMBER : Z := 315.
Definition CARDS_SHIPPED_DATE : Z := 317.
Definition BOOK_TRACKING_NUMBER : Z := 319.
Definition BOOK_SHIPPED_DATE : Z := 321.
Definition HAS_PREORDER : Z := 323.
Definition ORDER_HISTORY : Z := 325.
Definition TOTAL_SPENT : Z := 327.

(** The separator between two entries of the order history. *)
Definition historySeparator : string := nl ++ "---" ++ nl.

Record SyncResult := mkSyncResult { success : bool; contactId : Z }.

(** An incoming request: method, Authorization header, parsed body. *)
Record Event (B : Type) := mkEvent {
  httpMethod : string;
  authorization : option string;
  ebody : B
}.

(** The admin gate shared by the handlers:
    [!adminKey || authHeader !== `Bearer ${adminKey}`]. *)
Definition unauthorized (env : Env) (authHeader : option string) : bool :=
  match ADMIN_API_KEY env with
  | None => true
  | Some k =>
      if nonEmpty k
      then match authHeader with
           | Some h => negb (String.eqb h ("Bearer " ++ k))
           | None => true
           end
      else true
  end.

(** [x || dflt] on a JSON value. *)
Definition jsOr (x dflt : JsVal) : JsVal :=
  match x with
  | JUndefined | JNull | JBool false | JNum 0 | JStr EmptyString => dflt
  | _ => x
  end.

(** [x !== false]. *)
Definition notFalse (x : JsVal) : bool :=
  match x with JBool false => false | _ => true end.

(* ================================================================== *)
(** ** backfill-keap.js *)
Module Backfill.

Record OrderData := mkOrderData {
  o_sessionId : string;
  o_email : string;
  o_name : string;
  o_shippingAddress : option ShippingAddress;
  o_cartItems : list CartItem;
  o_hasPreOrder : bool;
  o_amountPaid : Dec;
  o_paymentId : option string;
  o_created : JsDate
}.

Record Detail := mkDetail {
  d_sessionId : string;
  d_email : option string;
  d_name : option string;
  d_status : string;
  d_reason : option string;
  d_orderData : option OrderData
}.

Record ErrorEntry := mkErrorEntry { e_sessionId : string; e_error : string }.

Record Results := mkResults {
  processed : nat;
  synced : nat;
  skipped : nat;
  errors : list ErrorEntry;
  details : list Detail
}.

(** What [JSON.parse(event.body || '{}')] gives, as far as the handler
    reads it: [null], on which reading a property throws, or the two
    properties it reads, [JUndefined] where the value does not have the
    property.  The event body is [None] when parsing threw and the
    defaults are used. *)
Inductive Options : Type :=
| NullOptions
| mkOptions (dryRun limit : JsVal).

(** [options.dryRun] and [options.limit] where they can be read. *)
Definition dryRunOpt (options : Options) : JsVal :=
  match options with
  | mkOptions dryRun _ => dryRun
  | NullOptions => JUndefined
  end.

Definition limitOpt (options : Options) : JsVal :=
  match options with
  | mkOptions _ limit => limit
  | NullOptions => JUndefined
  end.

Inductive Reply : Type :=
| Preflight
| Failure (statusCode : Z) (error : string) (detail : option string)
| Report (dryRun : bool) (msg : string) (results : Results).

(** [findKeapContact]: a 429 is retried after a delay, any other failure
    answers [null].  The retries are counted down on [fuel]; [pending]
    holds every 429 there is to meet, so its length is fuel enough. *)
Fixpoint findKeapContactFuel (fuel : nat) (e : string) : M (option Contact) :=
  response <- fetch (SearchContacts e true) ;;
  if negb (ok response) then
    if status response =? 429 then
      match fuel with
      | O => throw (OtherError "rate limited")
      | S fuel' => findKeapContactFuel fuel' e
      end
    else ret None
  else ret (hd_error (contactsOf (body response))).

Definition findKeapContact (e : string) : M (option Contact) :=
  fun w => findKeapContactFuel (List.length (pending w)) e w.

Definition hasExistingOrderData (contact : Contact) : bool :=
  let customFields := custom_fields contact in
  match findField 311 customFields with
  | Some paymentIdField => truthy (content paymentIdField)
  | None => false
  end.

Fixpoint getOrCreateTagFuel (fuel : nat) (tagName : string) : M Z :=
  searchResponse <- fetch (SearchTags tagName) ;;
  if negb (ok searchResponse) then
    if status searchResponse =? 429 then
      match fuel with
      | O => throw (OtherError "rate limited")
      | S fuel' => getOrCreateTagFuel fuel' tagName
      end
    else throw (TagSearchFailed (status searchResponse))
  else
    match tagsOf (body searchResponse) with
    | t :: _ => ret (tag_id t)
    | [] =>
        createResponse <- fetch (CreateTag tagName) ;;
        if negb (ok createResponse)
        then throw (TagCreationFailed (status createResponse))
        else ret (tagIdOf (body createResponse))
    end.

Definition getOrCreateTag (tagName : string) : M Z :=
  fun w => getOrCreateTagFuel (List.length (pending w)) tagName w.

Definition applyTagToContact (contactId tagId : Z) : M unit :=
  response <- fetch (ApplyTag contactId tagId) ;;
  if negb (ok response) && negb (status response =? 429)
  then throw (TagApplicationFailed (status response))
  else ret tt.

(** The custom fields [syncToKeap] writes. *)
Definition customFieldsOf (orderData : OrderData) : list Field :=
  let cartItems := o_cartItems orderData in
  let orderSummary := orderSummaryOf cartItems in
  let orderDate := o_created orderData in
  let orderHistoryEntry :=
    short_date orderDate ++ ": "
      ++ replaceFirst (ascii_of_nat 10) ", " orderSummary
      ++ " ($" ++ toFixed2 (o_amountPaid orderData) ++ ")" in
  [ mkField PRODUCT_ORDERED (Some (productIdsOf cartItems));
    mkField ORDER_SUMMARY (Some orderSummary);
    mkField PRODUCT_PRICE (Some (showZ (totalPriceOf cartItems)));
    mkField SHIPPING_ADDRESS (Some (formatShipping (o_shippingAddress orderData)));
    mkField PAYMENT_ID (o_paymentId orderData);
    mkField ORDER_DATE (Some (iso_day orderDate));
    mkField HAS_PREORDER (Some (if o_hasPreOrder orderData then "Yes" else "No"));
    mkField ORDER_HISTORY (Some orderHistoryEntry);
    mkField TOTAL_SPENT (Some (toFixed2 (o_amountPaid orderData))) ].

Definition contactPayloadOf (orderData : OrderData) (emailConsent : bool)
  : ContactPayload :=
  let '(firstName, lastName) := splitName (o_name orderData) in
  {| p_given_name := Some firstName;
     p_family_name := Some lastName;
     p_email := Some (o_email orderData);
     p_addresses := Some (nativeAddresses (o_shippingAddress orderData));
     p_opt_in_reason := if emailConsent then Sent "Destiny Cards Purchase" else Null;
     p_custom_fields := customFieldsOf orderData |}.

(** The tag names [syncToKeap] goes on to apply. *)
Definition tagsOfOrder (orderData : OrderData) : list string :=
  (baseTags
     ++ productTags (o_cartItems orderData)
     ++ (if o_hasPreOrder orderData then preOrderTags else [])
     ++ [dateTag (month_year (o_created orderData))])%list.

(** One round of the tag loop: a failure is logged and the loop goes on. *)
Definition applyOneTag (contactId : Z) (tagName : string) (_ : unit) : M unit :=
  tryCatch
    (tagId <- getOrCreateTag tagName ;;
     applyTagToContact contactId tagId)
    (fun tagError => ret tt).

(** Sync order to Keap (same logic as webhook). *)
Definition syncToKeap (orderData : OrderData) (emailConsent : bool) : M SyncResult :=
  let contactPayload := contactPayloadOf orderData emailConsent in
  existingContact <- findKeapContact (o_email orderData) ;;
  contactId <-
    match existingContact with
    | Some c =>
        updateResponse <- fetch (UpdateContact (id c) contactPayload) ;;
        if negb (ok updateResponse)
        then throw (ContactUpdateFailed (status updateResponse))
        else ret (id c)
    | None =>
        createResponse <- fetch (CreateContact contactPayload) ;;
        if negb (ok createResponse)
        then throw (ContactCreationFailed (status createResponse))
        else ret (contactIdOf (body createResponse))
    end ;;
  forEach (tagsOfOrder orderData) (applyOneTag contactId) tt ;;;
  ret (mkSyncResult true contactId).

Definition shippingOf (session : Session) : option ShippingAddress :=
  let shippingDetails :=
    match shipping_details session with
    | Some d => Some d
    | None => collected_shipping_details session
    end in
  match shippingDetails with
  | Some d =>
      match sd_address d with
      | Some a =>
          Some (mkShipping (sa_line1 a) (orElse (sa_line2 a) EmptyString) (sa_city a)
                  (sa_state a) (sa_postal_code a) (sa_country a))
      | None => None
      end
  | None => None
  end.

(** The cart and the pre-order flag read from the metadata: when the
    cart does not parse, both keep their initial values. *)
Definition cartOf (session : Session) : list CartItem * bool :=
  match metadata session with
  | Some m =>
      match m_cartItems m with
      | CartMalformed => ([], false)
      | CartAbsent =>
          ([], match m_hasPreOrder m with Some s => String.eqb s "true" | None => false end)
      | CartParsed items =>
          (items, match m_hasPreOrder m with Some s => String.eqb s "true" | None => false end)
      end
  | None => ([], false)
  end.

Definition emailConsentOf (session : Session) : bool :=
  match metadata session with
  | Some m => match m_emailConsent m with Some s => String.eqb s "true" | None => false end
  | None => false
  end.

Definition bumpProcessed (r : Results) : Results :=
  mkResults (S (processed r)) (synced r) (skipped r) (errors r) (details r).
Definition recordSkipped (d : Detail) (r : Results) : Results :=
  mkResults (processed r) (synced r) (S (skipped r)) (errors r) (details r ++ [d])%list.
Definition recordSynced (d : Detail) (r : Results) : Results :=
  mkResults (processed r) (S (synced r)) (skipped r) (errors r) (details r ++ [d])%list.
Definition recordError (e : ErrorEntry) (r : Results) : Results :=
  mkResults (processed r) (synced r) (skipped r) (errors r ++ [e])%list (details r).

(** The body of the loop over [sessions.data].  The counters are only
    touched on paths that no longer throw, so the catch clause sees the
    results as they were after [processed++]. *)
Definition processSession (dryRun : bool) (stripe : StripeApi)
    (sessionSummaryId : string) (results0 : Results) : M Results :=
  let results := bumpProcessed results0 in
  tryCatch
    (session <- liftRes (retrieve stripe sessionSummaryId) ;;
     let customerName := orElse (customer_name session) EmptyString in
     match customer_email session with
     | None | Some EmptyString =>
         ret (recordSkipped
                (mkDetail (s_id session) None None "skipped"
                   (Some "No customer email") None) results)
     | Some customerEmail =>
         existingContact <- findKeapContact customerEmail ;;
         let hasOrderData :=
           match existingContact with
           | Some c => hasExistingOrderData c
           | None => false
           end in
         if hasOrderData then
           ret (recordSkipped
                  (mkDetail (s_id session) (Some customerEmail) None "skipped"
                     (Some "Already has order data in Keap") None) results)
         else
           let '(cartItems, hasPreOrder) := cartOf session in
           let orderData :=
             mkOrderData (s_id session) customerEmail customerName
               (shippingOf session) cartItems hasPreOrder
               (cents (amount_total session)) (payment_intent session)
               (created session) in
           if dryRun then
             ret (recordSynced
                    (mkDetail (s_id session) (Some customerEmail) (Some customerName)
                       "would_sync" None (Some orderData)) results)
           else
             syncToKeap orderData (emailConsentOf session) ;;;
             ret (recordSynced
                    (mkDetail (s_id session) (Some customerEmail) None
                       "synced" None None) results)
     end)
    (fun sessionError =>
       ret (recordError (mkErrorEntry sessionSummaryId (message sessionError)) results)).

Definition emptyResults : Results := mkResults 0 0 0 [] [].

(** The loop of the handler over the listed sessions. *)
Definition backfill (dryRun : bool) (stripe : StripeApi) (sessions : list string)
  : M Results :=
  forEach sessions (processSession dryRun stripe) emptyResults.

Definition reportMessage (dryRun : bool) (results : Results) : string :=
  if dryRun
  then "Dry run complete. " ++ showZ (Z.of_nat (synced results))
         ++ " orders would be synced. Run with dryRun: false to execute."
  else "Backfill complete. " ++ showZ (Z.of_nat (synced results))
         ++ " orders synced to Keap.".

(** [exports.handler].  [stripe] is the client [getStripe] builds when
    the secret key is configured.  Reading the options of a [null] body
    is outside the [try], so the error leaves the handler. *)
Definition handler (env : Env) (stripe : StripeApi) (event : Event (option Options))
  : M Reply :=
  if String.eqb (httpMethod event) "OPTIONS" then ret Preflight
  else if negb (String.eqb (httpMethod event) "POST")
  then ret (Failure 405 "Method not allowed. Use POST." None)
  else if unauthorized env (authorization event)
  then ret (Failure 401 "Unauthorized" None)
  else if negb (truthy (KEAP_ACCESS_TOKEN env))
  then ret (Failure 500 "KEAP_ACCESS_TOKEN not configured" None)
  else
    let options := orElse (ebody event) (mkOptions JUndefined JUndefined) in
    match options with
    | NullOptions =>
        throw (OtherError "Cannot read properties of null (reading 'dryRun')")
    | mkOptions _ _ =>
        let dryRun := notFalse (dryRunOpt options) in
        let limit := jsOr (limitOpt options) (JNum 100) in
        tryCatch
          (if negb (truthy (STRIPE_SECRET_KEY env))
           then throw (TokenNotConfigured "STRIPE_SECRET_KEY not configured")
           else
             sessions <- liftRes (listSessions stripe limit) ;;
             results <- backfill dryRun stripe sessions ;;
             ret (Report dryRun (reportMessage dryRun results) results))
          (fun error => ret (Failure 500 "Backfill failed" (Some (message error))))
    end.

End Backfill.

(* ================================================================== *)
(** ** stripe-webhook.js *)
Module Webhook.

(** The object [handleCheckoutComplete] passes to [integrateWithKeap]. *)
Record OrderInput := mkOrderInput {
  firstName : string;
  lastName : string;
  i_email : string;
  emailConsent : bool;
  cartItems : list CartItem;
  shippingAddress : option ShippingAddress;
  paymentId : option string;
  amountPaid : Dec;
  hasPreOrder : bool
}.

Definition getOrCreateTag (tagName : string) : M Z :=
  searchResponse <- fetch (SearchTags tagName) ;;
  if negb (ok searchResponse)
  then throw (TagSearchFailed (status searchResponse))
  else
    match tagsOf (body searchResponse) with
    | t :: _ => ret (tag_id t)
    | [] =>
        createResponse <- fetch (CreateTag tagName) ;;
        if negb (ok createResponse)
        then throw (TagCreationFailed (status createResponse))
        else ret (tagIdOf (body createResponse))
    end.

Definition applyTagToContact (contactId tagId : Z) : M unit :=
  response <- fetch (ApplyTag contactId tagId) ;;
  if negb (ok response)
  then throw (TagApplicationFailed (status response))
  else ret tt.

(** [thisOrderEntry]: the line this order adds to the history. *)
Definition thisOrderEntry (now : JsDate) (data : OrderInput) : string :=
  short_date now ++ ": " ++ orderSummaryOf (cartItems data)
    ++ " ($" ++ toFixed2 (amountPaid data) ++ ")".

(** History and total after the existing custom fields are taken in. *)
Definition mergeHistory (entry : string) (existingCustomFields : list Field) : string :=
  match findField ORDER_HISTORY existingCustomFields with
  | Some existingHistoryField =>
      match content existingHistoryField with
      | Some h => if nonEmpty h then entry ++ historySeparator ++ h else entry
      | None => entry
      end
  | None => entry
  end.

Definition mergeTotal (paid : Dec) (existingCustomFields : list Field) : Dec :=
  match findField TOTAL_SPENT existingCustomFields with
  | Some existingSpentField =>
      match content existingSpentField with
      | Some s => if nonEmpty s then decAdd (parseFloatOr0 s) paid else paid
      | None => paid
      end
  | None => paid
  end.

Definition customFieldsOf (now : JsDate) (data : OrderInput)
    (orderHistory : string) (totalSpent : Dec) : list Field :=
  [ mkField PRODUCT_ORDERED (Some (productIdsOf (cartItems data)));
    mkField ORDER_SUMMARY (Some (orderSummaryOf (cartItems data)));
    mkField PRODUCT_PRICE (Some (showZ (totalPriceOf (cartItems data))));
    mkField SHIPPING_ADDRESS (Some (formatShipping (shippingAddress data)));
    mkField PAYMENT_ID (paymentId data);
    mkField ORDER_DATE (Some (iso_day now));
    mkField HAS_PREORDER (Some (if hasPreOrder data then "Yes" else "No"));
    mkField ORDER_HISTORY (Some orderHistory);
    mkField TOTAL_SPENT (Some (toFixed2 totalSpent)) ].

(** The payload leaves out the address block when there is none and
    [opt_in_reason] when consent was not given. *)
Definition contactPayloadOf (data : OrderInput) (customFields : list Field)
  : ContactPayload :=
  {| p_given_name := Some (firstName data);
     p_family_name := Some (lastName data);
     p_email := Some (i_email data);
     p_addresses :=
       match nativeAddresses (shippingAddress data) with
       | [] => None
       | l => Some l
       end;
     p_opt_in_reason :=
       if emailConsent data then Sent "Destiny Cards Purchase" else Omitted;
     p_custom_fields := customFields |}.

(** The tag names [integrateWithKeap] goes on to apply. *)
Definition tagsOfOrder (now : JsDate) (isReturningCustomer : bool) (data : OrderInput)
  : list string :=
  (baseTags
     ++ (if isReturningCustomer then [repeatCustomerTag] else [])
     ++ productTags (cartItems data)
     ++ (if hasPreOrder data then preOrderTags else [])
     ++ [dateTag (month_year now)])%list.

Definition applyOneTag (contactId : Z) (tagName : string) (_ : unit) : M unit :=
  tryCatch
    (tagId <- getOrCreateTag tagName ;;
     applyTagToContact contactId tagId)
    (fun tagError => ret tt).

(** [integrateWithKeap]; [now] is the clock, read by [new Date()]. *)
Definition integrateWithKeap (env : Env) (now : JsDate) (data : OrderInput)
  : M SyncResult :=
  if negb (truthy (KEAP_ACCESS_TOKEN env))
  then throw (TokenNotConfigured "Keap access token not configured")
  else
    searchResponse <- fetch (SearchContacts (i_email data) false) ;;
    if negb (ok searchResponse)
    then throw (ContactSearchFailed (status searchResponse))
    else
      let found := contactsOf (body searchResponse) in
      let isReturningCustomer := match found with [] => false | _ => true end in
      let entry := thisOrderEntry now data in
      merged <-
        match found with
        | existing :: _ =>
            contactDetailResponse <- fetch (GetContact (id existing)) ;;
            if ok contactDetailResponse then
              let existingCustomFields :=
                match body contactDetailResponse with
                | ContactBody contactDetail => custom_fields contactDetail
                | _ => []
                end in
              ret (mergeHistory entry existingCustomFields,
                   mergeTotal (amountPaid data) existingCustomFields)
            else ret (entry, amountPaid data)
        | [] => ret (entry, amountPaid data)
        end ;;
      let '(orderHistory, totalSpent) := merged in
      let contactPayload :=
        contactPayloadOf data (customFieldsOf now data orderHistory totalSpent) in
      contactId <-
        match found with
        | existing :: _ =>
            updateResponse <- fetch (UpdateContact (id existing) contactPayload) ;;
            if negb (ok updateResponse)
            then throw (ContactUpdateFailed (status updateResponse))
            else ret (id existing)
        | [] =>
            createResponse <- fetch (CreateContact contactPayload) ;;
            if negb (ok createResponse)
            then throw (ContactCreationFailed (status createResponse))
            else ret (contactIdOf (body createResponse))
        end ;;
      forEach (tagsOfOrder now isReturningCustomer data) (applyOneTag contactId) tt ;;;
      ret (mkSyncResult true contactId).

End Webhook.

(* ================================================================== *)
(** ** update-tracking.js *)
Module Tracking.

Definition getOrCreateTag (tagName : string) : M Z :=
  searchResponse <- fetch (SearchTags tagName) ;;
  if negb (ok searchResponse)
  then throw (TagSearchFailed (status searchResponse))
  else
    match tagsOf (body searchResponse) with
    | t :: _ => ret (tag_id t)
    | [] =>
        createResponse <- fetch (CreateTag tagName) ;;
        if negb (ok createResponse)
        then throw (TagCreationFailed (status createResponse))
        else ret (tagIdOf (body createResponse))
    end.

(** [getTagId]: [null] when the search fails or finds nothing. *)
Definition getTagId (tagName : string) : M (option Z) :=
  searchResponse <- fetch (SearchTags tagName) ;;
  if negb (ok searchResponse) then ret None
  else
    match tagsOf (body searchResponse) with
    | t :: _ => ret (if tag_id t =? 0 then None else Some (tag_id t))
    | [] => ret None
    end.

Definition applyTagToContact (contactId tagId : Z) : M unit :=
  response <- fetch (ApplyTag contactId tagId) ;;
  if negb (ok response)
  then throw (TagApplicationFailed (status response))
  else ret tt.

(** 404 is ok - tag wasn't applied. *)
Definition removeTagFromContact (contactId tagId : Z) : M unit :=
  response <- fetch (RemoveTag contactId tagId) ;;
  if negb (ok response) && negb (status response =? 404)
  then throw (TagRemovalFailed (status response))
  else ret tt.

(** The custom fields of the PATCH, chosen by the shipment type. *)
Definition trackingFields (trackingNumber today shipmentType : string) : list Field :=
  if String.eqb shipmentType "cards"
  then [ mkField CARDS_TRACKING_NUMBER (Some trackingNumber);
         mkField CARDS_SHIPPED_DATE (Some today) ]
  else [ mkField BOOK_TRACKING_NUMBER (Some trackingNumber);
         mkField BOOK_SHIPPED_DATE (Some today) ].

Definition trackingPayload (customFields : list Field) : ContactPayload :=
  mkPayload None None None None Omitted customFields.

(** [updateTrackingInKeap]; [today] is the day the clock shows. *)
Definition updateTrackingInKeap (env : Env) (today : string)
    (e trackingNumber shipmentType : string) : M Z :=
  if negb (truthy (KEAP_ACCESS_TOKEN env))
  then throw (TokenNotConfigured "KEAP_ACCESS_TOKEN not configured")
  else
    searchResponse <- fetch (SearchContacts e false) ;;
    if negb (ok searchResponse)
    then throw (ContactSearchFailed (status searchResponse))
    else
      match contactsOf (body searchResponse) with
      | [] => throw (NoContactFound e)
      | c :: _ =>
          let contactId := id c in
          let customFields := trackingFields trackingNumber today shipmentType in
          updateResponse <- fetch (UpdateContact contactId (trackingPayload customFields)) ;;
          if negb (ok updateResponse)
          then throw (ContactUpdateFailed (status updateResponse))
          else
            let shippedTagName :=
              if String.eqb shipmentType "cards"
              then "Destiny Cards - Cards Shipped"
              else "Destiny Cards - Book Shipped" in
            let awaitingTagName :=
              if String.eqb shipmentType "cards"
              then "Destiny Cards - Awaiting Shipment"
              else "Destiny Cards - Pending Book Shipment" in
            tryCatch
              (shippedTagId <- getOrCreateTag shippedTagName ;;
               applyTagToContact contactId shippedTagId)
              (fun _ => ret tt) ;;;
            tryCatch
              (awaitingTagId <- getTagId awaitingTagName ;;
               match awaitingTagId with
               | Some t => removeTagFromContact contactId t
               | None => ret tt
               end)
              (fun _ => ret tt) ;;;
            ret contactId
      end.

(** The content of a custom field as it goes out in the JSON of a
    request, and as the provider keeps it: a string as it is, any other
    value as its JSON text. *)
Definition contentText (v : JsVal) : string :=
  match v with
  | JStr s => s
  | _ => stringify v
  end.

(** [updateTrackingInKeap] on the arguments the handler passes on,
    which need not be strings.  The email goes into the URL of the
    search, and into the message of the not-found error, as its text;
    where it has none the conversion throws, after the token is checked.
    The tracking number goes out as the content of a custom field. *)
Definition updateTrackingInKeapOf (env : Env) (today : string)
    (e trackingNumber : JsVal) (shipmentType : string) : M Z :=
  if negb (truthy (KEAP_ACCESS_TOKEN env))
  then throw (TokenNotConfigured "KEAP_ACCESS_TOKEN not configured")
  else
    match jsString e with
    | None => throw (OtherError "Cannot convert object to primitive value")
    | Some text =>
        updateTrackingInKeap env today text (contentText trackingNumber) shipmentType
    end.

(** The three properties the handler reads off the parsed body;
    [JUndefined] where the body does not have the property. *)
Record TrackingRequest := mkTrackingRequest {
  b_email : JsVal;
  b_trackingNumber : JsVal;
  b_shipmentType : JsVal
}.

Inductive Reply : Type :=
| Preflight
| Failure (statusCode : Z) (error : string)
| Updated (msg : string) (contactId : Z).

(** [['cards', 'book'].includes(shipmentType)]: only the two strings
    are included. *)
Definition cardsOrBook (shipmentType : JsVal) : option string :=
  match shipmentType with
  | JStr s => if String.eqb s "cards" || String.eqb s "book" then Some s else None
  | _ => None
  end.

(** [exports.handler]; the event body is [None] when [JSON.parse]
    throws on it or gives [null], which cannot be destructured. *)
Definition handler (env : Env) (today : string) (event : Event (option TrackingRequest))
  : M Reply :=
  if String.eqb (httpMethod event) "OPTIONS" then ret Preflight
  else if negb (String.eqb (httpMethod event) "POST")
  then ret (Failure 405 "Method not allowed")
  else if unauthorized env (authorization event)
  then ret (Failure 401 "Unauthorized")
  else
    tryCatch
      (match ebody event with
       | None => throw (OtherError "Unexpected token in JSON")
       | Some b =>
           let e := b_email b in
           let trackingNumber := b_trackingNumber b in
           let shipmentType := b_shipmentType b in
           if negb (jsTruthy e) || negb (jsTruthy trackingNumber)
              || negb (jsTruthy shipmentType)
           then ret (Failure 400
             "Missing required fields: email, trackingNumber, shipmentType (cards or book)")
           else
             match cardsOrBook shipmentType with
             | None =>
                 ret (Failure 400
                   ("shipmentType must be " ++ dquote ++ "cards" ++ dquote
                      ++ " or " ++ dquote ++ "book" ++ dquote))
             | Some leg =>
                 contactId <- updateTrackingInKeapOf env today e trackingNumber leg ;;
                 ret (Updated
                        ("Tracking number updated for " ++ orElse (jsString e) EmptyString)
                        contactId)
             end
       end)
      (fun error => ret (Failure 500 (message error))).

End Tracking.

(* ================================================================== *)
(** ** get-orders.js *)
Module Orders.

Record KeapStatus := mkKeapStatus {
  cardsShipped : bool;
  bookShipped : bool;
  cardsTrackingNumber : option string;
  bookTrackingNumber : option string
}.

(** [field?.content || null]. *)
Definition contentOrNull (f : option Field) : option string :=
  match f with
  | Some f => if truthy (content f) then content f else None
  | None => None
  end.

(** [!!(field?.content)]. *)
Definition shipped (f : option Field) : bool :=
  match f with
  | Some f => truthy (content f)
  | None => false
  end.

(** The status read off the custom fields of a contact. *)
Definition statusOfFields (customFields : list Field) : KeapStatus :=
  let cardsTrackingField := findField 315 customFields in
  let bookTrackingField := findField 319 customFields in
  mkKeapStatus (shipped cardsTrackingField) (shipped bookTrackingField)
    (contentOrNull cardsTrackingField) (contentOrNull bookTrackingField).

Definition getKeapFulfillmentStatus (e : string) : M KeapStatus :=
  searchResponse <- fetch (SearchContacts e true) ;;
  if negb (ok searchResponse)
  then throw (KeapSearchFailed (status searchResponse))
  else
    match contactsOf (body searchResponse) with
    | [] => ret (mkKeapStatus false false None None)
    | contact :: _ => ret (statusOfFields (custom_fields contact))
    end.

(** "Determine overall fulfillment status". *)
Definition fulfillmentStatus (hasPreOrder cardsShipped bookShipped : bool) : string :=
  if hasPreOrder then
    if cardsShipped && bookShipped then "fulfilled"
    else if cardsShipped then "partial"
    else "pending"
  else
    if cardsShipped then "fulfilled" else "pending".

Record Fulfillment := mkFulfillment {
  f_status : string;
  f_cardsShipped : bool;
  f_bookShipped : bool;
  f_cardsTrackingNumber : option string;
  f_bookTrackingNumber : option string
}.

(** The [fulfillment] object of one order: the flags start out false,
    and stay so when there is no token, no email, or the lookup throws. *)
Definition fulfillmentOf (env : Env) (customerEmail : option string) (hasPreOrder : bool)
  : M Fulfillment :=
  keapStatus <-
    (if truthy (KEAP_ACCESS_TOKEN env) && truthy customerEmail
     then tryCatch (getKeapFulfillmentStatus (orElse customerEmail EmptyString))
            (fun _ => ret (mkKeapStatus false false None None))
     else ret (mkKeapStatus false false None None)) ;;
  ret (mkFulfillment
         (fulfillmentStatus hasPreOrder (cardsShipped keapStatus) (bookShipped keapStatus))
         (cardsShipped keapStatus) (bookShipped keapStatus)
         (cardsTrackingNumber keapStatus) (bookTrackingNumber keapStatus)).

End Orders.

(* ================================================================== *)
(** ** check-fulfillment.js *)
Module Fulfillment.

Inductive Reply : Type :=
| Preflight
| Failure (statusCode : Z) (error : string)
| NotFound
| Found (cardsShipped bookShipped : bool)
        (cardsTrackingNumber bookTrackingNumber : option string).

(** [exports.handler]; the event body is the [email] query parameter. *)
Definition handler (env : Env) (event : Event (option string)) : M Reply :=
  if String.eqb (httpMethod event) "OPTIONS" then ret Preflight
  else if negb (String.eqb (httpMethod event) "GET")
  then ret (Failure 405 "Method not allowed")
  else if unauthorized env (authorization event)
  then ret (Failure 401 "Unauthorized")
  else if negb (truthy (ebody event))
  then ret (Failure 400 "Email parameter required")
  else if negb (truthy (KEAP_ACCESS_TOKEN env))
  then ret (Failure 500 "Keap not configured")
  else
    tryCatch
      (searchResponse <- fetch (SearchContacts (orElse (ebody event) EmptyString) true) ;;
       if negb (ok searchResponse) then
         if status searchResponse =? 429
         then ret (Failure 429 "Rate limited. Please wait a moment.")
         else throw (KeapSearchFailed (status searchResponse))
       else
         match contactsOf (body searchResponse) with
         | [] => ret NotFound
         | contact :: _ =>
             let customFields := custom_fields contact in
             let cardsTrackingField := findField 315 customFields in
             let bookTrackingField := findField 319 customFields in
             ret (Found (Orders.shipped cardsTrackingField)
                    (Orders.shipped bookTrackingField)
                    (Orders.contentOrNull cardsTrackingField)
                    (Orders.contentOrNull bookTrackingField))
         end)
      (fun error => ret (Failure 500 (message error))).

End Fulfillment.

(* ================================================================== *)
(** ** stripe-webhook.js: the event handler *)
Module StripeWebhook.

(** The event [stripe.webhooks.constructEvent] returns: its type and
    the id of [data.object]. *)
Record StripeEvent := mkStripeEvent { ev_type : string; ev_object_id : string }.

Inductive Reply : Type :=
| Failure (statusCode : Z) (error : string)
| Received.

(** [encodeURIComponent(email)] in the search, where [email] may be
    [undefined]. *)
Definition searchKey (email : option string) : string := orElse email "undefined".

(** The contact payload for an email that may be [undefined]:
    [JSON.stringify] then leaves the email out. *)
Definition contactPayloadOf (email : option string) (data : Webhook.OrderInput)
    (customFields : list Field) : ContactPayload :=
  {| p_given_name := Some (Webhook.firstName data);
     p_family_name := Some (Webhook.lastName data);
     p_email := email;
     p_addresses :=
       match nativeAddresses (Webhook.shippingAddress data) with
       | [] => None
       | l => Some l
       end;
     p_opt_in_reason :=
       if Webhook.emailConsent data then Sent "Destiny Cards Purchase" else Omitted;
     p_custom_fields := customFields |}.

(** [integrateWithKeap] as [handleCheckoutComplete] calls it, with the
    email [session.customer_details?.email]. *)
Definition integrateWithKeap (env : Env) (now : JsDate) (email : option string)
    (data : Webhook.OrderInput) : M SyncResult :=
  if negb (truthy (KEAP_ACCESS_TOKEN env))
  then throw (TokenNotConfigured "Keap access token not configured")
  else
    searchResponse <- fetch (SearchContacts (searchKey email) false) ;;
    if negb (ok searchResponse)
    then throw (ContactSearchFailed (status searchResponse))
    else
      let found := contactsOf (body searchResponse) in
      let isReturningCustomer := match found with [] => false | _ => true end in
      let entry := Webhook.thisOrderEntry now data in
      merged <-
        match found with
        | existing :: _ =>
            contactDetailResponse <- fetch (GetContact (id existing)) ;;
            if ok contactDetailResponse then
              let existingCustomFields :=
                match body contactDetailResponse with
                | ContactBody contactDetail => custom_fields contactDetail
                | _ => []
                end in
              ret (Webhook.mergeHistory entry existingCustomFields,
                   Webhook.mergeTotal (Webhook.amountPaid data) existingCustomFields)
            else ret (entry, Webhook.amountPaid data)
        | [] => ret (entry, Webhook.amountPaid data)
        end ;;
      let '(orderHistory, totalSpent) := merged in
      let contactPayload :=
        contactPayloadOf email data
          (Webhook.customFieldsOf now data orderHistory totalSpent) in
      contactId <-
        match found with
        | existing :: _ =>
            updateResponse <- fetch (UpdateContact (id existing) contactPayload) ;;
            if negb (ok updateResponse)
            then throw (ContactUpdateFailed (status updateResponse))
            else ret (id existing)
        | [] =>
            createResponse <- fetch (CreateContact contactPayload) ;;
            if negb (ok createResponse)
            then throw (ContactCreationFailed (status createResponse))
            else ret (contactIdOf (body createResponse))
        end ;;
      forEach (Webhook.tagsOfOrder now isReturningCustomer data)
        (Webhook.applyOneTag contactId) tt ;;;
      ret (mkSyncResult true contactId).

(** [shippingDetails?.address], reshaped for the sync. *)
Definition shippingOf (session : Session) : option ShippingAddress :=
  let shippingDetails :=
    match shipping_details session with
    | Some d => Some d
    | None => collected_shipping_details session
    end in
  match shippingDetails with
  | Some d =>
      match sd_address d with
      | Some shippingAddress =>
          Some (mkShipping (sa_line1 shippingAddress)
                  (orElse (sa_line2 shippingAddress) EmptyString)
                  (sa_city shippingAddress) (sa_state shippingAddress)
                  (sa_postal_code shippingAddress) (sa_country shippingAddress))
      | None => None
      end
  | None => None
  end.

(** The cart read from the metadata; [[]] when it is missing or does
    not parse. *)
Definition cartItemsOf (session : Session) : list CartItem :=
  match metadata session with
  | Some m =>
      match m_cartItems m with
      | CartParsed items => items
      | CartAbsent | CartMalformed => []
      end
  | None => []
  end.

(** [metadata.hasPreOrder === 'true'], read whether the cart parses or
    not. *)
Definition hasPreOrderOf (session : Session) : bool :=
  match metadata session with
  | Some m => match m_hasPreOrder m with Some s => String.eqb s "true" | None => false end
  | None => false
  end.

Definition emailConsentOf (session : Session) : bool :=
  match metadata session with
  | Some m => match m_emailConsent m with Some s => String.eqb s "true" | None => false end
  | None => false
  end.

(** The object [handleCheckoutComplete] passes on.  Its email is kept
    apart, as it may be [undefined]; the record carries the text the
    search is made with. *)
Definition orderInputOf (session : Session) : Webhook.OrderInput :=
  let customerName := orElse (customer_name session) EmptyString in
  let '(firstName, lastName) := splitName customerName in
  Webhook.mkOrderInput firstName lastName (searchKey (customer_email session))
    (emailConsentOf session) (cartItemsOf session) (shippingOf session)
    (payment_intent session) (cents (amount_total session)) (hasPreOrderOf session).

(** [handleCheckoutComplete]: the session is retrieved again, and a
    failure of the Keap integration is logged, not thrown. *)
Definition handleCheckoutComplete (env : Env) (stripe : StripeApi) (now : JsDate)
    (sessionFromWebhookId : string) : M unit :=
  if negb (truthy (STRIPE_SECRET_KEY env))
  then throw (TokenNotConfigured "STRIPE_SECRET_KEY not configured")
  else
    session <- liftRes (retrieve stripe sessionFromWebhookId) ;;
    tryCatch
      (integrateWithKeap env now (customer_email session) (orderInputOf session) ;;;
       ret tt)
      (fun keapError => ret tt).

(** [exports.handler]; the event body is what [constructEvent] makes of
    the raw body, the signature header and the webhook secret. *)
Definition handler (env : Env) (stripe : StripeApi) (now : JsDate)
    (event : Event (Res StripeEvent)) : M Reply :=
  if negb (String.eqb (httpMethod event) "POST")
  then ret (Failure 405 "Method not allowed")
  else
    match (if negb (truthy (STRIPE_SECRET_KEY env))
           then Throw (TokenNotConfigured "STRIPE_SECRET_KEY not configured")
           else ebody event) with
    | Throw err => ret (Failure 400 ("Webhook Error: " ++ message err))
    | Ok stripeEvent =>
        tryCatch
          ((if String.eqb (ev_type stripeEvent) "checkout.session.completed"
            then handleCheckoutComplete env stripe now (ev_object_id stripeEvent)
            else if String.eqb (ev_type stripeEvent)
                      "checkout.session.async_payment_succeeded"
            then handleCheckoutComplete env stripe now (ev_object_id stripeEvent)
            else if String.eqb (ev_type stripeEvent)
                      "checkout.session.async_payment_failed"
            then ret tt
            else ret tt) ;;;
           ret Received)
          (fun error => ret (Failure 500 "Webhook handler failed"))
    end.

End StripeWebhook.

(* ================================================================== *)
(** ** get-orders.js: the two handlers *)

(** The order list.  [GetOrders] is the handler that asks Keap for the
    fulfilment of each order; [GetOrdersPending] is the handler that
    leaves the fulfilment to be checked separately.  Both take the
    answer of [stripe.checkout.sessions.list] as [listed]. *)
Module GetOrders.

Record Order := mkOrder {
  ord_id : string;
  ord_paymentIntentId : option string;
  ord_created : JsDate;
  ord_customerName : string;
  ord_customerEmail : string;
  ord_shipping : option ShippingDetails;
  ord_items : list CartItem;
  ord_orderSummary : string;
  ord_amountTotal : Dec;
  ord_hasPreOrder : bool;
  ord_fulfillment : Orders.Fulfillment
}.

Record Summary := mkSummary {
  sum_total : nat;
  sum_pending : nat;
  sum_partial : nat;
  sum_fulfilled : nat
}.

Inductive Reply : Type :=
| Preflight
| Failure (statusCode : Z) (error : string) (detail : option string)
| Listing (orders : list Order) (count : nat) (summary : Summary).

(** [x || 'Unknown']. *)
Definition orUnknown (x : option string) : string :=
  match x with
  | Some s => if nonEmpty s then s else "Unknown"
  | None => "Unknown"
  end.

(** [cartItems.map(...).join(', ') || 'Unknown items']. *)
Definition orderSummaryOf (cartItems : list CartItem) : string :=
  let s := join ", " (map (fun item => showZ (quantity item) ++ "x " ++ productName item)
                        cartItems) in
  if nonEmpty s then s else "Unknown items".

(** The order object pushed for a listed session and its full session. *)
Definition orderOf (session fullSession : Session) (cartItems : list CartItem)
    (hasPreOrder : bool) (fulfillment : Orders.Fulfillment) : Order :=
  mkOrder (s_id session) (payment_intent session) (created session)
    (orUnknown (customer_name fullSession)) (orUnknown (customer_email fullSession))
    (shipping_details fullSession) cartItems (orderSummaryOf cartItems)
    (cents (amount_total session)) hasPreOrder fulfillment.

Definition countStatus (st : string) (orders : list Order) : nat :=
  List.length (filter (fun o => String.eqb (Orders.f_status (ord_fulfillment o)) st) orders).

Definition summaryOf (orders : list Order) : Summary :=
  mkSummary (List.length orders) (countStatus "pending" orders)
    (countStatus "partial" orders) (countStatus "fulfilled" orders).

(** One round of the loop over [sessions.data]: a failure to retrieve
    the session is thrown, a failure of the Keap lookup is not. *)
Definition pushOrder (env : Env) (stripe : StripeApi) (session : Session)
    (orders : list Order) : M (list Order) :=
  fullSession <- liftRes (retrieve stripe (s_id session)) ;;
  let '(cartItems, hasPreOrder) := Backfill.cartOf session in
  fulfillment <- Orders.fulfillmentOf env (customer_email fullSession) hasPreOrder ;;
  ret (orders ++ [orderOf session fullSession cartItems hasPreOrder fulfillment])%list.

(** [exports.handler]. *)
Definition handler (env : Env) (listed : Res (list Session)) (stripe : StripeApi)
    (event : Event unit) : M Reply :=
  if String.eqb (httpMethod event) "OPTIONS" then ret Preflight
  else if negb (String.eqb (httpMethod event) "GET")
  then ret (Failure 405 "Method not allowed" None)
  else if unauthorized env (authorization event)
  then ret (Failure 401 "Unauthorized" None)
  else
    tryCatch
      (if negb (truthy (STRIPE_SECRET_KEY env))
       then throw (TokenNotConfigured "STRIPE_SECRET_KEY not configured")
       else
         sessions <- liftRes listed ;;
         orders <- forEach sessions (pushOrder env stripe) [] ;;
         ret (Listing orders (List.length orders) (summaryOf orders)))
      (fun error => ret (Failure 500 "Failed to fetch orders" (Some (message error)))).

End GetOrders.

Module GetOrdersPending.

(** The fulfilment every order is listed with: the flags are
    initialised and never set. *)
Definition initialFulfillment (hasPreOrder : bool) : Orders.Fulfillment :=
  let cardsShipped := false in
  let bookShipped := false in
  Orders.mkFulfillment (Orders.fulfillmentStatus hasPreOrder cardsShipped bookShipped)
    cardsShipped bookShipped None None.

(** One round of the loop: an error in it is logged and the loop goes
    on with the next session. *)
Definition pushOrder (stripe : StripeApi) (session : Session)
    (orders : list GetOrders.Order) : M (list GetOrders.Order) :=
  tryCatch
    (fullSession <- liftRes (retrieve stripe (s_id session)) ;;
     let '(cartItems, hasPreOrder) := Backfill.cartOf session in
     ret (orders
            ++ [GetOrders.orderOf session fullSession cartItems hasPreOrder
                  (initialFulfillment hasPreOrder)])%list)
    (fun sessionError => ret orders).

(** [exports.handler]. *)
Definition handler (env : Env) (listed : Res (list Session)) (stripe : StripeApi)
    (event : Event unit) : M GetOrders.Reply :=
  if String.eqb (httpMethod event) "OPTIONS" then ret GetOrders.Preflight
  else if negb (String.eqb (httpMethod event) "GET")
  then ret (GetOrders.Failure 405 "Method not allowed" None)
  else if negb (truthy (ADMIN_API_KEY env))
  then ret (GetOrders.Failure 401 "Server configuration error: ADMIN_API_KEY not set" None)
  else if negb (match authorization event with
                | Some h => String.eqb h ("Bearer " ++ orElse (ADMIN_API_KEY env) EmptyString)
                | None => false
                end)
  then ret (GetOrders.Failure 401 "Invalid API key" None)
  else
    tryCatch
      (if negb (truthy (STRIPE_SECRET_KEY env))
       then throw (TokenNotConfigured "STRIPE_SECRET_KEY not configured")
       else
         sessions <- liftRes listed ;;
         orders <- forEach sessions (pushOrder stripe) [] ;;
         ret (GetOrders.Listing orders (List.length orders) (GetOrders.summaryOf orders)))
      (fun error =>
         ret (GetOrders.Failure 500 "Failed to fetch orders" (Some (message error)))).

End GetOrdersPending.

(* ================================================================== *)
(** ** get-inventory.js *)
Module Inventory.

Definition TOTAL_INVENTORY : Z := 75.

(** A listed session as far as the count reads it: the id, what
    [JSON.parse] makes of [metadata?.cartItems], and the quantities at
    [line_items?.data], [None] where a quantity is missing. *)
Record ListedSession := mkListed {
  l_id : string;
  l_cartItems : CartJson;
  l_line_items : option (list (option Z))
}.

(** One answer of [stripe.checkout.sessions.list]. *)
Record Page := mkPage { data : list ListedSession; has_more : bool }.

Inductive Reply : Type :=
| Preflight
| Failure (statusCode : Z) (error : string)
| Levels (total sold remaining percentSold : Z).

(** What one session adds to [totalCardsSold]: the quantities of the
    cart, or those of the line items when the cart does not parse. *)
Definition soldIn (session : ListedSession) : Z :=
  match l_cartItems session with
  | CartParsed cartItems => fold_left (fun total item => total + quantity item) cartItems 0
  | CartAbsent => 0
  | CartMalformed =>
      match l_line_items session with
      | Some lineItems =>
          fold_left (fun total lineItem => total + orElse lineItem 0) lineItems 0
      | None => 0
      end
  end.

(** [params.starting_after], set when [startingAfter] is truthy. *)
Definition cursorOf (startingAfter : option string) : option string :=
  match startingAfter with
  | Some i => if nonEmpty i then Some i else None
  | None => None
  end.

(** The [while (hasMore)] loop.  It runs as long as Stripe reports more
    pages, so its rounds are counted down on [fuel]; [None] is a loop
    still running when the fuel is spent. *)
Fixpoint countSold (fuel : nat) (list_ : option string -> Res Page)
    (startingAfter : option string) (totalCardsSold : Z) : option (Res Z) :=
  match fuel with
  | O => None
  | S fuel' =>
      match list_ (cursorOf startingAfter) with
      | Throw e => Some (Throw e)
      | Ok sessions =>
          let totalCardsSold' :=
            fold_left (fun total session => total + soldIn session) (data sessions)
              totalCardsSold in
          match data sessions with
          | [] => Some (Ok totalCardsSold')
          | first :: _ =>
              if has_more sessions
              then countSold fuel' list_ (Some (l_id (last (data sessions) first)))
                     totalCardsSold'
              else Some (Ok totalCardsSold')
          end
      end
  end.

(** [Math.round(n / d)] for a positive [d]: halves round up. *)
Definition roundDiv (n d : Z) : Z := (2 * n + d) / (2 * d).

(** The body of the 200 reply.  The quotient [sold / 75 * 100] is taken
    exactly: its fractional part is 0, 1/3 or 2/3, never near a half. *)
Definition levelsOf (totalCardsSold : Z) : Reply :=
  let remaining := Z.max 0 (TOTAL_INVENTORY - totalCardsSold) in
  Levels TOTAL_INVENTORY totalCardsSold remaining
    (roundDiv (totalCardsSold * 100) TOTAL_INVENTORY).

(** [exports.handler]. *)
Definition handler (env : Env) (fuel : nat) (list_ : option string -> Res Page)
    (event : Event unit) : option Reply :=
  if String.eqb (httpMethod event) "OPTIONS" then Some Preflight
  else if negb (String.eqb (httpMethod event) "GET")
  then Some (Failure 405 "Method not allowed")
  else if negb (truthy (STRIPE_SECRET_KEY env))
  then Some (Failure 500 "Failed to check inventory")
  else
    match countSold fuel list_ None 0 with
    | None => None
    | Some (Ok totalCardsSold) => Some (levelsOf totalCardsSold)
    | Some (Throw error) => Some (Failure 500 "Failed to check inventory")
    end.

End Inventory.

(* ================================================================== *)
(** ** process-destiny-cards-payment.js *)
Module LegacyPayment.

Record CustomerData := mkCustomerData {
  firstName : string;
  lastName : string;
  c_email : string;
  emailConsent : bool;
  product : string;
  productName : string;
  productPrice : Z;
  shippingAddress : ShippingAddress
}.

(** The parsed request body. *)
Record PaymentRequest := mkPaymentRequest {
  paymentMethodId : string;
  amount : Z;
  customerData : CustomerData
}.

(** What [stripe.paymentIntents.create] returns. *)
Record PaymentIntent := mkPaymentIntent {
  pi_id : string;
  pi_status : string;
  last_payment_error : option string
}.

(** The object [integrateWithKeap] returns. *)
Record KeapResult := mkKeapResult {
  k_success : bool;
  k_message : string;
  k_contactId : option Z;
  k_tagsCreated : option nat;
  k_error : option string
}.

Inductive Reply : Type :=
| MethodNotAllowed
| Confirmed (paymentId : string) (contactId : option Z)
| RegistrationFailed (paymentId : string) (error : string)
| PaymentFailed (error : string)
| ProcessingError (error : string).

(** The HTTP status of a reply. *)
Definition statusCode (r : Reply) : Z :=
  match r with
  | MethodNotAllowed => 405
  | Confirmed _ _ => 200
  | RegistrationFailed _ _ => 500
  | PaymentFailed _ => 400
  | ProcessingError _ => 500
  end.

(** Custom field ids of this handler's CUSTOM_FIELDS table. *)
Definition PRODUCT_ORDERED : Z := 291.
Definition PRODUCT_NAME : Z := 293.
Definition PRODUCT_PRICE : Z := 295.
Definition SHIPPING_ADDRESS : Z := 297.
Definition PAYMENT_ID : Z := 299.
Definition ORDER_DATE : Z := 301.

(** [s.slice(-n)]. *)
Definition sliceLast (n : nat) (s : string) : string :=
  substring (String.length s - n) n s.

Definition customFieldsOf (now : JsDate) (data : CustomerData) (paymentId : string)
  : list Field :=
  [ mkField PRODUCT_ORDERED (Some (product data));
    mkField PRODUCT_NAME (Some (productName data));
    mkField PRODUCT_PRICE (Some (showZ (productPrice data)));
    mkField SHIPPING_ADDRESS (Some (formatShipping (Some (shippingAddress data))));
    mkField PAYMENT_ID (Some paymentId);
    mkField ORDER_DATE (Some (iso_day now)) ].

(** [updatePayload] and [createPayload], which are the same object. *)
Definition contactPayloadOf (now : JsDate) (data : CustomerData) (paymentId : string)
  : ContactPayload :=
  {| p_given_name := Some (firstName data);
     p_family_name := Some (lastName data);
     p_email := Some (c_email data);
     p_addresses := None;
     p_opt_in_reason :=
       if emailConsent data then Sent "Destiny Cards Purchase" else Null;
     p_custom_fields := customFieldsOf now data paymentId |}.

(** [createOrUpdateContact], returning [contact.id]. *)
Definition createOrUpdateContact (now : JsDate) (data : CustomerData) (paymentId : string)
  : M Z :=
  searchResponse <- fetch (SearchContacts (c_email data) false) ;;
  if negb (ok searchResponse)
  then throw (OtherError ("Failed to search for contact: "
                            ++ showZ (status searchResponse)))
  else
    match contactsOf (body searchResponse) with
    | existing :: _ =>
        let contactId := id existing in
        updateResponse <- fetch (UpdateContact contactId
                                   (contactPayloadOf now data paymentId)) ;;
        if negb (ok updateResponse)
        then throw (OtherError ("Failed to update contact: "
                                  ++ showZ (status updateResponse)))
        else ret contactId
    | [] =>
        createResponse <- fetch (CreateContact (contactPayloadOf now data paymentId)) ;;
        if negb (ok createResponse)
        then throw (OtherError ("Failed to create contact: "
                                  ++ showZ (status createResponse)))
        else ret (contactIdOf (body createResponse))
    end.

(** [createTag], returning the id of the tag found or created. *)
Definition createTag (tagName : string) : M Z :=
  searchResponse <- fetch (SearchTags tagName) ;;
  if negb (ok searchResponse)
  then throw (OtherError ("Failed to search for tag " ++ dquote ++ tagName ++ dquote
                            ++ ": " ++ showZ (status searchResponse)))
  else
    match tagsOf (body searchResponse) with
    | t :: _ => ret (tag_id t)
    | [] =>
        createResponse <- fetch (CreateTag tagName) ;;
        if negb (ok createResponse)
        then throw (OtherError ("Failed to create tag " ++ dquote ++ tagName ++ dquote
                                  ++ ": " ++ showZ (status createResponse)))
        else ret (tagIdOf (body createResponse))
    end.

(** [createOrderTags]: five tags, one after the other; nothing catches a
    failure here. *)
Definition createOrderTags (now : JsDate) (product paymentId : string) : M (list Z) :=
  mainTag <- createTag "Destiny Cards - Order Received" ;;
  let productTagName :=
    if String.eqb product "cards-only"
    then "Destiny Cards - Cards Only"
    else "Destiny Cards - Cards + Book" in
  productTag <- createTag productTagName ;;
  paymentTag <- createTag ("DC Payment - " ++ sliceLast 8 paymentId) ;;
  dateTag <- createTag ("Destiny Cards - " ++ month_year now) ;;
  editionTag <- createTag "Destiny Cards - 1st Edition" ;;
  ret [mainTag; productTag; paymentTag; dateTag; editionTag].

(** [applyTagsToContact]: the first failure is logged and thrown on. *)
Definition applyTagsToContact (contactId : Z) (tagIds : list Z) : M unit :=
  forEach tagIds
    (fun tagId _ =>
       tryCatch
         (response <- fetch (ApplyTag contactId tagId) ;;
          if negb (ok response)
          then throw (OtherError ("Failed to apply tag " ++ showZ tagId ++ ": "
                                    ++ showZ (status response)))
          else ret tt)
         (fun error => throw error))
    tt.

(** [integrateWithKeap]: every error ends in a result with
    [success: false]. *)
Definition integrateWithKeap (env : Env) (now : JsDate) (data : CustomerData)
    (paymentId : string) : M KeapResult :=
  tryCatch
    (match KEAP_ACCESS_TOKEN env with
     | None => throw (TokenNotConfigured "Keap Personal Access Token not configured")
     | Some accessToken =>
         if negb (nonEmpty accessToken)
         then throw (TokenNotConfigured "Keap Personal Access Token not configured")
         else if negb (String.prefix "KeapAK-" accessToken)
         then throw (OtherError
                "Keap token appears to be malformed - should start with KeapAK-")
         else
           contactId <- createOrUpdateContact now data paymentId ;;
           tagIds <- createOrderTags now (product data) paymentId ;;
           applyTagsToContact contactId tagIds ;;;
           ret (mkKeapResult true "Contact created and order processed successfully"
                  (Some contactId) (Some (List.length tagIds)) None)
     end)
    (fun error =>
       ret (mkKeapResult false "Failed to process Keap integration" None None
              (Some (message error)))).

(** [exports.handler]; [createIntent] is [stripe.paymentIntents.create]
    on the request, and the event body is [None] when it does not
    parse. *)
Definition handler (env : Env) (now : JsDate)
    (createIntent : PaymentRequest -> Res PaymentIntent)
    (event : Event (option PaymentRequest)) : M Reply :=
  if negb (String.eqb (httpMethod event) "POST") then ret MethodNotAllowed
  else
    tryCatch
      (match ebody event with
       | None => throw (OtherError "Unexpected token in JSON")
       | Some request =>
           paymentIntent <- liftRes (createIntent request) ;;
           if String.eqb (pi_status paymentIntent) "succeeded" then
             tryCatch
               (keapResult <- integrateWithKeap env now (customerData request)
                                (pi_id paymentIntent) ;;
                if k_success keapResult
                then ret (Confirmed (pi_id paymentIntent) (k_contactId keapResult))
                else throw (OtherError
                       (if nonEmpty (k_message keapResult)
                        then k_message keapResult
                        else "Keap integration failed")))
               (fun keapError =>
                  ret (RegistrationFailed (pi_id paymentIntent) (message keapError)))
           else
             ret (PaymentFailed
                    (match last_payment_error paymentIntent with
                     | Some m => if nonEmpty m then m else "Unknown error"
                     | None => "Unknown error"
                     end))
       end)
      (fun error => ret (ProcessingError (message error))).

End LegacyPayment.

(* ================================================================== *)
(** ** create-checkout-session.js *)
Module Checkout.

Record Product := mkProduct {
  name : string;
  description : string;
  price : Z;
  shipsNow : bool;
  splitShipment : option bool
}.

(** What [PRODUCTS[productId]] evaluates to: a product of the table, a
    member inherited from [Object.prototype], or [undefined]. *)
Inductive Lookup : Type :=
| Own (product : Product)
| Inherited
| Absent.

Definition inheritedKeys : list string :=
  [ "constructor"; "__proto__"; "hasOwnProperty"; "isPrototypeOf";
    "propertyIsEnumerable"; "toLocaleString"; "toString"; "valueOf";
    "__defineGetter__"; "__defineSetter__"; "__lookupGetter__"; "__lookupSetter__" ].

Definition PRODUCTS (productId : string) : Lookup :=
  if String.eqb productId "cards-only" then
    Own (mkProduct "Destiny Cards - 1st Edition"
           "Complete 1st Edition Destiny Cards deck with 25+ Functional Philosophy cards, 10+ Resourceful State cards, and quick-start guide."
           2000 true None)
  else if String.eqb productId "cards-book-bundle" then
    Own (mkProduct "Destiny Cards + Rules To Live By Pre-Order Bundle"
           ("Destiny Cards deck (ships now) + " ++ dquote
              ++ "Rules To Live By (But Not Believe)" ++ dquote
              ++ " book pre-order (ships March 2025). Items ship separately.")
           6000 false (Some true))
  else if existsb (String.eqb productId) inheritedKeys then Inherited
  else Absent.

Record RateSpec := mkRateSpec {
  rs_display_name : string;
  rs_amount : Z;
  rs_min_days : Z;
  rs_max_days : Z
}.

Definition us_standard : RateSpec := mkRateSpec "Standard Shipping (US)" 500 5 7.
Definition us_express : RateSpec := mkRateSpec "Express Shipping (US)" 1200 2 3.
Definition international : RateSpec := mkRateSpec "International Shipping" 1500 10 21.

Record ShippingRate := mkShippingRate { rate_id : string; display_name : string }.

(** One entry of [line_items]. *)
Record LineItem := mkLineItem {
  li_name : string;
  li_description : string;
  li_productId : string;
  li_shipsNow : string;
  li_splitShipment : string;
  unit_amount : Z;
  li_quantity : Z
}.

(** The parameters of [stripe.checkout.sessions.create] that depend on
    the request; the constant ones are left out. *)
Record SessionParams := mkSessionParams {
  line_items : list LineItem;
  shipping_options : list string;
  sp_customer_email : JsVal;
  shipping_message : string;
  sp_metadata : Metadata
}.

Record CheckoutSession := mkCheckoutSession { client_secret : string; cs_id : string }.

(** The calls made on the Stripe client.  Each rate is created at most
    once in a request, so what a creation answers is a function of its
    specification. *)
Record StripeClient := mkStripeClient {
  listRates : Res (list ShippingRate);
  createRate : RateSpec -> Res ShippingRate;
  createSession : SessionParams -> Res CheckoutSession
}.

(** The three properties the handler reads off the parsed body; the
    cart is [None] where the body has none. *)
Record CheckoutRequest := mkCheckoutRequest {
  cartItems : option (list CartItem);
  customerEmail : JsVal;
  emailConsent : JsVal
}.

Inductive Reply : Type :=
| Preflight
| Failure (statusCode : Z) (error : string) (detail : option string)
| Created (clientSecret sessionId : string).

(** [b.toString()] on a boolean. *)
Definition boolToString (b : bool) : string := if b then "true" else "false".

(** [v.toString()] on a value that is neither [undefined] nor [null]:
    the text of the value, or the TypeError of a value that has none. *)
Definition toString (v : JsVal) : Res string :=
  match jsString v with
  | Some s => Ok s
  | None =>
      Throw (OtherError
               match v with
               | JObj _ => "(emailConsent || false).toString is not a function"
               | _ => "Cannot convert object to primitive value"
               end)
  end.

(** The callback of [cartItems.map]. *)
Definition lineItemOf (item : CartItem) : Res LineItem :=
  match PRODUCTS (productId item) with
  | Absent => Throw (OtherError ("Unknown product: " ++ productId item))
  | Inherited =>
      Throw (OtherError "Cannot read properties of undefined (reading 'toString')")
  | Own product =>
      Ok (mkLineItem (name product) (description product) (productId item)
            (boolToString (shipsNow product))
            (boolToString (orElse (splitShipment product) false))
            (price product) (quantity item))
  end.

Fixpoint lineItemsOf (cartItems : list CartItem) : Res (list LineItem) :=
  match cartItems with
  | [] => Ok []
  | item :: rest =>
      match lineItemOf item with
      | Throw e => Throw e
      | Ok lineItem =>
          match lineItemsOf rest with
          | Throw e => Throw e
          | Ok lineItems => Ok (lineItem :: lineItems)
          end
      end
  end.

(** [cartItems.some(item => PRODUCTS[item.productId]?.splitShipment)]. *)
Definition hasPreOrderOf (cartItems : list CartItem) : bool :=
  existsb (fun item =>
             match PRODUCTS (productId item) with
             | Own product => orElse (splitShipment product) false
             | Inherited | Absent => false
             end) cartItems.

(** The rate of that display name among the existing ones, or a new
    one. *)
Definition rateFor (stripe : StripeClient) (existingRates : list ShippingRate)
    (spec : RateSpec) : Res string :=
  match find (fun r => String.eqb (display_name r) (rs_display_name spec)) existingRates with
  | Some existing => Ok (rate_id existing)
  | None =>
      match createRate stripe spec with
      | Ok newRate => Ok (rate_id newRate)
      | Throw e => Throw e
      end
  end.

(** [getOrCreateShippingRates]: any error gives the empty array. *)
Definition getOrCreateShippingRates (stripe : StripeClient) : list string :=
  match listRates stripe with
  | Throw _ => []
  | Ok existingRates =>
      match rateFor stripe existingRates us_standard with
      | Throw _ => []
      | Ok usStandard =>
          match rateFor stripe existingRates us_express with
          | Throw _ => []
          | Ok usExpress =>
              match rateFor stripe existingRates international with
              | Throw _ => []
              | Ok intl => [usStandard; usExpress; intl]
              end
          end
      end
  end.

(** The [metadata] of the session; the cart is what [JSON.parse] gives
    back from [JSON.stringify(cartItems)].  Taking the text of the
    consent value can throw. *)
Definition metadataOf (cartItems : list CartItem) (emailConsent : JsVal) : Res Metadata :=
  match toString (jsOr emailConsent (JBool false)) with
  | Throw e => Throw e
  | Ok consent =>
      Ok (mkMetadata (CartParsed cartItems)
            (Some (boolToString (hasPreOrderOf cartItems)))
            (Some consent))
  end.

(** The argument of [stripe.checkout.sessions.create]. *)
Definition sessionParamsOf (lineItems : list LineItem) (shippingOptions : list string)
    (request : CheckoutRequest) (cart : list CartItem) : Res SessionParams :=
  let hasPreOrder := hasPreOrderOf cart in
  match metadataOf cart (emailConsent request) with
  | Throw e => Throw e
  | Ok sessionMetadata =>
      Ok (mkSessionParams lineItems shippingOptions
            (jsOr (customerEmail request) JUndefined)
            (if hasPreOrder
             then "Note: Your Destiny Cards will ship immediately. The book pre-order will ship separately in March 2025."
             else "Your Destiny Cards will ship within 3-5 business days.")
            sessionMetadata)
  end.

(** [exports.handler]; the event body is [None] when [JSON.parse]
    throws on it or gives [null], which cannot be destructured. *)
Definition handler (env : Env) (stripe : StripeClient)
    (event : Event (option CheckoutRequest)) : Reply :=
  if String.eqb (httpMethod event) "OPTIONS" then Preflight
  else if negb (String.eqb (httpMethod event) "POST")
  then Failure 405 "Method not allowed" None
  else
    let failed (error : Error) :=
      Failure 500 "Failed to create checkout session" (Some (message error)) in
    if negb (truthy (STRIPE_SECRET_KEY env))
    then failed (TokenNotConfigured
           "STRIPE_SECRET_KEY environment variable is not set. Please add it in Netlify Dashboard → Site Settings → Environment Variables")
    else
      match ebody event with
      | None => failed (OtherError "Unexpected token in JSON")
      | Some request =>
          match cartItems request with
          | None | Some [] => Failure 400 "Cart is empty" None
          | Some cart =>
              match lineItemsOf cart with
              | Throw error => failed error
              | Ok lineItems =>
                  let shippingOptions := getOrCreateShippingRates stripe in
                  match sessionParamsOf lineItems shippingOptions request cart with
                  | Throw error => failed error
                  | Ok params =>
                      match createSession stripe params with
                      | Throw error => failed error
                      | Ok session => Created (client_secret session) (cs_id session)
                      end
                  end
              end
          end
      end.

End Checkout.

(* ================================================================== *)
(** * Vocabulary of the properties *)

Unset Implicit Arguments.

(** The custom field [i] of a contact is filled in: the first custom
    field with that id carries a string that is not empty. *)
Definition fieldFilled (i : Z) (customFields : list Field) : Prop :=
  exists f s, findField i customFields = Some f /\ content f = Some s /\ s <> EmptyString.

(** [preserves R m]: running [m] takes every world to an [R]-related one,
    whether [m] returns or throws. *)
Definition preserves (R : World -> World -> Prop) {A} (m : M A) : Prop :=
  forall w, R w (snd (m w)).

(** The store is the same and no write request was added to the log. *)
Definition sameStore (w w' : World) : Prop :=
  crm w' = crm w /\ writes (trace w') = writes (trace w).


(** The contact lookup gets its answer: after any number of 429s the
    provider answers with a success status. *)
Fixpoint lookupAnswered (p : list Z) : bool :=
  match p with
  | [] => true
  | s :: r =>
      if ok (mkResponse s NoBody) then true
      else if s =? 429 then lookupAnswered r
      else false
  end.

(** The contact the provider answers a search for [e] with. *)
Definition firstMatch (e : string) (s : Crm) : option Contact :=
  hd_error (filter (fun c => String.eqb (email c) e) (contacts s)).

(** The search is answered at once with a success status. *)
Definition answeredNow (p : list Z) : bool :=
  match p with
  | [] => true
  | s :: _ => ok (mkResponse s NoBody)
  end.

(** The custom field [i] of the contact [k] in the store. *)
Definition fieldOf (s : Crm) (k i : Z) : option Field :=
  match findContactById k (contacts s) with
  | Some c => findField i (custom_fields c)
  | None => None
  end.

(** Requests that create or update a contact. *)
Definition isContactWrite (r : Request) : bool :=
  match r with
  | CreateContact _ | UpdateContact _ _ => true
  | _ => false
  end.

(** The id and email of a contact. *)
Definition keyOf (c : Contact) : Z * string := (id c, email c).

(** No custom field of any contact changed, the contacts are the same
    ones under the same emails, the log grew by requests that are not
    contact writes, and a provider that had no failure pending has none
    pending now. *)
Definition fieldsKept (w w' : World) : Prop :=
  (forall k i, fieldOf (crm w') k i = fieldOf (crm w) k i)
  /\ (exists tr, trace w' = (trace w ++ tr)%list /\ filter isContactWrite tr = [])
  /\ map keyOf (contacts (crm w')) = map keyOf (contacts (crm w))
  /\ (pending w = [] -> pending w' = []).

(** What a successful tracking update for the leg with tracking field
    [t] and shipped-date field [d] amounts to: one contact write, the
    PATCH of [cid] with exactly those two fields; afterwards the contact
    carries them, and every other custom field of every contact is what
    it was. *)
Definition writesOnlyLeg (w w' : World) (cid t d : Z) (trackingNumber today : string)
  : Prop :=
  (exists tr,
      trace w' = (trace w ++ tr)%list
      /\ filter isContactWrite tr
         = [UpdateContact cid
              (mkPayload None None None None Omitted
                 [mkField t (Some trackingNumber); mkField d (Some today)])])
  /\ fieldOf (crm w') cid t = Some (mkField t (Some trackingNumber))
  /\ fieldOf (crm w') cid d = Some (mkField d (Some today))
  /\ (forall k i, k <> cid \/ (i <> t /\ i <> d) ->
                  fieldOf (crm w') k i = fieldOf (crm w) k i).

(** A run ends in an error that carries the HTTP status [st]. *)
Definition failsWithStatus {A} (st : Z) (run : Res A * World) : Prop :=
  exists err, fst run = Throw err /\ errorStatus err = Some st.

(** No tag of that name is in the store. *)
Definition noTagNamed (name : string) (s : Crm) : Prop :=
  filter (fun t => String.eqb (tag_name t) name) (tags s) = [].

(** The names of the tags attached to contact [k]. *)
Definition tagNames (s : Crm) (k : Z) : list string :=
  match findContactById k (contacts s) with
  | Some c =>
      flat_map (fun t => map tag_name (filter (fun g => tag_id g =? t) (tags s)))
        (tag_ids c)
  | None => []
  end.

(** The content of custom field [i] of contact [k]. *)
Definition contentOf (s : Crm) (k i : Z) : option string :=
  match fieldOf s k i with
  | Some f => content f
  | None => None
  end.

(** [history.split(sep)]: [cur] is the piece being read and [skip] counts
    the characters of a separator still to pass over. *)
Fixpoint splitFrom (sep s cur : string) (skip : nat) : list string :=
  match s with
  | EmptyString => [cur]
  | String c s' =>
      match skip with
      | S k => splitFrom sep s' cur k
      | O =>
          if String.prefix sep s
          then cur :: splitFrom sep s' EmptyString (String.length sep - 1)
          else splitFrom sep s' (cur ++ String c EmptyString) 0
      end
  end.

(** The entries of an order history. *)
Definition entriesOf (history : string) : list string :=
  splitFrom historySeparator history EmptyString 0.

(** Payment ids, [null] included, can be told apart. *)
Definition optionStringDec (a b : option string) : {a = b} + {a <> b}.
Proof. decide equality. apply string_dec. Defined.

(** The distinct payment ids among the orders synced. *)
Definition distinctPaymentIds (orders : list Webhook.OrderInput) : list (option string) :=
  nodup optionStringDec (map Webhook.paymentId orders).

(** A customer who orders the deck in January and the bundle in
    February, and the sessions Stripe holds for the second order. *)
Module Sample.

Definition env : Env := mkEnv (Some "admin-key") (Some "KeapAK-1") (Some "sk_test_1").
Definition jan : JsDate := mkDate "Jan 5, 2026" "2026-01-05" "January 2026".
Definition feb : JsDate := mkDate "Feb 9, 2026" "2026-02-09" "February 2026".
Definition deck : CartItem := mkItem "cards-only" "Destiny Cards" 20 1.
Definition bundle : CartItem := mkItem "cards-book-bundle" "Destiny Cards + Book" 60 1.

Definition firstOrder : Webhook.OrderInput :=
  Webhook.mkOrderInput "Ada" "Lovelace" "a@example.com" false [deck] None
    (Some "pi_1") (cents 2000) false.
Definition secondOrder : Webhook.OrderInput :=
  Webhook.mkOrderInput "Ada" "Lovelace" "a@example.com" false [bundle] None
    (Some "pi_2") (cents 6000) true.

(** An empty CRM that answers every request. *)
Definition fresh : World := mkWorld (mkCrm [] [] 1) [] [].

(** The CRM after the webhook has synced the first order. *)
Definition afterFirst : World :=
  snd (Webhook.integrateWithKeap env jan firstOrder fresh).

(** The same CRM, about to answer one request with a 500. *)
Definition flaky : World := mkWorld (crm afterFirst) [500] [].

(** A CRM that knows the customer, without any order data. *)
Definition subscriber : World :=
  mkWorld (mkCrm [mkContact 1 "Ada" "Lovelace" "a@example.com" [] None [] []] [] 2)
    [] [].

(** The customer with one order on record, and a CRM that knows them
    and answers the next request with a 429. *)
Definition customer : Contact :=
  mkContact 1 "Ada" "Lovelace" "a@example.com" [] None [mkField 311 (Some "pi_1")] [].

Definition throttled : World := mkWorld (mkCrm [customer] [] 2) [429] [].

Definition backfillOrder : Backfill.OrderData :=
  Backfill.mkOrderData "cs_2" "a@example.com" "Ada Lovelace" None [bundle] true
    (cents 6000) (Some "pi_2") feb.

Definition session2 : Session :=
  mkSession "cs_2" None None (Some "a@example.com") (Some "Ada Lovelace")
    (Some (mkMetadata (CartParsed [bundle]) (Some "true") (Some "false")))
    6000 (Some "pi_2") feb.

Definition stripe : StripeApi :=
  mkStripe (fun _ => Ok ["cs_2"])
    (fun i => if String.eqb i "cs_2" then Ok session2
              else Throw (OtherError "No such checkout.session")).

Definition liveRun : Event (option Backfill.Options) :=
  mkEvent "POST" (Some "Bearer admin-key")
    (Some (Backfill.mkOptions (JBool false) JUndefined)).

Definition defaultRun : Event (option Backfill.Options) :=
  mkEvent "POST" (Some "Bearer admin-key")
    (Some (Backfill.mkOptions JUndefined JUndefined)).

End Sample.

(** The id of the contact a search for [e] answers with first. *)
Definition firstMatchId (e : string) (s : Crm) : option Z :=
  option_map id (firstMatch e s).

(** The provider has no failure pending, a search for [e] answers with
    contact [cid] first, and that contact has history [h] and total
    spent [t] on record. *)
Definition onRecord (e : string) (cid : Z) (h t : string) (w : World) : Prop :=
  pending w = []
  /\ firstMatchId e (crm w) = Some cid
  /\ contentOf (crm w) cid ORDER_HISTORY = Some h
  /\ contentOf (crm w) cid TOTAL_SPENT = Some t.

(** The webhook syncs the orders one after the other, each at its time. *)
Fixpoint syncAll (env : Env) (orders : list (JsDate * Webhook.OrderInput)) (w : World)
  : World :=
  match orders with
  | [] => w
  | (now, data) :: rest =>
      syncAll env rest (snd (Webhook.integrateWithKeap env now data w))
  end.

(** The history entry of an order synced at a given time. *)
Definition entryOf (o : JsDate * Webhook.OrderInput) : string :=
  Webhook.thisOrderEntry (fst o) (snd o).

(** The total on record after the orders, from [t] on record before. *)
Fixpoint totalAfter (t : string) (orders : list (JsDate * Webhook.OrderInput)) : string :=
  match orders with
  | [] => t
  | (_, data) :: rest =>
      totalAfter (toFixed2 (decAdd (parseFloatOr0 t) (Webhook.amountPaid data))) rest
  end.

(** The number a string of decimal digits denotes, on top of [acc]. *)
Fixpoint uvalue (d : Decimal.uint) (acc : Z) : Z :=
  match d with
  | Decimal.Nil => acc
  | Decimal.D0 d => uvalue d (10 * acc)
  | Decimal.D1 d => uvalue d (10 * acc + 1)
  | Decimal.D2 d => uvalue d (10 * acc + 2)
  | Decimal.D3 d => uvalue d (10 * acc + 3)
  | Decimal.D4 d => uvalue d (10 * acc + 4)
  | Decimal.D5 d => uvalue d (10 * acc + 5)
  | Decimal.D6 d => uvalue d (10 * acc + 6)
  | Decimal.D7 d => uvalue d (10 * acc + 7)
  | Decimal.D8 d => uvalue d (10 * acc + 8)
  | Decimal.D9 d => uvalue d (10 * acc + 9)
  end.

(** The amounts paid, in cents, when every order was paid in whole
    cents. *)
Definition paidInCents (orders : list (JsDate * Webhook.OrderInput)) (amounts : list Z)
  : Prop :=
  map (fun o => Webhook.amountPaid (snd o)) orders = map cents amounts
  /\ Forall (fun a => 0 <= a) amounts.

(** The sum of a list of amounts. *)
Definition sumZ (l : list Z) : Z := fold_right Z.add 0 l.

(** A contact as it is on record, its tags aside. *)
Definition untagged (c : Contact) : Contact := withTags [] c.

(** Tags aside, every contact is what it was, and a provider that had
    no failure pending has none pending now. *)
Definition recordsKept (w w' : World) : Prop :=
  map untagged (contacts (crm w')) = map untagged (contacts (crm w))
  /\ (pending w = [] -> pending w' = []).

(** The characters of a string up to its first space, and whether it
    has a space at all. *)
Fixpoint hasSpace (s : string) : bool :=
  match s with
  | EmptyString => false
  | String c s' => Ascii.eqb c " " || hasSpace s'
  end.


(** A session that was completed without a payment intent, and a Stripe
    account that holds it. *)
Definition unpaidSession : Session :=
  mkSession "cs_3" None None (Some "a@example.com") (Some "Ada Lovelace")
    (Some (mkMetadata (CartParsed [Sample.deck]) (Some "false") (Some "false")))
    0 None Sample.jan.

Definition unpaidStripe : StripeApi :=
  mkStripe (fun _ => Ok ["cs_3"])
    (fun i => if String.eqb i "cs_3" then Ok unpaidSession
              else Throw (OtherError "No such checkout.session")).

(** The two events that make the webhook sync an order. *)
Definition isCheckoutEvent (eventType : string) : bool :=
  String.eqb eventType "checkout.session.completed"
  || String.eqb eventType "checkout.session.async_payment_succeeded".

(** The completed-checkout event for the sample session. *)
Definition completedEvent : Event (Res StripeWebhook.StripeEvent) :=
  mkEvent "POST" None
    (Ok (StripeWebhook.mkStripeEvent "checkout.session.completed" "cs_2")).

(** An event the webhook has no handler for. *)
Definition refundEvent : Event (Res StripeWebhook.StripeEvent) :=
  mkEvent "POST" None (Ok (StripeWebhook.mkStripeEvent "charge.refunded" "ch_1")).

(** [m] leaves the store as it was whenever it throws. *)
Definition failsClean {A} (m : M A) : Prop :=
  forall w e w', m w = (Throw e, w') -> crm w' = crm w.

(** [m] returns, on every world. *)
Definition neverThrows {A} (m : M A) : Prop :=
  forall w, exists a w', m w = (Ok a, w').

(** Stripe returns the full session of a listed session. *)
Definition retrievable (stripe : StripeApi) (session : Session) : bool :=
  match retrieve stripe (s_id session) with
  | Ok _ => true
  | Throw _ => false
  end.

(** The fulfilment status is one of the three the summary counts. *)
Definition knownStatus (o : GetOrders.Order) : Prop :=
  let st := Orders.f_status (GetOrders.ord_fulfillment o) in
  st = "pending" \/ st = "partial" \/ st = "fulfilled".

(** An authorised request for the order list. *)
Definition listRequest : Event unit := mkEvent "GET" (Some "Bearer admin-key") tt.

(** A session that Stripe lists and does not return. *)
Definition lostSession : Session :=
  mkSession "cs_9" None None (Some "b@example.com") (Some "Bob Byte")
    (Some (mkMetadata (CartParsed [Sample.deck]) (Some "false") (Some "false")))
    2000 (Some "pi_9") Sample.jan.

(** The id the next page is asked after: that of the last session of
    the page. *)
Definition lastIdOf (p : Inventory.Page) : option string :=
  match Inventory.data p with
  | [] => None
  | first :: _ => Some (Inventory.l_id (last (Inventory.data p) first))
  end.

(** Stripe serves [pages] one after the other, each asked for after the
    last id of the one before; every page but the last reports more and
    holds a session, the last reports no more or is empty. *)
Fixpoint servedFrom (list_ : option string -> Res Inventory.Page)
    (startingAfter : option string) (pages : list Inventory.Page) : Prop :=
  match pages with
  | [] => False
  | p :: rest =>
      list_ (Inventory.cursorOf startingAfter) = Ok p
      /\ match rest with
         | [] => Inventory.has_more p = false \/ Inventory.data p = []
         | _ :: _ =>
             Inventory.has_more p = true
             /\ Inventory.data p <> []
             /\ servedFrom list_ (lastIdOf p) rest
         end
  end.

(** The cards sold in a list of sessions. *)
Definition soldInAll (sessions : list Inventory.ListedSession) : Z :=
  sumZ (map Inventory.soldIn sessions).

(** Two pages of sessions: two decks and a bundle, then a session whose
    cart does not parse and whose line items count three. *)
Definition pageOne : Inventory.Page :=
  Inventory.mkPage
    [ Inventory.mkListed "cs_1" (CartParsed [mkItem "cards-only" "Destiny Cards" 20 2]) None;
      Inventory.mkListed "cs_2" (CartParsed [Sample.bundle]) None ]
    true.

Definition pageTwo : Inventory.Page :=
  Inventory.mkPage
    [ Inventory.mkListed "cs_3" CartMalformed (Some [Some 3; None]) ]
    false.

Definition twoPages (startingAfter : option string) : Res Inventory.Page :=
  match startingAfter with
  | None => Ok pageOne
  | Some i => if String.eqb i "cs_2" then Ok pageTwo
              else Throw (OtherError "No such checkout.session")
  end.

Definition inventoryRequest : Event unit := mkEvent "GET" None tt.

(** A custom field with an id outside [ids] is what it was, for every
    contact. *)
Definition fieldsOutside (ids : list Z) (w w' : World) : Prop :=
  forall k i, ~ In i ids -> fieldOf (crm w') k i = fieldOf (crm w) k i.

(** The ids of the custom fields the order syncs write. *)
Definition orderFieldIds : list Z :=
  [PRODUCT_ORDERED; ORDER_SUMMARY; PRODUCT_PRICE; SHIPPING_ADDRESS; PAYMENT_ID;
   ORDER_DATE; HAS_PREORDER; ORDER_HISTORY; TOTAL_SPENT].

(** The ids of the custom fields the first payment handler writes. *)
Definition legacyFieldIds : list Z :=
  [LegacyPayment.PRODUCT_ORDERED; LegacyPayment.PRODUCT_NAME;
   LegacyPayment.PRODUCT_PRICE; LegacyPayment.SHIPPING_ADDRESS;
   LegacyPayment.PAYMENT_ID; LegacyPayment.ORDER_DATE].

(** A payment of the first handler, and a Stripe that confirms it. *)
Definition legacyCustomer : LegacyPayment.CustomerData :=
  LegacyPayment.mkCustomerData "Ada" "Lovelace" "a@example.com" true "cards-only"
    "Destiny Cards" 20 (mkShipping "1 Main St" EmptyString "Springfield" "IL" "62701" "US").

Definition legacyRequest : Event (option LegacyPayment.PaymentRequest) :=
  mkEvent "POST" None (Some (LegacyPayment.mkPaymentRequest "pm_1" 20 legacyCustomer)).

Definition confirmIntent (_ : LegacyPayment.PaymentRequest)
  : Res LegacyPayment.PaymentIntent :=
  Ok (LegacyPayment.mkPaymentIntent "pi_0123456789" "succeeded" None).

(** The contact payload a request carries, when it carries one. *)
Definition payloadOf (r : Request) : option ContactPayload :=
  match r with
  | CreateContact p | UpdateContact _ p => Some p
  | _ => None
  end.

(** The ids of the custom fields the tracking update writes. *)
Definition trackingFieldIds : list Z :=
  [CARDS_TRACKING_NUMBER; CARDS_SHIPPED_DATE; BOOK_TRACKING_NUMBER; BOOK_SHIPPED_DATE].

(** The customer of the samples once the cards of the first order have
    shipped. *)
Definition shippedCustomer : Contact :=
  mkContact 1 "Ada" "Lovelace" "a@example.com" [] None
    [mkField 311 (Some "pi_1"); mkField 315 (Some "1Z999")] [].

Definition afterShipping : World := mkWorld (mkCrm [shippedCustomer] [] 2) [] [].

(** The item is the cards-and-book bundle. *)
Definition isBundle (item : CartItem) : bool :=
  String.eqb (productId item) "cards-book-bundle".

(** The product id is one of the two of the table. *)
Definition isSold (item : CartItem) : bool :=
  String.eqb (productId item) "cards-only" || isBundle item.

(** A Stripe client whose shipping rates cannot be listed. *)
Definition noRatesStripe : Checkout.StripeClient :=
  Checkout.mkStripeClient (Throw (OtherError "rate limit"))
    (fun _ => Throw (OtherError "rate limit"))
    (fun _ => Ok (Checkout.mkCheckoutSession "cs_secret_1" "cs_1")).

Definition checkoutRequest (cart : list CartItem) : Event (option Checkout.CheckoutRequest) :=
  mkEvent "POST" None
    (Some (Checkout.mkCheckoutRequest (Some cart) JUndefined (JBool true))).

(** The consent values that come out of the checkout as the text
    ["true"]: the boolean [true], the string ["true"], and an array
    whose one element is such a value. *)
Fixpoint standsForTrue (v : JsVal) : bool :=
  match v with
  | JBool b => b
  | JStr s => String.eqb s "true"
  | JArr [x] => standsForTrue x
  | _ => false
  end.

(** A session completed with the metadata the checkout handler sets for
    a cart of one bundle when the consent is sent as the array
    [['true']]. *)
Definition bundleSession : Session :=
  mkSession "cs_4" None None (Some "a@example.com") (Some "Ada Lovelace")
    (Some (mkMetadata (CartParsed [Sample.bundle]) (Some "true") (Some "true")))
    6000 (Some "pi_4") Sample.feb.

(** No two tags of the store have the same name. *)
Definition tagNamesDistinct (s : Crm) : Prop := NoDup (map tag_name (tags s)).

(** Tag names that were distinct are still distinct. *)
Definition keepsTagNames (w w' : World) : Prop :=
  tagNamesDistinct (crm w) -> tagNamesDistinct (crm w').

(** The number of contacts on record under an email. *)
Definition contactsUnder (e : string) (s : Crm) : nat :=
  List.length (filter (fun c => String.eqb (email c) e) (contacts s)).

(** The id of the tag a search for a name answers with first. *)
Definition tagIdNamed (name : string) (s : Crm) : option Z :=
  option_map tag_id (hd_error (filter (fun t => String.eqb (tag_name t) name) (tags s))).

(** The tag a tracking update applies, and the one it removes. *)
Definition shippedTagOf (shipmentType : string) : string :=
  if String.eqb shipmentType "cards"
  then "Destiny Cards - Cards Shipped"
  else "Destiny Cards - Book Shipped".

Definition awaitingTagOf (shipmentType : string) : string :=
  if String.eqb shipmentType "cards"
  then "Destiny Cards - Awaiting Shipment"
  else "Destiny Cards - Pending Book Shipment".

(** A contact with a tag attached, and with a tag detached, as the
    provider does it. *)
Definition addTag (tid : Z) (c : Contact) : Contact :=
  if hasTag tid c then c else withTags (tag_ids c ++ [tid])%list c.

Definition dropTag (tid : Z) (c : Contact) : Contact :=
  withTags (filter (fun t => negb (t =? tid)) (tag_ids c)) c.

(** The customer of the samples, awaiting the shipment of their cards,
    in a CRM that holds the tags of the first order. *)
Definition awaitingCustomer : World :=
  mkWorld
    (mkCrm [mkContact 1 "Ada" "Lovelace" "a@example.com" [] None
              [mkField 311 (Some "pi_1")] [10; 11]]
       [mkTag 10 "Destiny Cards - Order Received";
        mkTag 11 "Destiny Cards - Awaiting Shipment"] 12)
    [] [].

(** A complete tracking request for the cards of the sample customer. *)
Definition cardsRequest : Event (option Tracking.TrackingRequest) :=
  mkEvent "POST" (Some "Bearer admin-key")
    (Some (Tracking.mkTrackingRequest (JStr "a@example.com") (JStr "1Z999")
             (JStr "cards"))).

(** A tracking request whose email is the empty array. *)
Definition emptyArrayRequest : Event (option Tracking.TrackingRequest) :=
  mkEvent "POST" (Some "Bearer admin-key")
    (Some (Tracking.mkTrackingRequest (JArr []) (JStr "1Z999") (JStr "book"))).

(** The log of requests grew, or is what it was. *)
Definition traceGrows (w w' : World) : Prop :=
  exists tr, trace w' = (trace w ++ tr)%list.

(** The contact whose custom fields the order list reads for an order:
    the first one the provider returns for the email of the customer,
    when the Keap token is configured, the order has an email, and the
    search is answered with a success status.  In every other case no
    contact is read. *)
Definition contactRead (env : Env) (customerEmail : option string) (w : World)
  : option Contact :=
  if truthy (KEAP_ACCESS_TOKEN env) && truthy customerEmail && answeredNow (pending w)
  then firstMatch (orElse customerEmail EmptyString) (crm w)
  else None.

(* ================================================================== *)
(** * Properties *)

(** ** Fulfilment status *)

Lemma truthy_spec (x : option string) :
  truthy x = true <-> exists s, x = Some s /\ s <> EmptyString.
Proof.
  destruct x as [[|c s]|]; simpl; split; intros H; try discriminate; auto.
  - destruct H as (s & Hs & Hn). inversion Hs; subst. now elim Hn.
  - exists (String c s). split; [reflexivity | discriminate].
  - destruct H as (s & Hs & _). discriminate.
Qed.

Lemma shipped_spec (i : Z) (customFields : list Field) :
  Orders.shipped (findField i customFields) = true <-> fieldFilled i customFields.
Proof.
  unfold Orders.shipped, fieldFilled.
  destruct (findField i customFields) as [f|].
  - rewrite truthy_spec. split.
    + intros (s & Hs & Hn). now exists f, s.
    + intros (f' & s & Hf & Hs & Hn). inversion Hf; subst. now exists s.
  - split; [discriminate | intros (f & s & Hf & _); discriminate].
Qed.

(** ** What a computation leaves in place *)

Section Preservation.
Variable R : World -> World -> Prop.
Hypothesis R_refl : forall w, R w w.
Hypothesis R_trans : forall a b c, R a b -> R b c -> R a c.

Lemma preserves_ret {A} (a : A) : preserves R (ret a).
Proof. intros w. apply R_refl. Qed.

Lemma preserves_throw {A} (e : Error) : preserves R (@throw A e).
Proof. intros w. apply R_refl. Qed.

Lemma preserves_liftRes {A} (r : Res A) : preserves R (liftRes r).
Proof. intros w. apply R_refl. Qed.

Lemma preserves_bind {A B} (m : M A) (k : A -> M B) :
  preserves R m -> (forall a, preserves R (k a)) -> preserves R (bind m k).
Proof.
  intros Hm Hk w. unfold bind. specialize (Hm w).
  destruct (m w) as [[a|e] w1]; simpl in *; [|exact Hm].
  eapply R_trans; [exact Hm | apply Hk].
Qed.

Lemma preserves_tryCatch {A} (m : M A) (h : Error -> M A) :
  preserves R m -> (forall e, preserves R (h e)) -> preserves R (tryCatch m h).
Proof.
  intros Hm Hh w. unfold tryCatch. specialize (Hm w).
  destruct (m w) as [[a|e] w1]; simpl in *; [exact Hm|].
  eapply R_trans; [exact Hm | apply Hh].
Qed.

Lemma preserves_forEach {A S} (l : list A) (body : A -> S -> M S) :
  (forall x s, preserves R (body x s)) -> forall s, preserves R (forEach l body s).
Proof.
  intros Hb. induction l as [|x l IH]; intros s; simpl.
  - apply preserves_ret.
  - apply preserves_bind; [apply Hb | intros s'; apply IH].
Qed.

Lemma preserves_if {A} (b : bool) (m1 m2 : M A) :
  preserves R m1 -> preserves R m2 -> preserves R (if b then m1 else m2).
Proof. destruct b; auto. Qed.
End Preservation.

Lemma sameStore_refl w : sameStore w w.
Proof. split; reflexivity. Qed.

Lemma sameStore_trans a b c : sameStore a b -> sameStore b c -> sameStore a c.
Proof. intros [H1 H2] [H3 H4]. split; congruence. Qed.

Lemma perform_read (r : Request) (s : Crm) :
  isWrite r = false -> snd (perform r s) = s.
Proof.
  destruct r; simpl; try discriminate; intros _; try reflexivity.
  destruct (findContactById cid (contacts s)); reflexivity.
Qed.

Lemma writes_snoc (tr : list Request) (r : Request) :
  writes (tr ++ [r]) = (writes tr ++ (if isWrite r then [r] else []))%list.
Proof. unfold writes. rewrite filter_app. simpl. destruct (isWrite r); reflexivity. Qed.

Lemma fetch_read (r : Request) : isWrite r = false -> preserves sameStore (fetch r).
Proof.
  intros Hr w. unfold fetch.
  destruct (pending w) as [|s l];
    (destruct (ok _);
     [ pose proof (perform_read r (crm w) Hr) as Hp;
       destruct (perform r (crm w)) as [resp s']; simpl in *; subst s' | simpl ];
     split; simpl; auto; rewrite writes_snoc, Hr, app_nil_r; reflexivity).
Qed.

Ltac stable_step R_refl R_trans :=
  first
    [ apply (preserves_ret _ R_refl)
    | apply (preserves_throw _ R_refl)
    | apply (preserves_liftRes _ R_refl)
    | apply (preserves_bind _ R_trans); [|intros ?]
    | apply (preserves_tryCatch _ R_trans); [|intros ?]
    | apply (preserves_forEach _ R_refl R_trans); intros ? ?
    | apply preserves_if ].

Lemma findKeapContactFuel_read (fuel : nat) (e : string) :
  preserves sameStore (Backfill.findKeapContactFuel fuel e).
Proof.
  induction fuel as [|fuel IH]; simpl;
    (apply (preserves_bind _ sameStore_trans); [now apply fetch_read|]);
    intros resp; repeat stable_step sameStore_refl sameStore_trans; exact IH.
Qed.

Lemma findKeapContact_read (e : string) :
  preserves sameStore (Backfill.findKeapContact e).
Proof. intros w. apply findKeapContactFuel_read. Qed.

Lemma processSession_dry_read stripe sid r :
  preserves sameStore (Backfill.processSession true stripe sid r).
Proof.
  unfold Backfill.processSession.
  apply (preserves_tryCatch _ sameStore_trans);
    [|intros e; apply (preserves_ret _ sameStore_refl)].
  apply (preserves_bind _ sameStore_trans); [apply (preserves_liftRes _ sameStore_refl)|].
  intros session.
  destruct (customer_email session) as [[|c s]|];
    try apply (preserves_ret _ sameStore_refl).
  apply (preserves_bind _ sameStore_trans); [apply findKeapContact_read|].
  intros existing.
  destruct (match existing with Some c0 => Backfill.hasExistingOrderData c0 | None => false end);
    [apply (preserves_ret _ sameStore_refl)|].
  destruct (Backfill.cartOf session). apply (preserves_ret _ sameStore_refl).
Qed.

Lemma backfill_dry_read stripe sessions :
  preserves sameStore (Backfill.backfill true stripe sessions).
Proof.
  apply (preserves_forEach _ sameStore_refl sameStore_trans).
  intros x s. apply processSession_dry_read.
Qed.

Lemma notFalse_true (x : JsVal) : x <> JBool false -> notFalse x = true.
Proof. destruct x as [| |[]| | | |]; simpl; intros H; try reflexivity. now elim H. Qed.

(** C4.  A backfill request whose [dryRun] option is anything but the
    literal [false] (left out, or in a body that does not parse, too) runs
    in dry-run mode, and such a run sends no write request to the CRM:
    the store is what it was and the log gains no POST, PATCH or DELETE,
    however many sessions are reported as would_sync. *)
Theorem dry_run_performs_no_writes :
  forall env stripe (event : Event (option Backfill.Options)) w,
    (forall o, ebody event = Some o -> Backfill.dryRunOpt o <> JBool false) ->
    crm (snd (Backfill.handler env stripe event w)) = crm w
    /\ writes (trace (snd (Backfill.handler env stripe event w))) = writes (trace w)
    /\ match fst (Backfill.handler env stripe event w) with
       | Ok (Backfill.Report dryRun _ _) => dryRun = true
       | _ => True
       end.
Proof.
  intros env stripe event w Hdry.
  assert (Hmode : notFalse (Backfill.dryRunOpt
            (orElse (ebody event) (Backfill.mkOptions JUndefined JUndefined))) = true).
  { destruct (ebody event) as [o|] eqn:Hb; simpl; [|reflexivity].
    apply notFalse_true. now apply Hdry. }
  unfold Backfill.handler.
  destruct (String.eqb (httpMethod event) "OPTIONS"); [simpl; auto using sameStore_refl|].
  destruct (negb (String.eqb (httpMethod event) "POST")); [simpl; auto|].
  destruct (unauthorized env (authorization event)); [simpl; auto|].
  destruct (negb (truthy (KEAP_ACCESS_TOKEN env))); [simpl; auto|].
  destruct (orElse (ebody event) (Backfill.mkOptions JUndefined JUndefined))
    as [|dryRunOpt limitOpt]; [simpl; auto|].
  rewrite Hmode.
  set (limit := jsOr _ _).
  unfold tryCatch.
  destruct (negb (truthy (STRIPE_SECRET_KEY env))); [simpl; auto|].
  unfold bind, liftRes.
  destruct (listSessions stripe limit) as [sessions|e]; [|simpl; auto].
  pose proof (backfill_dry_read stripe sessions w) as [Hc Hw].
  destruct (Backfill.backfill true stripe sessions w) as [[r|e] w']; simpl in *; auto.
Qed.

(** ** The backfill report *)




(** ** The backfill guard *)

Lemma findKeapContactFuel_answered (e : string) : forall fuel w,
  (List.length (pending w) <= fuel)%nat ->
  lookupAnswered (pending w) = true ->
  exists w',
    Backfill.findKeapContactFuel fuel e w = (Ok (firstMatch e (crm w)), w')
    /\ crm w' = crm w.
Proof.
  induction fuel as [|fuel IH]; intros [s p t] Hlen Hans; simpl in *.
  - destruct p as [|st rest]; [|simpl in Hlen; lia].
    unfold bind, fetch; simpl. eexists; split; reflexivity.
  - destruct p as [|st rest].
    + unfold bind, fetch; simpl. eexists; split; reflexivity.
    + unfold bind, fetch; simpl.
      destruct (ok (mkResponse st NoBody)) eqn:Hok; simpl.
      * eexists; split; reflexivity.
      * rewrite Hok. simpl. simpl in Hans. rewrite Hok in Hans.
        destruct (st =? 429) eqn:H429; [|discriminate].
        destruct (IH (mkWorld s rest (t ++ [SearchContacts e true])%list))
          as (w' & Hrun & Hcrm); simpl in *; [lia | exact Hans |].
        exists w'. split; assumption.
Qed.

(** The lookup always comes back with a contact or with [null]: it
    does not throw, and the retries end with the pending statuses. *)
Lemma findKeapContactFuel_returns (e : string) : forall fuel w,
  (List.length (pending w) <= fuel)%nat ->
  exists r w', Backfill.findKeapContactFuel fuel e w = (Ok r, w').
Proof.
  induction fuel as [|fuel IH]; intros [s p t] Hlen; simpl in *.
  - destruct p as [|st rest]; [|simpl in Hlen; lia].
    unfold bind, fetch; simpl. eexists _, _; reflexivity.
  - destruct p as [|st rest].
    + unfold bind, fetch; simpl. eexists _, _; reflexivity.
    + unfold bind, fetch; simpl.
      destruct (ok (mkResponse st NoBody)) eqn:Hok; simpl.
      * eexists _, _; reflexivity.
      * rewrite Hok. simpl.
        destruct (st =? 429); [|unfold ret; eexists _, _; reflexivity].
        apply IH. simpl in *. lia.
Qed.

Lemma findKeapContact_returns (e : string) (w : World) :
  exists r w', Backfill.findKeapContact e w = (Ok r, w').
Proof. apply findKeapContactFuel_returns. apply le_n. Qed.

Lemma findKeapContact_answered (e : string) (w : World) :
  lookupAnswered (pending w) = true ->
  exists w',
    Backfill.findKeapContact e w = (Ok (firstMatch e (crm w)), w')
    /\ sameStore w w'.
Proof.
  intros Hans.
  destruct (findKeapContactFuel_answered e (List.length (pending w)) w (le_n _) Hans)
    as (w' & Hrun & Hcrm).
  exists w'. split; [exact Hrun|].
  pose proof (findKeapContact_read e w) as Hs.
  unfold Backfill.findKeapContact in *. rewrite Hrun in Hs. exact Hs.
Qed.

Lemma hasExistingOrderData_spec (c : Contact) :
  Backfill.hasExistingOrderData c = true <-> fieldFilled 311 (custom_fields c).
Proof.
  exact (shipped_spec 311 (custom_fields c)).
Qed.

(** The guard at work.  When the contact lookup is one the provider
    answers, at once or after 429s, a session whose customer email is
    that of a CRM contact with a filled-in payment-id field (custom
    field 311) is skipped, with dryRun true and with dryRun false alike:
    it is counted as skipped and its detail says so, it is not counted
    as synced, and nothing is written to the CRM for it. *)
Lemma backfill_skips_contact_with_payment_id :
  forall (dryRun : bool) stripe sid session e c results w,
    retrieve stripe sid = Ok session ->
    customer_email session = Some e ->
    e <> EmptyString ->
    lookupAnswered (pending w) = true ->
    firstMatch e (crm w) = Some c ->
    fieldFilled 311 (custom_fields c) ->
    exists results' w',
      Backfill.processSession dryRun stripe sid results w = (Ok results', w')
      /\ Backfill.skipped results' = S (Backfill.skipped results)
      /\ Backfill.synced results' = Backfill.synced results
      /\ Backfill.errors results' = Backfill.errors results
      /\ Backfill.details results'
         = (Backfill.details results
              ++ [Backfill.mkDetail (s_id session) (Some e) None "skipped"
                    (Some "Already has order data in Keap") None])%list
      /\ crm w' = crm w
      /\ writes (trace w') = writes (trace w).
Proof.
  intros dryRun stripe sid session e c results w Hret Hmail Hne Hans Hfirst Hfilled.
  destruct (findKeapContact_answered e w Hans) as (w' & Hrun & Hc & Hw).
  unfold Backfill.processSession, tryCatch, bind, liftRes.
  rewrite Hret, Hmail.
  destruct e as [|a e]; [now elim Hne|].
  rewrite Hrun, Hfirst.
  apply hasExistingOrderData_spec in Hfilled. rewrite Hfilled.
  eexists _, w'. split; [reflexivity|]. simpl. repeat split; assumption || reflexivity.
Qed.

(** ** Tracking updates *)

(** How a request is answered: refused with a failure status that was
    pending, or performed by the provider. *)
Lemma fetch_cases (r : Request) (w : World) :
  (exists st,
      ok (mkResponse st NoBody) = false
      /\ hd_error (pending w) = Some st
      /\ fetch r w = (Ok (mkResponse st NoBody),
                      mkWorld (crm w) (tl (pending w)) (trace w ++ [r])))
  \/ (lookupAnswered (firstn 1 (pending w)) = true
      /\ fetch r w = (Ok (fst (perform r (crm w))),
                      mkWorld (snd (perform r (crm w))) (tl (pending w))
                        (trace w ++ [r]))).
Proof.
  unfold fetch. destruct (pending w) as [|s l]; simpl.
  - right. destruct (perform r (crm w)); auto.
  - destruct (ok (mkResponse s NoBody)) eqn:Hok.
    + right. destruct (perform r (crm w)); auto.
    + left. exists s. auto.
Qed.

Lemma firstMatch_none (e : string) (s : Crm) :
  firstMatch e s = None ->
  filter (fun c => String.eqb (email c) e) (contacts s) = [].
Proof.
  unfold firstMatch. destruct (filter _ (contacts s)); [reflexivity | discriminate].
Qed.

(** C7.  [updateTracking] for an email that no CRM contact has fails
    and writes nothing: the store is what it was and no POST, PATCH or
    DELETE is sent, so no field is updated and no tag is created, applied
    or removed.  When the access token is configured and the search is
    answered, the failure is the not-found error, which the handler
    reports with its message. *)
Theorem update_tracking_unknown_email :
  forall env today e trackingNumber shipmentType w,
    firstMatch e (crm w) = None ->
    let run := Tracking.updateTrackingInKeap env today e trackingNumber shipmentType w in
    (exists err, fst run = Throw err)
    /\ crm (snd run) = crm w
    /\ writes (trace (snd run)) = writes (trace w)
    /\ (truthy (KEAP_ACCESS_TOKEN env) = true ->
        answeredNow (pending w) = true ->
        fst run = Throw (NoContactFound e)
        /\ message (NoContactFound e) = "No contact found with email: " ++ e).
Proof.
  intros env today e tn st w Hnone run. subst run.
  apply firstMatch_none in Hnone.
  unfold Tracking.updateTrackingInKeap.
  destruct (truthy (KEAP_ACCESS_TOKEN env)); simpl.
  2:{ repeat split; eauto; discriminate. }
  unfold bind, fetch.
  destruct (pending w) as [|s l]; simpl.
  - rewrite Hnone. simpl. rewrite writes_snoc. simpl. rewrite app_nil_r.
    repeat split; eauto.
  - destruct (ok (mkResponse s NoBody)) eqn:Hok; simpl.
    + rewrite Hnone. simpl. rewrite writes_snoc. simpl. rewrite app_nil_r.
      repeat split; eauto.
    + rewrite Hok. simpl. rewrite writes_snoc. simpl. rewrite app_nil_r.
      repeat split; eauto; discriminate.
Qed.

Lemma fieldsKept_refl w : fieldsKept w w.
Proof.
  split; [reflexivity|]. split; [exists []; now rewrite app_nil_r|]. split; auto.
Qed.

Lemma fieldsKept_trans a b c : fieldsKept a b -> fieldsKept b c -> fieldsKept a c.
Proof.
  intros (H1 & (t1 & Ht1 & Hf1) & Hk1 & Hq1) (H2 & (t2 & Ht2 & Hf2) & Hk2 & Hq2).
  split; [|split; [|split]].
  - intros k i. now rewrite H2, H1.
  - exists (t1 ++ t2)%list. rewrite Ht2, Ht1, app_assoc, filter_app, Hf1, Hf2. auto.
  - congruence.
  - auto.
Qed.

Lemma findContactById_id k cs c : findContactById k cs = Some c -> id c = k.
Proof.
  unfold findContactById. intros H. apply find_some in H. destruct H as [_ H].
  now apply Z.eqb_eq in H.
Qed.

Lemma findContactById_mapContact k cid (f : Contact -> Contact) cs :
  (forall c, id (f c) = id c) ->
  findContactById k (mapContact cid f cs)
  = option_map (fun c => if id c =? cid then f c else c) (findContactById k cs).
Proof.
  intros Hf. unfold findContactById, mapContact.
  induction cs as [|a cs IH]; simpl; [reflexivity|].
  destruct (id a =? cid) eqn:Ha; [rewrite Hf|];
    destruct (id a =? k) eqn:Hk; simpl; try rewrite Ha; auto.
Qed.

Lemma fieldOf_mapContact (s : Crm) cid (f : Contact -> Contact) ts n k i :
  (forall c, id (f c) = id c) ->
  (forall c, custom_fields (f c) = custom_fields c) ->
  fieldOf (mkCrm (mapContact cid f (contacts s)) ts n) k i = fieldOf s k i.
Proof.
  intros Hid Hcf. unfold fieldOf. simpl.
  rewrite findContactById_mapContact by exact Hid.
  destruct (findContactById k (contacts s)) as [c|]; simpl; [|reflexivity].
  destruct (id c =? cid); [now rewrite Hcf | reflexivity].
Qed.

Lemma perform_keeps_fields (r : Request) (s : Crm) :
  isContactWrite r = false ->
  forall k i, fieldOf (snd (perform r s)) k i = fieldOf s k i.
Proof.
  destruct r; simpl; try discriminate; intros _ k i; try reflexivity.
  - destruct (findContactById cid (contacts s)); reflexivity.
  - destruct (findContactById cid (contacts s)); simpl; [|reflexivity].
    apply fieldOf_mapContact; intros c0; destruct (hasTag tid c0); reflexivity.
  - destruct (findContactById cid (contacts s)) as [c|]; simpl; [|reflexivity].
    destruct (hasTag tid c); simpl; [|reflexivity].
    apply fieldOf_mapContact; intros c0; reflexivity.
Qed.

Lemma keys_mapContact cid (f : Contact -> Contact) cs :
  (forall c, keyOf (f c) = keyOf c) ->
  map keyOf (mapContact cid f cs) = map keyOf cs.
Proof.
  intros Hf. unfold mapContact. rewrite map_map. apply map_ext.
  intros c. destruct (id c =? cid); [apply Hf | reflexivity].
Qed.

Lemma perform_keeps_keys (r : Request) (s : Crm) :
  isContactWrite r = false ->
  map keyOf (contacts (snd (perform r s))) = map keyOf (contacts s).
Proof.
  destruct r; simpl; try discriminate; intros _; try reflexivity.
  - destruct (findContactById cid (contacts s)); reflexivity.
  - destruct (findContactById cid (contacts s)); simpl; [|reflexivity].
    apply keys_mapContact; intros c0; destruct (hasTag tid c0); reflexivity.
  - destruct (findContactById cid (contacts s)) as [c|]; simpl; [|reflexivity].
    destruct (hasTag tid c); simpl; [|reflexivity].
    apply keys_mapContact; intros c0; reflexivity.
Qed.

Lemma fetch_keeps_fields (r : Request) :
  isContactWrite r = false -> preserves fieldsKept (fetch r).
Proof.
  intros Hr w.
  destruct (fetch_cases r w) as [(st & _ & Hhd & Hf)|[_ Hf]]; rewrite Hf; simpl.
  - split; [reflexivity|]. split; [exists [r]; simpl; now rewrite Hr|].
    split; [reflexivity|]. intros Hq. rewrite Hq in Hhd. discriminate.
  - split; [intros k i; now apply perform_keeps_fields|].
    split; [exists [r]; simpl; now rewrite Hr|].
    split; [now apply perform_keeps_keys|].
    intros Hq. now rewrite Hq.
Qed.

Ltac kept :=
  repeat first
    [ apply (preserves_ret _ fieldsKept_refl)
    | apply (preserves_throw _ fieldsKept_refl)
    | apply (preserves_bind _ fieldsKept_trans); [|intros ?]
    | apply (preserves_tryCatch _ fieldsKept_trans); [|intros ?]
    | apply fetch_keeps_fields; reflexivity
    | match goal with
      | |- preserves _ (if ?b then _ else _) => destruct b
      | |- preserves _ (match ?x with _ => _ end) => destruct x
      end ].

Lemma tracking_tags_keep_fields (contactId : Z) (shipped awaiting : string) :
  preserves fieldsKept
    (tryCatch
       (shippedTagId <- Tracking.getOrCreateTag shipped ;;
        Tracking.applyTagToContact contactId shippedTagId)
       (fun _ => ret tt) ;;;
     tryCatch
       (awaitingTagId <- Tracking.getTagId awaiting ;;
        match awaitingTagId with
        | Some t => Tracking.removeTagFromContact contactId t
        | None => ret tt
        end)
       (fun _ => ret tt) ;;;
     ret contactId).
Proof.
  unfold Tracking.getOrCreateTag, Tracking.applyTagToContact, Tracking.getTagId,
    Tracking.removeTagFromContact.
  kept.
Qed.

Lemma bind_inv {A B} (m : M A) (k : A -> M B) w b w' :
  bind m k w = (Ok b, w') ->
  exists a w1, m w = (Ok a, w1) /\ k a w1 = (Ok b, w').
Proof.
  unfold bind. destruct (m w) as [[a|e] w1]; [eauto | discriminate].
Qed.

Lemma findField_setField i f fs :
  findField i (setField f fs) = if fid f =? i then Some f else findField i fs.
Proof.
  unfold findField. induction fs as [|g fs IH]; simpl; [reflexivity|].
  destruct (Z.eqb_spec (fid g) (fid f)) as [Hgf|Hgf]; simpl.
  - rewrite Hgf. destruct (fid f =? i); reflexivity.
  - rewrite IH.
    destruct (Z.eqb_spec (fid g) i), (Z.eqb_spec (fid f) i); try reflexivity.
    congruence.
Qed.

Lemma update_tracking_frame env today e tn shipmentType w cid w' t d :
  t <> d ->
  Tracking.trackingFields tn today shipmentType
  = [mkField t (Some tn); mkField d (Some today)] ->
  Tracking.updateTrackingInKeap env today e tn shipmentType w = (Ok cid, w') ->
  writesOnlyLeg w w' cid t d tn today.
Proof.
  intros Htd Hfields Hrun. unfold Tracking.updateTrackingInKeap in Hrun.
  rewrite Hfields in Hrun.
  destruct (negb (truthy (KEAP_ACCESS_TOKEN env))); [discriminate|].
  apply bind_inv in Hrun. destruct Hrun as (resp & w1 & Hsearch & Hrun).
  destruct (fetch_cases (SearchContacts e false) w) as [(st & Hbad & _ & Hf)|[_ Hf]];
    rewrite Hf in Hsearch; inversion Hsearch; subst resp w1; clear Hsearch Hf.
  { rewrite Hbad in Hrun. discriminate. }
  simpl in Hrun.
  destruct (map withoutFields _) as [|c cs]; [discriminate|].
  apply bind_inv in Hrun. destruct Hrun as (resp & w2 & Hupd & Hrun).
  match type of Hupd with
  | fetch ?r ?w0 = _ =>
      destruct (fetch_cases r w0) as [(st & Hbad & _ & Hf)|[_ Hf]];
        rewrite Hf in Hupd; inversion Hupd; subst resp w2; clear Hupd Hf
  end.
  { rewrite Hbad in Hrun. discriminate. }
  simpl in Hrun.
  destruct (findContactById (id c) (contacts (crm w))) as [c0|] eqn:Hc0;
    simpl in Hrun; [|discriminate].
  match type of Hrun with
  | ?m ?w2 = _ =>
      pose proof (tracking_tags_keep_fields (id c)
                    (if String.eqb shipmentType "cards"
                     then "Destiny Cards - Cards Shipped"
                     else "Destiny Cards - Book Shipped")
                    (if String.eqb shipmentType "cards"
                     then "Destiny Cards - Awaiting Shipment"
                     else "Destiny Cards - Pending Book Shipment") w2) as Hkept
  end.
  rewrite Hrun in Hkept. simpl in Hkept.
  destruct Hkept as (Hsame & (tr & Htr & Hnone) & _ & _).
  assert (Hcid : cid = id c).
  { apply bind_inv in Hrun. destruct Hrun as (u1 & w3 & _ & Hrun).
    apply bind_inv in Hrun. destruct Hrun as (u2 & w4 & _ & Hrun).
    unfold ret in Hrun. now inversion Hrun. }
  subst cid.
  assert (Hafter : forall k i,
             fieldOf (mkCrm (mapContact (id c)
                               (applyPayload
                                  (Tracking.trackingPayload
                                     [mkField t (Some tn); mkField d (Some today)]))
                               (contacts (crm w))) (tags (crm w)) (next_id (crm w))) k i
             = match findContactById k (contacts (crm w)) with
               | Some c1 =>
                   if id c1 =? id c
                   then if d =? i then Some (mkField d (Some today))
                        else if t =? i then Some (mkField t (Some tn))
                        else findField i (custom_fields c1)
                   else findField i (custom_fields c1)
               | None => None
               end).
  { intros k i. unfold fieldOf. simpl.
    rewrite findContactById_mapContact by reflexivity.
    destruct (findContactById k (contacts (crm w))) as [c1|]; simpl; [|reflexivity].
    destruct (id c1 =? id c); [|reflexivity].
    simpl. unfold mergeFields. simpl. now rewrite !findField_setField. }
  unfold writesOnlyLeg. split; [|split; [|split]].
  - eexists. split.
    + rewrite Htr. simpl. rewrite <- !app_assoc. reflexivity.
    + simpl. rewrite Hnone. reflexivity.
  - rewrite Hsame, Hafter, Hc0.
    rewrite (findContactById_id _ _ _ Hc0), Z.eqb_refl.
    destruct (Z.eqb_spec d t); [congruence|]. now rewrite Z.eqb_refl.
  - rewrite Hsame, Hafter, Hc0.
    rewrite (findContactById_id _ _ _ Hc0), !Z.eqb_refl. reflexivity.
  - intros k i Hki. rewrite Hsame, Hafter. unfold fieldOf.
    destruct (findContactById k (contacts (crm w))) as [c1|] eqn:Hc1; [|reflexivity].
    apply findContactById_id in Hc1.
    destruct (Z.eqb_spec (id c1) (id c)) as [Heq|Hne]; [|reflexivity].
    destruct Hki as [Hk|[Hit Hid]]; [congruence|].
    destruct (Z.eqb_spec d i); [congruence|].
    destruct (Z.eqb_spec t i); [congruence|]. reflexivity.
Qed.

(** C10.  A tracking update that succeeds sends one contact write, a
    PATCH whose custom fields are exactly the two of the requested leg:
    315 and 317 for the cards, 319 and 321 for the book.  The contact then
    carries them, and the fields of the other leg, the order fields and
    the fields of every other contact are what they were. *)
Theorem update_tracking_writes_only_leg_fields :
  forall env today e trackingNumber shipmentType w cid w',
    Tracking.updateTrackingInKeap env today e trackingNumber shipmentType w
    = (Ok cid, w') ->
    (shipmentType = "cards" -> writesOnlyLeg w w' cid 315 317 trackingNumber today)
    /\ (shipmentType = "book" -> writesOnlyLeg w w' cid 319 321 trackingNumber today).
Proof.
  intros env today e tn shipmentType w cid w' Hrun.
  split; intros ->;
    (eapply update_tracking_frame; [| |exact Hrun]; [lia | reflexivity]).
Qed.

(** ** Failing CRM calls *)

(** The contact lookup of the backfill, answered with a 500, reports
    that there is no contact, although the store has one. *)
Lemma findKeapContact_failure_reports_no_contact :
  let w := mkWorld (mkCrm [mkContact 1 "Ada" "Lovelace" "a@example.com" [] None
                             [mkField 311 (Some "pi_1")] []] [] 2) [500] [] in
  fst (Backfill.findKeapContact "a@example.com" w) = Ok None
  /\ firstMatch "a@example.com" (crm w) <> None.
Proof. split; [reflexivity | discriminate]. Qed.

(** Tag removal takes a 404, which is neither a success nor a 429, as
    success ("404 is ok - tag wasn't applied"): the call returns instead
    of failing with the status. *)
Lemma remove_tag_not_found_is_success :
  let w := mkWorld (mkCrm [] [] 1) [404] [] in
  ok (mkResponse 404 NoBody) = false
  /\ 404 <> 429
  /\ fst (Tracking.removeTagFromContact 1 2 w) = Ok tt
  /\ ~ failsWithStatus 404 (Tracking.removeTagFromContact 1 2 w).
Proof.
  repeat split; try reflexivity; try discriminate.
  intros (err & Herr & _). discriminate.
Qed.

Ltac settle_status Hbad Hbad' H429 :=
  repeat first [rewrite Hbad | rewrite Hbad' | rewrite H429 | progress simpl].

Ltac run_failure Hbad Hbad' H429 :=
  unfold failsWithStatus, bind, fetch, throw, ret; simpl;
  settle_status Hbad Hbad' H429;
  eexists; split; reflexivity.

(** X30.  The CRM calls that throw on a failure carry its HTTP status.
    For a status [st] that is neither a success nor 429:
    the contact search of the webhook sync, of the tracking update and
    of the fulfilment lookup, the tag search of every get-or-create-tag,
    every tag application, and a tag removal answered with a status other
    than 404 fail with an error carrying [st]; so do the tag creation
    that follows a search that found nothing, and the contact creation or
    update that follows the contact search of a sync or of a tracking
    update. *)
Theorem crm_failure_carries_status :
  forall (st : Z) (rest : list Z) (s : Crm) (tr : list Request),
    ok (mkResponse st NoBody) = false ->
    st <> 429 ->
    let w := mkWorld s (st :: rest) tr in
    let w2 := mkWorld s (200 :: st :: rest) tr in
    let w3 := mkWorld s (200 :: 200 :: st :: rest) tr in
    (forall env now data,
        truthy (KEAP_ACCESS_TOKEN env) = true ->
        failsWithStatus st (Webhook.integrateWithKeap env now data w))
    /\ (forall env today e tn ty,
           truthy (KEAP_ACCESS_TOKEN env) = true ->
           failsWithStatus st (Tracking.updateTrackingInKeap env today e tn ty w))
    /\ (forall e, failsWithStatus st (Orders.getKeapFulfillmentStatus e w))
    /\ (forall name,
           failsWithStatus st (Backfill.getOrCreateTag name w)
           /\ failsWithStatus st (Webhook.getOrCreateTag name w)
           /\ failsWithStatus st (Tracking.getOrCreateTag name w))
    /\ (forall c t,
           failsWithStatus st (Backfill.applyTagToContact c t w)
           /\ failsWithStatus st (Webhook.applyTagToContact c t w)
           /\ failsWithStatus st (Tracking.applyTagToContact c t w))
    /\ (forall c t, st <> 404 ->
                    failsWithStatus st (Tracking.removeTagFromContact c t w))
    /\ (forall name,
           noTagNamed name s ->
           failsWithStatus st (Backfill.getOrCreateTag name w2)
           /\ failsWithStatus st (Webhook.getOrCreateTag name w2)
           /\ failsWithStatus st (Tracking.getOrCreateTag name w2))
    /\ (forall env now data,
           truthy (KEAP_ACCESS_TOKEN env) = true ->
           firstMatch (Webhook.i_email data) s = None ->
           failsWithStatus st (Webhook.integrateWithKeap env now data w2))
    /\ (forall env now data c,
           truthy (KEAP_ACCESS_TOKEN env) = true ->
           firstMatch (Webhook.i_email data) s = Some c ->
           failsWithStatus st (Webhook.integrateWithKeap env now data w3))
    /\ (forall orderData consent,
           firstMatch (Backfill.o_email orderData) s = None ->
           failsWithStatus st (Backfill.syncToKeap orderData consent w2))
    /\ (forall orderData consent c,
           firstMatch (Backfill.o_email orderData) s = Some c ->
           failsWithStatus st (Backfill.syncToKeap orderData consent w2))
    /\ (forall env today e tn ty c,
           truthy (KEAP_ACCESS_TOKEN env) = true ->
           firstMatch e s = Some c ->
           failsWithStatus st (Tracking.updateTrackingInKeap env today e tn ty w2)).
Proof.
  intros st rest s tr Hbad H429 w w2 w3. subst w w2 w3.
  apply Z.eqb_neq in H429.
  assert (Hbad' : (200 <=? st) && (st <=? 299) = false) by exact Hbad.
  repeat match goal with |- _ /\ _ => split end.
  - intros env now data Htok. unfold Webhook.integrateWithKeap. rewrite Htok.
    run_failure Hbad Hbad' H429.
  - intros env today e tn ty Htok. unfold Tracking.updateTrackingInKeap. rewrite Htok.
    run_failure Hbad Hbad' H429.
  - intros e. unfold Orders.getKeapFulfillmentStatus. run_failure Hbad Hbad' H429.
  - intros name. unfold Backfill.getOrCreateTag, Webhook.getOrCreateTag,
      Tracking.getOrCreateTag. simpl.
    repeat split; run_failure Hbad Hbad' H429.
  - intros c t. unfold Backfill.applyTagToContact, Webhook.applyTagToContact,
      Tracking.applyTagToContact.
    repeat split; run_failure Hbad Hbad' H429.
  - intros c t H404. apply Z.eqb_neq in H404.
    unfold Tracking.removeTagFromContact.
    unfold failsWithStatus, bind, fetch, throw; simpl.
    settle_status Hbad Hbad' H429. rewrite H404. simpl.
    eexists; split; reflexivity.
  - intros name Hnone. unfold noTagNamed in Hnone.
    unfold Backfill.getOrCreateTag, Webhook.getOrCreateTag, Tracking.getOrCreateTag.
    simpl.
    repeat split;
      unfold failsWithStatus, bind, fetch, throw; simpl; rewrite Hnone; simpl;
      settle_status Hbad Hbad' H429; eexists; split; reflexivity.
  - intros env now data Htok Hnone. apply firstMatch_none in Hnone.
    unfold Webhook.integrateWithKeap. rewrite Htok.
    unfold failsWithStatus, bind, fetch, throw, ret; simpl. rewrite Hnone. simpl.
    settle_status Hbad Hbad' H429. eexists; split; reflexivity.
  - intros env now data c Htok Hsome. unfold firstMatch in Hsome.
    unfold Webhook.integrateWithKeap. rewrite Htok.
    unfold failsWithStatus, bind, fetch, throw, ret; simpl.
    destruct (filter _ (contacts s)) as [|c0 l]; [discriminate|]. simpl.
    destruct (findContactById (id c0) (contacts s)); simpl;
      settle_status Hbad Hbad' H429; eexists; split; reflexivity.
  - intros orderData consent Hnone. unfold firstMatch in Hnone.
    unfold Backfill.syncToKeap, Backfill.findKeapContact. simpl.
    unfold failsWithStatus, bind, fetch, throw, ret; simpl.
    destruct (filter _ (contacts s)) as [|c0 l]; [|discriminate]. simpl.
    settle_status Hbad Hbad' H429. eexists; split; reflexivity.
  - intros orderData consent c Hsome. unfold firstMatch in Hsome.
    unfold Backfill.syncToKeap, Backfill.findKeapContact. simpl.
    unfold failsWithStatus, bind, fetch, throw, ret; simpl.
    destruct (filter _ (contacts s)) as [|c0 l]; [discriminate|]. simpl.
    settle_status Hbad Hbad' H429. eexists; split; reflexivity.
  - intros env today e tn ty c Htok Hsome. unfold firstMatch in Hsome.
    unfold Tracking.updateTrackingInKeap. rewrite Htok.
    unfold failsWithStatus, bind, fetch, throw, ret; simpl.
    destruct (filter _ (contacts s)) as [|c0 l]; [discriminate|]. simpl.
    settle_status Hbad Hbad' H429. eexists; split; reflexivity.
Qed.

(** ** The two syncs side by side *)

(** Whatever the store holds, the payload of the backfill sync carries
    the amount of this order as the total spent. *)
Lemma backfill_payload_total_is_amount_paid orderData emailConsent :
  findField TOTAL_SPENT
    (p_custom_fields (Backfill.contactPayloadOf orderData emailConsent))
  = Some (mkField TOTAL_SPENT (Some (toFixed2 (Backfill.o_amountPaid orderData)))).
Proof.
  unfold Backfill.contactPayloadOf.
  destruct (splitName (Backfill.o_name orderData)) as [firstName lastName].
  reflexivity.
Qed.

Lemma productTags_known cartItems t :
  In t (productTags cartItems) ->
  t = "Destiny Cards - Cards Only" \/ t = "Destiny Cards - Cards + Book Bundle".
Proof.
  induction cartItems as [|item rest IH]; simpl; [tauto|].
  destruct (String.eqb (productId item) "cards-only");
    [intros [<-|H]; auto|].
  destruct (String.eqb (productId item) "cards-book-bundle");
    [intros [<-|H]; auto | auto].
Qed.

(** The tags of the backfill sync never include the repeat-customer
    tag, whether or not the contact existed. *)
Lemma backfill_tags_without_repeat_customer orderData :
  month_year (Backfill.o_created orderData) <> "Repeat Customer" ->
  ~ In repeatCustomerTag (Backfill.tagsOfOrder orderData).
Proof.
  intros Hmonth Hin. unfold Backfill.tagsOfOrder in Hin.
  apply in_app_or in Hin. destruct Hin as [Hin|Hin].
  { simpl in Hin. repeat (destruct Hin as [Hin|Hin]; [discriminate|]). exact Hin. }
  apply in_app_or in Hin. destruct Hin as [Hin|Hin].
  { apply productTags_known in Hin. destruct Hin; discriminate. }
  apply in_app_or in Hin. destruct Hin as [Hin|Hin].
  { destruct (Backfill.o_hasPreOrder orderData); simpl in Hin;
      repeat (destruct Hin as [Hin|Hin]; [discriminate|]); exact Hin. }
  simpl in Hin. destruct Hin as [Hin|[]].
  unfold dateTag, repeatCustomerTag in Hin. simpl in Hin.
  apply Hmonth. now injection Hin.
Qed.

(** C1.  Total spent is not added up by the backfill sync.  The contact
    has 20.00 on record when the second order, of 60.00, is synced.
    [syncToKeap] writes 60.00, and so does a live backfill run whose
    guard lookup is answered with a 500; [integrateWithKeap], on the same
    contact and order, writes 80.00. *)
Theorem backfill_sync_overwrites_total_spent :
  contentOf (crm Sample.afterFirst) 1 TOTAL_SPENT = Some "20.00"
  /\ contentOf
       (crm (snd (Backfill.syncToKeap Sample.backfillOrder false Sample.afterFirst)))
       1 TOTAL_SPENT = Some "60.00"
  /\ contentOf
       (crm (snd (Backfill.handler Sample.env Sample.stripe Sample.liveRun Sample.flaky)))
       1 TOTAL_SPENT = Some "60.00"
  /\ contentOf
       (crm (snd (Webhook.integrateWithKeap Sample.env Sample.feb Sample.secondOrder
                    Sample.afterFirst)))
       1 TOTAL_SPENT = Some "80.00".
Proof. repeat split; vm_compute; reflexivity. Qed.

(** C6.  The backfill sync leaves out the repeat-customer tag.  The
    contact exists, without order data, before a live backfill run syncs
    an order for it: the tags applied are the three base tags, the bundle
    tag, the two pre-order tags and the month tag.  The webhook sync of
    the same order to the same contact applies the repeat-customer tag as
    well. *)
Theorem backfill_sync_omits_repeat_customer_tag :
  firstMatch "a@example.com" (crm Sample.subscriber) <> None
  /\ tagNames
       (crm (snd (Backfill.handler Sample.env Sample.stripe Sample.liveRun
                    Sample.subscriber))) 1
     = [ "Destiny Cards - Order Received";
         "Destiny Cards - 1st Edition";
         "Destiny Cards - Awaiting Shipment";
         "Destiny Cards - Cards + Book Bundle";
         "Destiny Cards - Pre-Order (Book Ships March 2026)";
         "Destiny Cards - Pending Book Shipment";
         "Destiny Cards - February 2026" ]
  /\ tagNames
       (crm (snd (Webhook.integrateWithKeap Sample.env Sample.feb Sample.secondOrder
                    Sample.subscriber))) 1
     = [ "Destiny Cards - Order Received";
         "Destiny Cards - 1st Edition";
         "Destiny Cards - Awaiting Shipment";
         "Destiny Cards - Repeat Customer";
         "Destiny Cards - Cards + Book Bundle";
         "Destiny Cards - Pre-Order (Book Ships March 2026)";
         "Destiny Cards - Pending Book Shipment";
         "Destiny Cards - February 2026" ].
Proof. repeat split; try discriminate; vm_compute; reflexivity. Qed.

(** C2, as stated, fails on a repeated sync.  The webhook syncs the
    same order twice, as it does when both the completed and the
    async-payment-succeeded event arrive for one session: the history
    holds two entries for one distinct payment id. *)
Lemma resync_adds_a_second_entry :
  let w1 := snd (Webhook.integrateWithKeap Sample.env Sample.jan Sample.firstOrder
                   Sample.fresh) in
  let w2 := snd (Webhook.integrateWithKeap Sample.env Sample.jan Sample.firstOrder w1) in
  exists history,
    contentOf (crm w2) 1 ORDER_HISTORY = Some history
    /\ List.length (entriesOf history) = 2%nat
    /\ List.length (distinctPaymentIds [Sample.firstOrder; Sample.firstOrder]) = 1%nat
    /\ List.length (entriesOf history)
       <> List.length (distinctPaymentIds [Sample.firstOrder; Sample.firstOrder]).
Proof.
  eexists. split; [vm_compute; reflexivity|].
  split; [vm_compute; reflexivity|].
  split; [vm_compute; reflexivity|].
  vm_compute. discriminate.
Qed.

(** ** Order history through the webhook *)

Lemma firstMatchId_alt e cs :
  option_map id (hd_error (filter (fun c => String.eqb (email c) e) cs))
  = option_map fst (find (fun p => String.eqb (snd p) e) (map keyOf cs)).
Proof.
  induction cs as [|a cs IH]; simpl; [reflexivity|].
  destruct (String.eqb (email a) e); simpl; auto.
Qed.

Lemma firstMatchId_keys e s s' :
  map keyOf (contacts s') = map keyOf (contacts s) ->
  firstMatchId e s' = firstMatchId e s.
Proof.
  intros H. unfold firstMatchId, firstMatch. now rewrite !firstMatchId_alt, H.
Qed.

Lemma fetch_quiet (r : Request) (w : World) :
  pending w = [] ->
  fetch r w = (Ok (fst (perform r (crm w))),
               mkWorld (snd (perform r (crm w))) [] (trace w ++ [r])).
Proof.
  intros Hq. unfold fetch. rewrite Hq. simpl. destruct (perform r (crm w)); reflexivity.
Qed.

Lemma webhook_tags_keep_fields now b data cid :
  preserves fieldsKept
    (forEach (Webhook.tagsOfOrder now b data) (Webhook.applyOneTag cid) tt).
Proof.
  apply (preserves_forEach _ fieldsKept_refl fieldsKept_trans). intros x s.
  unfold Webhook.applyOneTag, Webhook.getOrCreateTag, Webhook.applyTagToContact.
  kept.
Qed.

Lemma bind_ok {A B} (m : M A) (k : A -> M B) w a w1 :
  m w = (Ok a, w1) -> bind m k w = k a w1.
Proof. intros H. unfold bind. now rewrite H. Qed.

Lemma webhook_applyOneTag_returns cid name u w :
  exists w', Webhook.applyOneTag cid name u w = (Ok tt, w').
Proof.
  unfold Webhook.applyOneTag, tryCatch.
  destruct (bind _ _ w) as [[[]|err] w']; unfold ret; eauto.
Qed.

Lemma webhook_tags_return cid names : forall w,
  exists w', forEach names (Webhook.applyOneTag cid) tt w = (Ok tt, w').
Proof.
  induction names as [|name names IH]; intros w; simpl.
  - unfold ret. eauto.
  - destruct (webhook_applyOneTag_returns cid name tt w) as (w1 & H1).
    rewrite (bind_ok _ _ _ _ _ H1). apply IH.
Qed.

Lemma firstMatchId_mapContact e cid (f : Contact -> Contact) cs :
  (forall c, id (f c) = id c) ->
  (forall c, email (f c) = e) ->
  option_map id (hd_error (filter (fun c => String.eqb (email c) e) cs)) = Some cid ->
  option_map id
    (hd_error (filter (fun c => String.eqb (email c) e) (mapContact cid f cs)))
  = Some cid.
Proof.
  intros Hid Hmail. unfold mapContact.
  induction cs as [|a cs IH]; simpl; [auto|].
  destruct (id a =? cid) eqn:Ha.
  - intros _. rewrite Hmail, String.eqb_refl. simpl. rewrite Hid.
    f_equal. now apply Z.eqb_eq.
  - destruct (String.eqb (email a) e); simpl; auto.
Qed.

Lemma nonEmpty_app_l a b : nonEmpty a = true -> nonEmpty (a ++ b) = true.
Proof. destruct a; [discriminate | reflexivity]. Qed.

Lemma nonEmpty_app_r a b : nonEmpty b = true -> nonEmpty (a ++ b) = true.
Proof. destruct a; [auto | reflexivity]. Qed.

Lemma thisOrderEntry_nonEmpty now data :
  nonEmpty (Webhook.thisOrderEntry now data) = true.
Proof. unfold Webhook.thisOrderEntry. apply nonEmpty_app_r. reflexivity. Qed.

Opaque forEach.

Lemma toFixed2_nonEmpty x : nonEmpty (toFixed2 x) = true.
Proof. unfold toFixed2. do 2 apply nonEmpty_app_r. reflexivity. Qed.

Lemma webhook_sync_prepends env now data cid h t w :
  truthy (KEAP_ACCESS_TOKEN env) = true ->
  nonEmpty h = true ->
  nonEmpty t = true ->
  onRecord (Webhook.i_email data) cid h t w ->
  exists w',
    Webhook.integrateWithKeap env now data w = (Ok (mkSyncResult true cid), w')
    /\ onRecord (Webhook.i_email data) cid
         (Webhook.thisOrderEntry now data ++ historySeparator ++ h)
         (toFixed2 (decAdd (parseFloatOr0 t) (Webhook.amountPaid data))) w'.
Proof.
  intros Htok Hne Hnt (Hq & Hfm & Hh & Ht).
  unfold contentOf, fieldOf in Hh, Ht.
  destruct (findContactById cid (contacts (crm w))) as [c'|] eqn:Hc'; [|discriminate].
  destruct (findField ORDER_HISTORY (custom_fields c')) as [f|] eqn:Hf; [|discriminate].
  destruct (findField TOTAL_SPENT (custom_fields c')) as [g|] eqn:Hg; [|discriminate].
  unfold firstMatchId, firstMatch in Hfm.
  destruct (filter _ (contacts (crm w))) as [|c rest] eqn:Hfilter; [discriminate|].
  simpl in Hfm. injection Hfm as Hcid.
  unfold Webhook.integrateWithKeap. rewrite Htok. cbn [negb].
  erewrite bind_ok by (apply fetch_quiet; exact Hq).
  unfold ok at 1. simpl. rewrite Hfilter. simpl. rewrite Hcid.
  erewrite bind_ok.
  2:{ erewrite bind_ok by (apply fetch_quiet; reflexivity).
      simpl. rewrite Hc'. unfold ok. simpl. unfold ret. reflexivity. }
  unfold Webhook.mergeHistory, Webhook.mergeTotal. rewrite Hf, Hh, Hne, Hg, Ht, Hnt.
  erewrite bind_ok.
  2:{ erewrite bind_ok by (apply fetch_quiet; reflexivity).
      simpl. rewrite Hc'. unfold ok. simpl. unfold ret. reflexivity. }
  match goal with
  | |- context [bind (forEach ?names ?body tt) ?k ?w2] =>
      destruct (webhook_tags_return cid names w2) as (w3 & Hloop);
        pose proof (webhook_tags_keep_fields now true data cid w2) as Hkept
  end.
  rewrite (bind_ok _ _ _ _ _ Hloop). unfold ret. exists w3. split; [reflexivity|].
  rewrite Hloop in Hkept. simpl in Hkept.
  destruct Hkept as (Hsame & _ & Hkeys & Hquiet).
  assert (Hfield : forall i,
            fieldOf (crm w3) cid i
            = findField i
                (mergeFields
                   (Webhook.customFieldsOf now data
                      (Webhook.thisOrderEntry now data ++ historySeparator ++ h)
                      (decAdd (parseFloatOr0 t) (Webhook.amountPaid data)))
                   (custom_fields c'))).
  { intros i. rewrite Hsame. unfold fieldOf. simpl.
    rewrite findContactById_mapContact by reflexivity. rewrite Hc'. simpl.
    rewrite (findContactById_id _ _ _ Hc'), Z.eqb_refl. reflexivity. }
  split; [apply Hquiet; reflexivity|]. split; [|split].
  - rewrite (firstMatchId_keys _ _ _ Hkeys). unfold firstMatchId, firstMatch. simpl.
    apply firstMatchId_mapContact; [reflexivity | reflexivity |].
    rewrite Hfilter. simpl. congruence.
  - unfold contentOf. rewrite Hfield. unfold mergeFields. simpl.
    rewrite !findField_setField. reflexivity.
  - unfold contentOf. rewrite Hfield. unfold mergeFields. simpl.
    rewrite !findField_setField. reflexivity.
Qed.

Lemma find_app_none {A} (p : A -> bool) l l' :
  find p l = None -> find p (l ++ l') = find p l'.
Proof.
  induction l as [|a l IH]; simpl; [reflexivity|].
  destruct (p a); [discriminate | exact IH].
Qed.

Lemma webhook_sync_creates env now data w :
  truthy (KEAP_ACCESS_TOKEN env) = true ->
  pending w = [] ->
  firstMatch (Webhook.i_email data) (crm w) = None ->
  findContactById (next_id (crm w)) (contacts (crm w)) = None ->
  exists w',
    Webhook.integrateWithKeap env now data w
    = (Ok (mkSyncResult true (next_id (crm w))), w')
    /\ onRecord (Webhook.i_email data) (next_id (crm w))
         (Webhook.thisOrderEntry now data) (toFixed2 (Webhook.amountPaid data)) w'.
Proof.
  intros Htok Hq Hnone Hfresh.
  apply firstMatch_none in Hnone.
  unfold Webhook.integrateWithKeap. rewrite Htok. cbn [negb].
  erewrite bind_ok by (apply fetch_quiet; exact Hq).
  unfold ok at 1. simpl. rewrite Hnone. simpl.
  erewrite bind_ok by reflexivity. cbv beta iota.
  erewrite bind_ok.
  2:{ erewrite bind_ok by (apply fetch_quiet; reflexivity).
      simpl. unfold ok. simpl. unfold ret. reflexivity. }
  match goal with
  | |- context [bind (forEach ?names ?body tt) ?k ?w2] =>
      destruct (webhook_tags_return (next_id (crm w)) names w2) as (w3 & Hloop);
        pose proof (webhook_tags_keep_fields now false data (next_id (crm w)) w2)
          as Hkept
  end.
  rewrite (bind_ok _ _ _ _ _ Hloop). unfold ret. exists w3. split; [reflexivity|].
  rewrite Hloop in Hkept. simpl in Hkept.
  destruct Hkept as (Hsame & _ & Hkeys & Hquiet).
  split; [apply Hquiet; reflexivity|]. split; [|split].
  - rewrite (firstMatchId_keys _ _ _ Hkeys). unfold firstMatchId, firstMatch. simpl.
    rewrite filter_app, Hnone. simpl. rewrite String.eqb_refl. reflexivity.
  - unfold contentOf. rewrite Hsame. unfold fieldOf, findContactById. simpl.
    rewrite find_app_none by exact Hfresh. simpl. rewrite Z.eqb_refl. reflexivity.
  - unfold contentOf. rewrite Hsame. unfold fieldOf, findContactById. simpl.
    rewrite find_app_none by exact Hfresh. simpl. rewrite Z.eqb_refl. reflexivity.
Qed.

Transparent forEach.

Lemma join_cons sep x y l : join sep (x :: y :: l) = x ++ sep ++ join sep (y :: l).
Proof. reflexivity. Qed.

Lemma syncAll_on_record env e cid orders : forall hist t w,
  truthy (KEAP_ACCESS_TOKEN env) = true ->
  Forall (fun o => Webhook.i_email (snd o) = e) orders ->
  hist <> [] ->
  nonEmpty (join historySeparator hist) = true ->
  nonEmpty t = true ->
  onRecord e cid (join historySeparator hist) t w ->
  onRecord e cid (join historySeparator (rev (map entryOf orders) ++ hist))
    (totalAfter t orders) (syncAll env orders w).
Proof.
  induction orders as [|[now data] orders IH]; intros hist t w Htok Hall Hhist Hne Hnt Hrec.
  - exact Hrec.
  - inversion Hall as [|o os Hmail Hrest]; subst. simpl in *.
    destruct (webhook_sync_prepends env now data cid _ _ w Htok Hne Hnt Hrec)
      as (w' & Hrun & Hrec').
    cbn [syncAll totalAfter map rev]. rewrite Hrun. cbn [snd].
    rewrite <- app_assoc. cbn [app].
    apply IH; auto.
    + discriminate.
    + destruct hist as [|y l]; [now elim Hhist|]. rewrite join_cons.
      apply nonEmpty_app_l, thisOrderEntry_nonEmpty.
    + apply toFixed2_nonEmpty.
    + destruct hist as [|y l]; [now elim Hhist|]. rewrite join_cons. exact Hrec'.
Qed.

(** C2, as amended.  Through the webhook sync, with the CRM answering
    every request, each sync of an order for an email adds one entry at
    the head of the contact's order history.  From a store without a
    contact for the email, the history after the syncs is their entries,
    newest first, joined by the separator: after R1 and then R2 it is the
    entry of R2, the separator, the entry of R1.  Payment ids play no
    part: an order synced again adds another entry. *)
Theorem webhook_history_newest_first :
  forall env e first rest w,
    truthy (KEAP_ACCESS_TOKEN env) = true ->
    pending w = [] ->
    firstMatch e (crm w) = None ->
    findContactById (next_id (crm w)) (contacts (crm w)) = None ->
    Forall (fun o => Webhook.i_email (snd o) = e) (first :: rest) ->
    exists cid,
      firstMatchId e (crm (syncAll env (first :: rest) w)) = Some cid
      /\ contentOf (crm (syncAll env (first :: rest) w)) cid ORDER_HISTORY
         = Some (join historySeparator (rev (map entryOf (first :: rest))))
      /\ (forall second,
             rest = [second] ->
             contentOf (crm (syncAll env (first :: rest) w)) cid ORDER_HISTORY
             = Some (entryOf second ++ historySeparator ++ entryOf first)).
Proof.
  intros env e [now data] rest w Htok Hq Hnone Hfresh Hall.
  inversion Hall as [|o os Hmail Hrest]; subst. simpl in Hnone.
  destruct (webhook_sync_creates env now data w Htok Hq Hnone Hfresh)
    as (w1 & Hrun & Hrec).
  pose proof (syncAll_on_record env (Webhook.i_email data) (next_id (crm w)) rest
                [entryOf (now, data)] (toFixed2 (Webhook.amountPaid data)) w1 Htok Hrest)
    as Hall'.
  cbn [syncAll]. rewrite Hrun. cbn [snd].
  destruct Hall' as (_ & Hfm & Hh & _).
  - discriminate.
  - apply thisOrderEntry_nonEmpty.
  - apply toFixed2_nonEmpty.
  - exact Hrec.
  - exists (next_id (crm w)). split; [exact Hfm|]. split; [exact Hh|].
    intros second ->. exact Hh.
Qed.

Lemma webhook_history_newest_first_witness :
  truthy (KEAP_ACCESS_TOKEN Sample.env) = true
  /\ pending Sample.fresh = []
  /\ exists cid,
       firstMatchId "a@example.com"
         (crm (syncAll Sample.env
                 [(Sample.jan, Sample.firstOrder); (Sample.feb, Sample.secondOrder)]
                 Sample.fresh)) = Some cid
       /\ contentOf
            (crm (syncAll Sample.env
                    [(Sample.jan, Sample.firstOrder); (Sample.feb, Sample.secondOrder)]
                    Sample.fresh)) cid ORDER_HISTORY
          = Some (entryOf (Sample.feb, Sample.secondOrder) ++ historySeparator
                    ++ entryOf (Sample.jan, Sample.firstOrder))
       /\ entriesOf (entryOf (Sample.feb, Sample.secondOrder) ++ historySeparator
                       ++ entryOf (Sample.jan, Sample.firstOrder))
          = [ "Feb 9, 2026: 1x Destiny Cards + Book ($60.00)";
              "Jan 5, 2026: 1x Destiny Cards ($20.00)" ].
Proof.
  split; [reflexivity|]. split; [reflexivity|].
  destruct (webhook_history_newest_first Sample.env "a@example.com"
              (Sample.jan, Sample.firstOrder) [(Sample.feb, Sample.secondOrder)]
              Sample.fresh eq_refl eq_refl eq_refl eq_refl)
    as (cid & Hfm & _ & Htwo).
  - repeat constructor.
  - exists cid. split; [exact Hfm|]. split; [exact (Htwo _ eq_refl) | reflexivity].
Defined.

(** ** Total spent through the webhook *)

Lemma readDigits_digit c s acc n v :
  isDigit c = true ->
  Z.of_nat (nat_of_ascii c) - 48 = v ->
  readDigits (String c s) acc n = readDigits s (10 * acc + v) (S n).
Proof. intros H <-. cbn [readDigits]. now rewrite H. Qed.

Lemma readDigits_string_of_uint (d : Decimal.uint) : forall rest acc n,
  readDigits (NilEmpty.string_of_uint d ++ rest) acc n
  = readDigits rest (uvalue d acc) (n + Decimal.nb_digits d).
Proof.
  induction d; intros rest acc n;
    cbn [NilEmpty.string_of_uint append uvalue Decimal.nb_digits];
    try (erewrite readDigits_digit by (vm_compute; reflexivity);
         rewrite IHd, Nat.add_succ_r, ?Z.add_0_r; reflexivity).
  now rewrite Nat.add_0_r.
Qed.

Lemma of_uint_acc_uvalue (d : Decimal.uint) : forall acc,
  Zpos (Pos.of_uint_acc d acc) = uvalue d (Zpos acc).
Proof.
  induction d; intros acc; cbn -[Z.mul Z.add Pos.mul Pos.add];
    try reflexivity; rewrite IHd; f_equal; lia.
Qed.

Lemma of_uint_uvalue (d : Decimal.uint) : Z.of_N (Pos.of_uint d) = uvalue d 0.
Proof.
  induction d; cbn -[Z.mul Z.add]; try reflexivity; try exact IHd;
    apply of_uint_acc_uvalue.
Qed.

Lemma showZ_pos (p : positive) :
  showZ (Zpos p) = NilEmpty.string_of_uint (Pos.to_uint p).
Proof.
  unfold showZ. simpl. unfold NilZero.string_of_uint.
  destruct (Pos.to_uint p) eqn:Hd; try reflexivity.
  now elim (DecimalPos.Unsigned.to_uint_nonnil p).
Qed.

(** The digits [showZ] prints are read back to the number, and there is
    at least one of them. *)
Lemma readDigits_showZ (q : Z) (rest : string) :
  0 <= q ->
  exists k, readDigits (showZ q ++ rest) 0 0%nat = readDigits rest q (S k).
Proof.
  intros Hq. destruct q as [|p|p]; [| |lia].
  - exists 0%nat. reflexivity.
  - rewrite showZ_pos, readDigits_string_of_uint.
    rewrite <- of_uint_uvalue, DecimalPos.Unsigned.of_to. simpl.
    destruct (Pos.to_uint p) eqn:Hd; simpl; eauto.
    now elim (DecimalPos.Unsigned.to_uint_nonnil p).
Qed.

(** [showZ] of a number that is not negative starts with a digit. *)
Lemma showZ_head (q : Z) :
  0 <= q -> exists c s, showZ q = String c s /\ isDigit c = true.
Proof.
  intros Hq. destruct q as [|p|p]; [| |lia].
  - exists "0"%char, EmptyString. split; reflexivity.
  - rewrite showZ_pos.
    destruct (Pos.to_uint p) eqn:Hd; simpl; eauto.
    now elim (DecimalPos.Unsigned.to_uint_nonnil p).
Qed.

Lemma digit_is_plain (c : ascii) :
  isDigit c = true ->
  isSpace c = false /\ Ascii.eqb c "-" = false /\ Ascii.eqb c "+" = false
  /\ Ascii.eqb c "." = false.
Proof.
  destruct c as [[] [] [] [] [] [] [] []]; vm_compute; intros H;
    try discriminate; auto.
Qed.

Lemma digitChar_spec (d : Z) :
  0 <= d <= 9 ->
  isDigit (digitChar d) = true /\ Z.of_nat (nat_of_ascii (digitChar d)) - 48 = d.
Proof.
  intros Hd.
  assert (H : d = 0 \/ d = 1 \/ d = 2 \/ d = 3 \/ d = 4 \/ d = 5 \/ d = 6 \/ d = 7
              \/ d = 8 \/ d = 9) by lia.
  repeat (destruct H as [H|H]; [subst d; split; reflexivity|]).
  subst d; split; reflexivity.
Qed.

(** What [toFixed2] prints for a whole number of cents. *)
Lemma toFixed2_cents (c : Z) :
  0 <= c ->
  toFixed2 (cents c)
  = showZ (c / 100) ++ "."
      ++ String (digitChar ((c mod 100) / 10))
           (String (digitChar (c mod 10)) EmptyString).
Proof.
  intros Hc. unfold toFixed2, cents. cbn [mant scale].
  change (pow10 2) with 100.
  replace (mant {| mant := c; scale := 2 |}) with c by reflexivity.
  rewrite Z.abs_eq by exact Hc.
  replace ((2 * c * 100 + 100) / (2 * 100)) with c.
  2:{ apply Z.div_unique with (r := 100); lia. }
  destruct (Z.ltb_spec c 0); [lia|]. reflexivity.
Qed.

(** Reading back what [toFixed2] printed for a whole number of cents. *)
Lemma parseFloat_toFixed2 (c : Z) :
  0 <= c -> parseFloat (toFixed2 (cents c)) = Some (cents c).
Proof.
  intros Hc. rewrite toFixed2_cents by exact Hc.
  assert (Hq : 0 <= c / 100) by (apply Z.div_pos; lia).
  destruct (showZ_head _ Hq) as (ch & s & Hhead & Hdig).
  destruct (digit_is_plain _ Hdig) as (Hsp & Hminus & Hplus & _).
  destruct (readDigits_showZ (c / 100)
              ("." ++ String (digitChar ((c mod 100) / 10))
                        (String (digitChar (c mod 10)) EmptyString)) Hq)
    as (k & Hread).
  assert (H1 : 0 <= (c mod 100) / 10 <= 9).
  { pose proof (Z.mod_pos_bound c 100 ltac:(lia)).
    split; [apply Z.div_pos; lia|].
    assert ((c mod 100) / 10 < 10) by (apply Z.div_lt_upper_bound; lia). lia. }
  assert (H2 : 0 <= c mod 10 <= 9) by (pose proof (Z.mod_pos_bound c 10 ltac:(lia)); lia).
  destruct (digitChar_spec _ H1) as (Hd1 & Hv1).
  destruct (digitChar_spec _ H2) as (Hd2 & Hv2).
  unfold parseFloat.
  assert (Hskip : skipSpaces (showZ (c / 100) ++ "."
                    ++ String (digitChar ((c mod 100) / 10))
                         (String (digitChar (c mod 10)) EmptyString))
                  = showZ (c / 100) ++ "."
                    ++ String (digitChar ((c mod 100) / 10))
                         (String (digitChar (c mod 10)) EmptyString)).
  { rewrite Hhead. cbn [append skipSpaces]. now rewrite Hsp. }
  rewrite Hskip.
  assert (Hsign : forall (r : string),
            match showZ (c / 100) ++ r with
            | String c0 r0 =>
                if Ascii.eqb c0 "-" then (true, r0)
                else if Ascii.eqb c0 "+" then (false, r0)
                else (false, showZ (c / 100) ++ r)
            | EmptyString => (false, showZ (c / 100) ++ r)
            end = (false, showZ (c / 100) ++ r)).
  { intros r. rewrite Hhead. cbn [append]. now rewrite Hminus, Hplus. }
  rewrite Hsign, Hread.
  cbn [append readDigits]. change (isDigit ".") with false. cbv iota.
  change (Ascii.eqb "." ".") with true. cbv iota.
  erewrite readDigits_digit by (exact Hd1 || exact Hv1).
  erewrite readDigits_digit by (exact Hd2 || exact Hv2).
  cbn [readDigits Nat.eqb andb]. unfold cents. f_equal. f_equal.
  clear. Z.div_mod_to_equations. lia.
Qed.

(** The total on record plus the amount paid, for whole cents. *)
Lemma total_plus_paid (total paid : Z) :
  0 <= total ->
  decAdd (parseFloatOr0 (toFixed2 (cents total))) (cents paid) = cents (total + paid).
Proof.
  intros Ht. unfold parseFloatOr0. rewrite parseFloat_toFixed2 by exact Ht.
  cbn [mant cents]. destruct (Z.eqb_spec total 0) as [->|Hne];
    unfold decAdd, cents, decZero; cbn [mant scale Nat.max Nat.sub];
    change (pow10 0) with 1; change (pow10 2) with 100; f_equal; lia.
Qed.

Lemma totalAfter_cents orders : forall amounts total,
  0 <= total ->
  paidInCents orders amounts ->
  totalAfter (toFixed2 (cents total)) orders = toFixed2 (cents (total + sumZ amounts)).
Proof.
  induction orders as [|[now data] orders IH]; intros amounts total Ht [Hmap Hpos].
  - destruct amounts; [|discriminate]. simpl. now rewrite Z.add_0_r.
  - destruct amounts as [|a amounts]; [discriminate|].
    simpl in Hmap. injection Hmap as Ha Hmap.
    inversion Hpos as [|x l Hx Hl]; subst.
    cbn [totalAfter]. rewrite Ha, total_plus_paid by exact Ht.
    rewrite (IH amounts) by (try split; auto; lia).
    f_equal. f_equal. simpl. lia.
Qed.

(** Total spent through the webhook sync.  With the CRM answering every
    request, the sync of an order for a contact with total [t] on record
    writes [t], read as a decimal or taken as 0, plus the amount paid,
    to two decimals; for a new contact it writes the amount paid.  After
    the syncs of orders paid in whole cents, from a store without a
    contact for the email, the total on record is the sum of the
    amounts. *)
Lemma webhook_total_spent_adds_up :
  forall env e first rest amounts w,
    truthy (KEAP_ACCESS_TOKEN env) = true ->
    pending w = [] ->
    firstMatch e (crm w) = None ->
    findContactById (next_id (crm w)) (contacts (crm w)) = None ->
    Forall (fun o => Webhook.i_email (snd o) = e) (first :: rest) ->
    paidInCents (first :: rest) amounts ->
    exists cid,
      firstMatchId e (crm (syncAll env (first :: rest) w)) = Some cid
      /\ contentOf (crm (syncAll env (first :: rest) w)) cid TOTAL_SPENT
         = Some (toFixed2 (cents (sumZ amounts))).
Proof.
  intros env e [now data] rest amounts w Htok Hq Hnone Hfresh Hall [Hmap Hpos].
  inversion Hall as [|o os Hmail Hrest]; subst. simpl in Hnone.
  destruct amounts as [|a amounts]; [discriminate|].
  simpl in Hmap. injection Hmap as Ha Hmap.
  inversion Hpos as [|x l Hx Hl]; subst.
  destruct (webhook_sync_creates env now data w Htok Hq Hnone Hfresh)
    as (w1 & Hrun & Hrec).
  pose proof (syncAll_on_record env (Webhook.i_email data) (next_id (crm w)) rest
                [entryOf (now, data)] (toFixed2 (Webhook.amountPaid data)) w1 Htok Hrest)
    as Hall'.
  cbn [syncAll]. rewrite Hrun. cbn [snd].
  destruct Hall' as (_ & Hfm & _ & Htotal).
  - discriminate.
  - apply thisOrderEntry_nonEmpty.
  - apply toFixed2_nonEmpty.
  - exact Hrec.
  - exists (next_id (crm w)). split; [exact Hfm|].
    rewrite Htotal, Ha. rewrite (totalAfter_cents rest amounts a Hx) by (split; auto).
    reflexivity.
Qed.

(** ** The fulfilment status of a listed order *)

(** A request is performed when the provider answers it with a success
    status, and refused with the pending status otherwise. *)
Lemma fetch_now (r : Request) (w : World) :
  fetch r w
  = (if answeredNow (pending w)
     then (Ok (fst (perform r (crm w))),
           mkWorld (snd (perform r (crm w))) (tl (pending w)) (trace w ++ [r]))
     else (Ok (mkResponse (hd 0 (pending w)) NoBody),
           mkWorld (crm w) (tl (pending w)) (trace w ++ [r])))
  /\ (answeredNow (pending w) = false -> ok (mkResponse (hd 0 (pending w)) NoBody) = false).
Proof.
  unfold fetch, answeredNow. destruct (pending w) as [|st rest]; cbn [hd tl].
  - destruct (perform r (crm w)). split; [reflexivity | discriminate].
  - destruct (ok (mkResponse st NoBody)) eqn:Hok.
    + destruct (perform r (crm w)). split; [reflexivity | discriminate].
    + split; [reflexivity | auto].
Qed.

(** The fulfilment object of an order: it is always built, its status
    follows from its flags, and its flags are those of the contact that
    was read, or false when none was. *)
Lemma fulfillmentOf_derivation env (customerEmail : option string) (hasPreOrder : bool) w :
  exists f w',
    Orders.fulfillmentOf env customerEmail hasPreOrder w = (Ok f, w')
    /\ Orders.f_status f
       = (if Orders.f_cardsShipped f
          then if hasPreOrder
               then if Orders.f_bookShipped f then "fulfilled" else "partial"
               else "fulfilled"
          else "pending")
    /\ match contactRead env customerEmail w with
       | Some c =>
           (Orders.f_cardsShipped f = true <-> fieldFilled 315 (custom_fields c))
           /\ (Orders.f_bookShipped f = true <-> fieldFilled 319 (custom_fields c))
       | None => Orders.f_cardsShipped f = false /\ Orders.f_bookShipped f = false
       end.
Proof.
  assert (Hstatus : forall h c b,
             Orders.fulfillmentStatus h c b
             = (if c then if h then if b then "fulfilled" else "partial" else "fulfilled"
                else "pending")).
  { intros [] [] []; reflexivity. }
  unfold Orders.fulfillmentOf, contactRead.
  destruct (truthy (KEAP_ACCESS_TOKEN env) && truthy customerEmail) eqn:Hask;
    cbn [andb].
  - unfold bind at 1, tryCatch, Orders.getKeapFulfillmentStatus. unfold bind at 1.
    destruct (fetch_now (SearchContacts (orElse customerEmail EmptyString) true) w)
      as [Hf Hbad]. rewrite Hf.
    destruct (answeredNow (pending w)).
    2:{ rewrite (Hbad eq_refl). cbn [negb]. unfold throw, ret.
        do 2 eexists. split; [reflexivity|]. cbn. rewrite Hstatus. auto. }
    + cbn [perform fst snd]. unfold ok. cbn [status body contactsOf].
      change ((200 <=? 200) && (200 <=? 299)) with true. cbn [negb].
      unfold firstMatch.
      destruct (filter (fun c => String.eqb (email c) (orElse customerEmail EmptyString))
                  (contacts (crm w))) as [|c l]; unfold ret; cbn [hd_error].
      * do 2 eexists. split; [reflexivity|]. cbn. rewrite Hstatus. auto.
      * do 2 eexists. split; [reflexivity|].
        cbn [Orders.f_status Orders.f_cardsShipped Orders.f_bookShipped
             Orders.statusOfFields Orders.cardsShipped Orders.bookShipped].
        rewrite Hstatus. split; [reflexivity|].
        split; apply shipped_spec.
  - unfold bind, ret. do 2 eexists. split; [reflexivity|]. cbn. rewrite Hstatus. auto.
Qed.

(** C5, as amended.  Every order the order list builds for a session
    that Stripe returns carries a fulfilment status that is a function
    of its pre-order flag and its two shipped flags: pending while the
    cards have not shipped; with a pre-order, partial when only the cards
    have shipped and fulfilled when both legs have; without one,
    fulfilled when the cards have shipped.  The flags are those of the
    contact that is read for the order: the first contact returned for
    the email of the customer, when the Keap token is configured, the
    order has an email, and the search is answered with a success status.
    A leg then counts as shipped exactly when the tracking field of that
    contact (315 for the cards, 319 for the book) is filled in.  When no
    contact is read, both legs count as not shipped.  The fulfilment
    check reports the same two flags for the contact it finds. *)
Theorem fulfillment_status_derivation :
  forall env w,
    (forall stripe session fullSession orders,
        retrieve stripe (s_id session) = Ok fullSession ->
        exists o w',
          GetOrders.pushOrder env stripe session orders w = (Ok (orders ++ [o])%list, w')
          /\ Orders.f_status (GetOrders.ord_fulfillment o)
             = (if Orders.f_cardsShipped (GetOrders.ord_fulfillment o)
                then if GetOrders.ord_hasPreOrder o
                     then if Orders.f_bookShipped (GetOrders.ord_fulfillment o)
                          then "fulfilled" else "partial"
                     else "fulfilled"
                else "pending")
          /\ match contactRead env (customer_email fullSession) w with
             | Some c =>
                 (Orders.f_cardsShipped (GetOrders.ord_fulfillment o) = true
                  <-> fieldFilled 315 (custom_fields c))
                 /\ (Orders.f_bookShipped (GetOrders.ord_fulfillment o) = true
                     <-> fieldFilled 319 (custom_fields c))
             | None =>
                 Orders.f_cardsShipped (GetOrders.ord_fulfillment o) = false
                 /\ Orders.f_bookShipped (GetOrders.ord_fulfillment o) = false
             end)
    /\ (forall event e c,
          httpMethod event = "GET" ->
          unauthorized env (authorization event) = false ->
          ebody event = Some e ->
          contactRead env (Some e) w = Some c ->
          exists cardsShipped bookShipped cardsTrackingNumber bookTrackingNumber,
            fst (Fulfillment.handler env event w)
            = Ok (Fulfillment.Found cardsShipped bookShipped
                    cardsTrackingNumber bookTrackingNumber)
            /\ (cardsShipped = true <-> fieldFilled 315 (custom_fields c))
            /\ (bookShipped = true <-> fieldFilled 319 (custom_fields c))).
Proof.
  intros env w. split.
  - intros stripe session fullSession orders Hret.
    unfold GetOrders.pushOrder. unfold bind at 1, liftRes. rewrite Hret.
    destruct (Backfill.cartOf session) as [cartItems hasPreOrder].
    destruct (fulfillmentOf_derivation env (customer_email fullSession) hasPreOrder w)
      as (f & w' & Hrun & Hstatus & Hflags).
    unfold bind. rewrite Hrun. unfold ret.
    do 2 eexists. split; [reflexivity|].
    cbn [GetOrders.orderOf GetOrders.ord_fulfillment GetOrders.ord_hasPreOrder].
    split; assumption.
  - intros event e c Hm Hauth Hbody Hread.
    unfold contactRead in Hread.
    destruct (truthy (KEAP_ACCESS_TOKEN env)) eqn:Htok; [|discriminate Hread].
    destruct (truthy (Some e)) eqn:He; [|discriminate Hread].
    destruct (answeredNow (pending w)) eqn:Hnow; [|discriminate Hread].
    cbn [andb orElse] in Hread.
    unfold Fulfillment.handler. rewrite Hm, Hauth, Hbody, He, Htok.
    cbn [String.eqb Ascii.eqb Bool.eqb negb orElse]. unfold tryCatch, bind.
    destruct (fetch_now (SearchContacts e true) w) as [Hf _]. rewrite Hf, Hnow.
    + cbn [perform fst snd]. unfold ok. cbn [status body contactsOf].
      change ((200 <=? 200) && (200 <=? 299)) with true. cbn [negb].
      unfold firstMatch in Hread.
      destruct (filter (fun c0 => String.eqb (email c0) e) (contacts (crm w))) as [|c0 l];
        [discriminate Hread|].
      cbn [hd_error] in Hread. injection Hread as ->.
      unfold ret. cbn [fst]. do 4 eexists. split; [reflexivity|].
      split; apply shipped_spec.
Qed.

(** C5, as stated, fails where the contact is not read.  The customer's
    cards have shipped, tracking field 315 is filled in, and the search
    for the contact is answered with a 500: the order is listed with the
    cards not shipped, as pending. *)
Lemma refused_lookup_lists_shipped_order_as_pending :
  let w := mkWorld (crm afterShipping) [500] [] in
  (exists c, firstMatch "a@example.com" (crm w) = Some c
             /\ fieldFilled 315 (custom_fields c))
  /\ exists o w',
       GetOrders.pushOrder Sample.env Sample.stripe Sample.session2 [] w = (Ok [o], w')
       /\ Orders.f_cardsShipped (GetOrders.ord_fulfillment o) = false
       /\ Orders.f_status (GetOrders.ord_fulfillment o) = "pending".
Proof.
  split.
  - exists shippedCustomer. split; [reflexivity|].
    exists (mkField 315 (Some "1Z999")), "1Z999".
    repeat split; try reflexivity. discriminate.
  - do 2 eexists. split; [vm_compute; reflexivity|]. split; reflexivity.
Qed.

(** The order of the sample customer, whose cards have shipped and whose
    book has not, is listed as partial. *)
Lemma fulfillment_status_derivation_witness :
  exists o w',
    GetOrders.pushOrder Sample.env Sample.stripe Sample.session2 [] afterShipping
    = (Ok [o], w')
    /\ Orders.f_cardsShipped (GetOrders.ord_fulfillment o) = true
    /\ Orders.f_bookShipped (GetOrders.ord_fulfillment o) = false
    /\ Orders.f_status (GetOrders.ord_fulfillment o) = "partial".
Proof.
  destruct (proj1 (fulfillment_status_derivation Sample.env afterShipping)
              Sample.stripe Sample.session2 Sample.session2 [] eq_refl)
    as (o & w' & Hrun & Hstatus & Hflags).
  exists o, w'. split; [exact Hrun|].
  assert (Ho : o = GetOrders.orderOf Sample.session2 Sample.session2 [Sample.bundle] true
                     (Orders.mkFulfillment "partial" true false (Some "1Z999") None)).
  { assert (Hc : GetOrders.pushOrder Sample.env Sample.stripe Sample.session2 []
                   afterShipping
                 = (Ok [GetOrders.orderOf Sample.session2 Sample.session2 [Sample.bundle]
                          true
                          (Orders.mkFulfillment "partial" true false (Some "1Z999") None)],
                    mkWorld (crm afterShipping) []
                      [SearchContacts "a@example.com" true]))
      by (vm_compute; reflexivity).
    rewrite Hc in Hrun. now injection Hrun as <- _. }
  rewrite Ho. repeat split.
Defined.

(** ** The theorems at work on the sample data *)

Lemma pair_eta_fst {A B} (p : A * B) (a : A) : fst p = a -> p = (a, snd p).
Proof. destruct p; simpl; intros ->; reflexivity. Qed.

Lemma backfill_skips_contact_with_payment_id_witness :
  lookupAnswered (pending Sample.throttled) = true
  /\ firstMatch "a@example.com" (crm Sample.throttled) = Some Sample.customer
  /\ exists results' w',
       Backfill.processSession false Sample.stripe "cs_2" Backfill.emptyResults
         Sample.throttled = (Ok results', w')
       /\ Backfill.skipped results' = 1%nat
       /\ Backfill.synced results' = 0%nat
       /\ writes (trace w') = [].
Proof.
  split; [reflexivity|]. split; [reflexivity|].
  destruct (backfill_skips_contact_with_payment_id false Sample.stripe "cs_2"
              Sample.session2 "a@example.com" Sample.customer Backfill.emptyResults
              Sample.throttled eq_refl eq_refl)
    as (r & w' & Hrun & Hsk & Hsy & _ & _ & _ & Hw).
  - discriminate.
  - reflexivity.
  - reflexivity.
  - exists (mkField 311 (Some "pi_1")), "pi_1". repeat split. discriminate.
  - exists r, w'. repeat split; assumption.
Defined.

Lemma dry_run_performs_no_writes_witness :
  crm (snd (Backfill.handler Sample.env Sample.stripe Sample.defaultRun Sample.subscriber))
  = crm Sample.subscriber
  /\ writes (trace (snd (Backfill.handler Sample.env Sample.stripe Sample.defaultRun
                           Sample.subscriber))) = [].
Proof.
  destruct (dry_run_performs_no_writes Sample.env Sample.stripe Sample.defaultRun
              Sample.subscriber) as (Hc & Hw & _).
  - intros o Ho. injection Ho as <-. discriminate.
  - split; assumption.
Defined.

Lemma update_tracking_unknown_email_witness :
  firstMatch "nobody@example.com" (crm Sample.subscriber) = None
  /\ fst (Tracking.updateTrackingInKeap Sample.env "2026-03-01" "nobody@example.com"
            "1Z999" "cards" Sample.subscriber)
     = Throw (NoContactFound "nobody@example.com")
  /\ writes (trace (snd (Tracking.updateTrackingInKeap Sample.env "2026-03-01"
                           "nobody@example.com" "1Z999" "cards" Sample.subscriber)))
     = [].
Proof.
  split; [reflexivity|].
  destruct (update_tracking_unknown_email Sample.env "2026-03-01" "nobody@example.com"
              "1Z999" "cards" Sample.subscriber eq_refl)
    as (_ & _ & Hw & Hnf).
  split; [exact (proj1 (Hnf eq_refl eq_refl)) | exact Hw].
Defined.

Lemma update_tracking_writes_only_leg_fields_witness :
  writesOnlyLeg Sample.subscriber
    (snd (Tracking.updateTrackingInKeap Sample.env "2026-03-01" "a@example.com"
            "1Z999" "book" Sample.subscriber))
    1 319 321 "1Z999" "2026-03-01".
Proof.
  apply (proj2 (update_tracking_writes_only_leg_fields Sample.env "2026-03-01"
                  "a@example.com" "1Z999" "book" Sample.subscriber 1 _
                  (pair_eta_fst _ _ eq_refl))).
  reflexivity.
Defined.

Lemma crm_failure_carries_status_witness :
  ok (mkResponse 500 NoBody) = false
  /\ failsWithStatus 500
       (Orders.getKeapFulfillmentStatus "a@example.com"
          (mkWorld (crm Sample.subscriber) [500] []))
  /\ failsWithStatus 500
       (Backfill.syncToKeap Sample.backfillOrder false
          (mkWorld (crm Sample.subscriber) [200; 500] [])).
Proof.
  split; [reflexivity|].
  pose proof (crm_failure_carries_status 500 [] (crm Sample.subscriber) [] eq_refl)
    as H.
  destruct H as (_ & _ & Hlookup & _ & _ & _ & _ & _ & _ & _ & Hupdate & _).
  - discriminate.
  - split; [apply Hlookup|].
    apply (Hupdate Sample.backfillOrder false
             (mkContact 1 "Ada" "Lovelace" "a@example.com" [] None [] [])).
    reflexivity.
Defined.

(* ================================================================== *)
(** * Further properties of the handlers *)

(** ** Names *)

(** X1.  The name is split at its first space: the given name is what comes
    before it and holds no space, the family name is all that follows,
    and the two joined by a space give the name back; a name without a
    space is the given name, with an empty family name. *)
Theorem splitName_round_trip :
  forall name,
    hasSpace (fst (splitName name)) = false
    /\ (hasSpace name = true ->
        name = fst (splitName name) ++ " " ++ snd (splitName name))
    /\ (hasSpace name = false ->
        fst (splitName name) = name /\ snd (splitName name) = EmptyString).
Proof.
  induction name as [|c s IH]; simpl.
  - repeat split; auto. discriminate.
  - destruct (Ascii.eqb_spec c " ") as [->|Hc]; simpl.
    + repeat split; auto; discriminate.
    + destruct (splitName s) as [a b] eqn:Hs. simpl in *.
      destruct IH as (H1 & H2 & H3).
      apply Ascii.eqb_neq in Hc. rewrite Hc. simpl.
      repeat split; auto.
      * intros H. f_equal. auto.
      * f_equal. apply H3. assumption.
      * apply H3. assumption.
Qed.

(** ** Contacts on record through the tag requests *)

Lemma recordsKept_refl w : recordsKept w w.
Proof. split; auto. Qed.

Lemma recordsKept_trans a b c : recordsKept a b -> recordsKept b c -> recordsKept a c.
Proof. intros [H1 Hq1] [H2 Hq2]. split; [congruence | auto]. Qed.

Lemma untagged_mapContact cid (f : Contact -> Contact) cs :
  (forall c, untagged (f c) = untagged c) ->
  map untagged (mapContact cid f cs) = map untagged cs.
Proof.
  intros Hf. unfold mapContact. rewrite map_map. apply map_ext.
  intros c. destruct (id c =? cid); [apply Hf | reflexivity].
Qed.

Lemma perform_keeps_records (r : Request) (s : Crm) :
  isContactWrite r = false ->
  map untagged (contacts (snd (perform r s))) = map untagged (contacts s).
Proof.
  destruct r; simpl; try discriminate; intros _; try reflexivity.
  - destruct (findContactById cid (contacts s)); reflexivity.
  - destruct (findContactById cid (contacts s)); simpl; [|reflexivity].
    apply untagged_mapContact; intros c0; destruct (hasTag tid c0); reflexivity.
  - destruct (findContactById cid (contacts s)) as [c|]; simpl; [|reflexivity].
    destruct (hasTag tid c); simpl; [|reflexivity].
    apply untagged_mapContact; intros c0; reflexivity.
Qed.

Lemma fetch_keeps_records (r : Request) :
  isContactWrite r = false -> preserves recordsKept (fetch r).
Proof.
  intros Hr w.
  destruct (fetch_cases r w) as [(st & _ & Hhd & Hf)|[_ Hf]]; rewrite Hf; simpl.
  - split; [reflexivity|]. intros Hq. rewrite Hq in Hhd. discriminate.
  - split; [now apply perform_keeps_records|]. intros Hq. now rewrite Hq.
Qed.

Ltac records :=
  repeat first
    [ apply (preserves_ret _ recordsKept_refl)
    | apply (preserves_throw _ recordsKept_refl)
    | apply (preserves_bind _ recordsKept_trans); [|intros ?]
    | apply (preserves_tryCatch _ recordsKept_trans); [|intros ?]
    | apply fetch_keeps_records; reflexivity
    | match goal with
      | |- preserves _ (if ?b then _ else _) => destruct b
      | |- preserves _ (match ?x with _ => _ end) => destruct x
      end ].

Lemma firstMatch_untagged e (s s' : Crm) :
  map untagged (contacts s') = map untagged (contacts s) ->
  option_map untagged (firstMatch e s') = option_map untagged (firstMatch e s).
Proof.
  unfold firstMatch. generalize (contacts s') (contacts s).
  induction l as [|a l IH]; intros [|b l'] H; try discriminate H; [reflexivity|].
  cbn [map] in H.
  assert (Hab : untagged a = untagged b)
    by exact (f_equal (fun l => hd (untagged a) l) H).
  assert (Hl : map untagged l = map untagged l') by exact (f_equal (@tl _) H).
  assert (Hmail : email a = email b).
  { change (email (untagged a) = email (untagged b)). now rewrite Hab. }
  cbn [filter]. rewrite Hmail.
  destruct (String.eqb (email b) e); cbn [hd_error option_map]; [now rewrite Hab | auto].
Qed.

(** Under [recordsKept] the contact a search finds first has the custom
    fields it had, tags aside. *)
Lemma firstMatch_kept e w w' c :
  recordsKept w w' ->
  firstMatch e (crm w) = Some c ->
  exists c', firstMatch e (crm w') = Some c'
             /\ id c' = id c /\ custom_fields c' = custom_fields c.
Proof.
  intros [Hrec _] Hc.
  pose proof (firstMatch_untagged e (crm w) (crm w') Hrec) as H.
  rewrite Hc in H. destruct (firstMatch e (crm w')) as [c'|]; [|discriminate].
  cbn [option_map] in H.
  assert (H' : untagged c' = untagged c)
    by exact (f_equal (fun o => match o with Some x => x | None => untagged c end) H).
  clear H. rename H' into H. exists c'. split; [reflexivity|].
  split; [change (id (untagged c') = id (untagged c)) |
          change (custom_fields (untagged c') = custom_fields (untagged c))];
    now rewrite H.
Qed.

Lemma firstMatch_mapContact e (f : Contact -> Contact) cs c :
  (forall x, id (f x) = id x) ->
  (forall x, email (f x) = e) ->
  hd_error (filter (fun x => String.eqb (email x) e) cs) = Some c ->
  exists c0,
    In c0 cs /\ id c0 = id c
    /\ hd_error (filter (fun x => String.eqb (email x) e) (mapContact (id c) f cs))
       = Some (f c0).
Proof.
  intros Hid Hmail. unfold mapContact.
  induction cs as [|a cs IH]; simpl; [discriminate|].
  destruct (id a =? id c) eqn:Ha.
  - intros _. rewrite Hmail, String.eqb_refl. simpl.
    exists a. repeat split; auto. now apply Z.eqb_eq.
  - destruct (String.eqb (email a) e) eqn:He; simpl.
    + intros H. injection H as ->. rewrite Z.eqb_refl in Ha. discriminate.
    + intros H. destruct (IH H) as (c0 & Hin & Hc0 & Hhd). eauto.
Qed.

Lemma firstMatch_findById e s c :
  firstMatch e s = Some c -> exists c0, findContactById (id c) (contacts s) = Some c0.
Proof.
  unfold firstMatch, findContactById. intros H.
  assert (Hin : In c (contacts s)).
  { destruct (filter _ (contacts s)) as [|x l] eqn:Hf; [discriminate|].
    injection H as ->.
    assert (In c (filter (fun c => String.eqb (email c) e) (contacts s)))
      by (rewrite Hf; now left).
    apply filter_In in H. tauto. }
  destruct (find (fun c0 => id c0 =? id c) (contacts s)) as [c0|] eqn:Hfind; [eauto|].
  exfalso. apply (find_none _ _ Hfind) in Hin. rewrite Z.eqb_refl in Hin. discriminate.
Qed.

(** ** The backfill sync and its guard *)

Lemma findKeapContact_quiet (e : string) (w : World) :
  pending w = [] ->
  Backfill.findKeapContact e w
  = (Ok (firstMatch e (crm w)),
     mkWorld (crm w) [] (trace w ++ [SearchContacts e true])).
Proof.
  intros Hq. unfold Backfill.findKeapContact. rewrite Hq. simpl.
  erewrite bind_ok by (apply fetch_quiet; exact Hq). reflexivity.
Qed.

Lemma backfill_getOrCreateTagFuel_keeps fuel name :
  preserves recordsKept (Backfill.getOrCreateTagFuel fuel name).
Proof.
  induction fuel as [|fuel IH]; simpl; records. exact IH.
Qed.

Lemma backfill_applyOneTag_keeps cid name u :
  preserves recordsKept (Backfill.applyOneTag cid name u).
Proof.
  unfold Backfill.applyOneTag, Backfill.applyTagToContact.
  apply (preserves_tryCatch _ recordsKept_trans); [|intros ?; records].
  apply (preserves_bind _ recordsKept_trans); [|intros ?; records].
  intros w. apply backfill_getOrCreateTagFuel_keeps.
Qed.

Lemma backfill_applyOneTag_returns cid name u w :
  exists w', Backfill.applyOneTag cid name u w = (Ok tt, w').
Proof.
  unfold Backfill.applyOneTag, tryCatch.
  destruct (bind _ _ w) as [[[]|err] w']; unfold ret; eauto.
Qed.

Lemma backfill_tags_return cid names : forall w,
  exists w', forEach names (Backfill.applyOneTag cid) tt w = (Ok tt, w').
Proof.
  induction names as [|name names IH]; intros w; simpl.
  - unfold ret. eauto.
  - destruct (backfill_applyOneTag_returns cid name tt w) as (w1 & H1).
    rewrite (bind_ok _ _ _ _ _ H1). apply IH.
Qed.

Lemma backfill_tags_keep cid names :
  preserves recordsKept (forEach names (Backfill.applyOneTag cid) tt).
Proof.
  apply (preserves_forEach _ recordsKept_refl recordsKept_trans).
  intros x []. apply backfill_applyOneTag_keeps.
Qed.

Lemma backfill_payload_fields orderData consent :
  p_custom_fields (Backfill.contactPayloadOf orderData consent)
  = Backfill.customFieldsOf orderData.
Proof.
  unfold Backfill.contactPayloadOf.
  destruct (splitName (Backfill.o_name orderData)) as [a b]. reflexivity.
Qed.

(** Each field of the backfill payload is on record as sent once the
    payload is merged, whatever was on record. *)
Lemma backfill_fields_merged orderData old f :
  In f (Backfill.customFieldsOf orderData) ->
  findField (fid f) (mergeFields (Backfill.customFieldsOf orderData) old) = Some f.
Proof.
  intros Hin. unfold Backfill.customFieldsOf in *. cbn [In] in Hin.
  unfold mergeFields. cbn [fold_left].
  repeat (destruct Hin as [<-|Hin];
          [cbn [fid]; rewrite !findField_setField; reflexivity|]).
  destruct Hin.
Qed.

Lemma backfill_payload_email orderData consent c :
  email (applyPayload (Backfill.contactPayloadOf orderData consent) c)
  = Backfill.o_email orderData.
Proof.
  unfold Backfill.contactPayloadOf.
  destruct (splitName (Backfill.o_name orderData)) as [a b]. reflexivity.
Qed.

Opaque forEach.

(** After a backfill sync that the CRM answers throughout, the contact
    a search for the email finds carries the custom fields of the
    payload, merged into what it had. *)
Lemma backfill_sync_record orderData consent w :
  pending w = [] ->
  exists r w' c old,
    Backfill.syncToKeap orderData consent w = (Ok r, w')
    /\ pending w' = []
    /\ firstMatch (Backfill.o_email orderData) (crm w') = Some c
    /\ contactId r = id c
    /\ success r = true
    /\ custom_fields c = mergeFields (Backfill.customFieldsOf orderData) old.
Proof.
  intros Hq. unfold Backfill.syncToKeap.
  erewrite bind_ok by (apply findKeapContact_quiet; exact Hq).
  destruct (firstMatch (Backfill.o_email orderData) (crm w)) as [c|] eqn:Hfm.
  - destruct (firstMatch_findById _ _ _ Hfm) as (c0 & Hc0).
    erewrite bind_ok.
    2:{ erewrite bind_ok by (apply fetch_quiet; reflexivity).
        simpl. rewrite Hc0. unfold ok. simpl. unfold ret. reflexivity. }
    match goal with
    | |- context [bind (forEach ?names ?body tt) ?k ?w2] =>
        destruct (backfill_tags_return (id c) names w2) as (w3 & Hloop);
          pose proof (backfill_tags_keep (id c) names w2) as Hkept
    end.
    rewrite (bind_ok _ _ _ _ _ Hloop). rewrite Hloop in Hkept. simpl in Hkept.
    unfold firstMatch in Hfm.
    destruct (firstMatch_mapContact (Backfill.o_email orderData)
                (applyPayload (Backfill.contactPayloadOf orderData consent))
                (contacts (crm w)) c) as (c1 & _ & Hid1 & Hhd); auto.
    { intros x. apply backfill_payload_email. }
    match type of Hkept with
    | recordsKept ?w2 _ =>
        destruct (firstMatch_kept (Backfill.o_email orderData) w2 w3
                    (applyPayload (Backfill.contactPayloadOf orderData consent) c1)
                    Hkept Hhd) as (c' & Hc' & Hid & Hfields)
    end.
    exists (mkSyncResult true (id c)), w3, c', (custom_fields c1).
    split; [reflexivity|]. split; [apply Hkept; reflexivity|].
    split; [exact Hc'|]. split; [cbn [contactId]; rewrite Hid; cbn [applyPayload id]; auto|].
    split; [reflexivity|].
    rewrite Hfields. cbn [applyPayload custom_fields].
    now rewrite backfill_payload_fields.
  - apply firstMatch_none in Hfm.
    erewrite bind_ok.
    2:{ erewrite bind_ok by (apply fetch_quiet; reflexivity).
        simpl. unfold ok. simpl. unfold ret. reflexivity. }
    match goal with
    | |- context [bind (forEach ?names ?body tt) ?k ?w2] =>
        destruct (backfill_tags_return (next_id (crm w)) names w2) as (w3 & Hloop);
          pose proof (backfill_tags_keep (next_id (crm w)) names w2) as Hkept
    end.
    rewrite (bind_ok _ _ _ _ _ Hloop). rewrite Hloop in Hkept. simpl in Hkept.
    match type of Hkept with
    | recordsKept ?w2 _ =>
        destruct (firstMatch_kept (Backfill.o_email orderData) w2 w3
                    (applyPayload (Backfill.contactPayloadOf orderData consent)
                       (blankContact (next_id (crm w)))) Hkept)
          as (c' & Hc' & Hid & Hfields)
    end.
    { unfold firstMatch. cbn [crm contacts]. rewrite filter_app, Hfm.
      cbn [app filter]. rewrite backfill_payload_email, String.eqb_refl. reflexivity. }
    exists (mkSyncResult true (next_id (crm w))), w3, c', [].
    split; [reflexivity|]. split; [apply Hkept; reflexivity|].
    split; [exact Hc'|]. split; [cbn [contactId]; rewrite Hid; reflexivity|].
    split; [reflexivity|].
    rewrite Hfields. cbn [applyPayload custom_fields blankContact].
    now rewrite backfill_payload_fields.
Qed.

Transparent forEach.

Lemma nonEmpty_true (s : string) : s <> EmptyString -> nonEmpty s = true.
Proof. destruct s; [intros H; now elim H | reflexivity]. Qed.

(** What the session loop does with a session that has an email and
    whose contact, if any, has no order data, in a live run that the CRM
    answers: it syncs it. *)
Lemma processSession_syncs stripe sid session e r w :
  retrieve stripe sid = Ok session ->
  customer_email session = Some e ->
  e <> EmptyString ->
  pending w = [] ->
  (forall c, firstMatch e (crm w) = Some c -> Backfill.hasExistingOrderData c = false) ->
  exists r1 w1 c,
    Backfill.processSession false stripe sid r w = (Ok r1, w1)
    /\ Backfill.synced r1 = S (Backfill.synced r)
    /\ Backfill.skipped r1 = Backfill.skipped r
    /\ Backfill.errors r1 = Backfill.errors r
    /\ pending w1 = []
    /\ firstMatch e (crm w1) = Some c
    /\ findField PAYMENT_ID (custom_fields c)
       = Some (mkField PAYMENT_ID (payment_intent session)).
Proof.
  intros Hret Hmail Hne Hq Hnodata.
  unfold Backfill.processSession, tryCatch.
  erewrite bind_ok by (unfold liftRes; rewrite Hret; reflexivity).
  rewrite Hmail. destruct e as [|a e]; [now elim Hne|].
  erewrite bind_ok by (apply findKeapContact_quiet; exact Hq).
  replace (match firstMatch (String a e) (crm w) with
           | Some c => Backfill.hasExistingOrderData c
           | None => false
           end) with false
    by (destruct (firstMatch (String a e) (crm w)) as [c|] eqn:Hc;
        [symmetry; now apply Hnodata | reflexivity]).
  destruct (Backfill.cartOf session) as [cartItems hasPreOrder].
  match goal with
  | |- context [Backfill.syncToKeap ?o ?consent] =>
      destruct (backfill_sync_record o consent
                  (mkWorld (crm w) [] (trace w ++ [SearchContacts (String a e) true]))
                  eq_refl)
        as (res & w1 & c & old & Hrun & Hq1 & Hfm & _ & _ & Hfield)
  end.
  erewrite bind_ok by exact Hrun. unfold ret.
  eexists; exists w1, c. split; [reflexivity|]. simpl. repeat split; auto.
  rewrite Hfield.
  match goal with
  | |- context [Backfill.customFieldsOf ?o] =>
      apply (backfill_fields_merged o old (mkField PAYMENT_ID (payment_intent session)))
  end.
  cbn. tauto.
Qed.

(** A session whose email finds a contact with a payment id on record
    is skipped, and nothing is written for it. *)
Lemma processSession_skips_on_record (dryRun : bool) stripe sid session e c p r w :
  retrieve stripe sid = Ok session ->
  customer_email session = Some e ->
  e <> EmptyString ->
  pending w = [] ->
  firstMatch e (crm w) = Some c ->
  findField PAYMENT_ID (custom_fields c) = Some (mkField PAYMENT_ID (Some p)) ->
  p <> EmptyString ->
  exists r2 w2,
    Backfill.processSession dryRun stripe sid r w = (Ok r2, w2)
    /\ Backfill.skipped r2 = S (Backfill.skipped r)
    /\ Backfill.synced r2 = Backfill.synced r
    /\ writes (trace w2) = writes (trace w).
Proof.
  intros Hret Hmail Hne Hq Hfm Hfield Hp.
  assert (Hfilled : fieldFilled 311 (custom_fields c)).
  { exists (mkField PAYMENT_ID (Some p)), p. auto. }
  assert (Hans : lookupAnswered (pending w) = true) by (rewrite Hq; reflexivity).
  destruct (findKeapContact_answered e w Hans) as (w2 & Hfind & Hc & Hw).
  eexists. exists w2.
  unfold Backfill.processSession, tryCatch, bind, liftRes.
  rewrite Hret, Hmail. destruct e as [|a e]; [now elim Hne|].
  rewrite Hfind, Hfm.
  apply hasExistingOrderData_spec in Hfilled. rewrite Hfilled.
  split; [reflexivity|]. simpl. repeat split; auto.
Qed.

(** X2.  The coarse guard of the backfill.  In a live run that the CRM
    answers, once a session with a payment intent has been synced for an
    email, every further session for that email is skipped, in a dry run
    and in a live run alike, and nothing is written for it. *)
Theorem backfill_skips_after_first_sync :
  forall (dryRun : bool) stripe sid1 sid2 s1 s2 e p r w,
    retrieve stripe sid1 = Ok s1 ->
    retrieve stripe sid2 = Ok s2 ->
    customer_email s1 = Some e ->
    customer_email s2 = Some e ->
    e <> EmptyString ->
    payment_intent s1 = Some p ->
    p <> EmptyString ->
    pending w = [] ->
    (forall c, firstMatch e (crm w) = Some c -> Backfill.hasExistingOrderData c = false) ->
    exists r1 w1 r2 w2,
      Backfill.processSession false stripe sid1 r w = (Ok r1, w1)
      /\ Backfill.synced r1 = S (Backfill.synced r)
      /\ Backfill.processSession dryRun stripe sid2 r1 w1 = (Ok r2, w2)
      /\ Backfill.skipped r2 = S (Backfill.skipped r1)
      /\ Backfill.synced r2 = Backfill.synced r1
      /\ writes (trace w2) = writes (trace w1).
Proof.
  intros dryRun stripe sid1 sid2 s1 s2 e p r w Hr1 Hr2 Hm1 Hm2 Hne Hpi Hp Hq Hnodata.
  destruct (processSession_syncs stripe sid1 s1 e r w Hr1 Hm1 Hne Hq Hnodata)
    as (r1 & w1 & c & Hrun & Hsy & _ & _ & Hq1 & Hfm & Hfield).
  rewrite Hpi in Hfield.
  destruct (processSession_skips_on_record dryRun stripe sid2 s2 e c p r1 w1
              Hr2 Hm2 Hne Hq1 Hfm Hfield Hp)
    as (r2 & w2 & Hrun2 & Hsk & Hsy2 & Hw).
  exists r1, w1, r2, w2. repeat split; assumption.
Qed.

(** X3.  The guard does not hold for a session without a payment intent: its
    sync leaves the payment-id field empty, so a later live run that the
    CRM answers syncs the session once more. *)
Theorem backfill_resyncs_session_without_payment_intent :
  forall stripe sid session e r w,
    retrieve stripe sid = Ok session ->
    customer_email session = Some e ->
    e <> EmptyString ->
    truthy (payment_intent session) = false ->
    pending w = [] ->
    (forall c, firstMatch e (crm w) = Some c -> Backfill.hasExistingOrderData c = false) ->
    exists r1 w1 r2 w2,
      Backfill.processSession false stripe sid r w = (Ok r1, w1)
      /\ Backfill.synced r1 = S (Backfill.synced r)
      /\ Backfill.processSession false stripe sid r1 w1 = (Ok r2, w2)
      /\ Backfill.synced r2 = S (S (Backfill.synced r))
      /\ Backfill.skipped r2 = Backfill.skipped r.
Proof.
  intros stripe sid session e r w Hret Hmail Hne Hpi Hq Hnodata.
  destruct (processSession_syncs stripe sid session e r w Hret Hmail Hne Hq Hnodata)
    as (r1 & w1 & c & Hrun & Hsy & Hsk & _ & Hq1 & Hfm & Hfield).
  destruct (processSession_syncs stripe sid session e r1 w1 Hret Hmail Hne Hq1)
    as (r2 & w2 & c2 & Hrun2 & Hsy2 & Hsk2 & _).
  { intros c0 Hc0. rewrite Hfm in Hc0. injection Hc0 as <-.
    unfold Backfill.hasExistingOrderData.
    change 311 with PAYMENT_ID. rewrite Hfield. exact Hpi. }
  exists r1, w1, r2, w2. repeat split; auto; congruence.
Qed.

Lemma backfill_skips_after_first_sync_witness :
  exists r1 w1 r2 w2,
    Backfill.processSession false Sample.stripe "cs_2" Backfill.emptyResults
      Sample.subscriber = (Ok r1, w1)
    /\ Backfill.synced r1 = 1%nat
    /\ Backfill.processSession true Sample.stripe "cs_2" r1 w1 = (Ok r2, w2)
    /\ Backfill.skipped r2 = S (Backfill.skipped r1)
    /\ Backfill.synced r2 = 1%nat
    /\ writes (trace w2) = writes (trace w1).
Proof.
  destruct (backfill_skips_after_first_sync true Sample.stripe "cs_2" "cs_2"
              Sample.session2 Sample.session2 "a@example.com" "pi_2"
              Backfill.emptyResults Sample.subscriber
              eq_refl eq_refl eq_refl eq_refl)
    as (r1 & w1 & r2 & w2 & H1 & H2 & H3 & H4 & H5 & H6).
  - discriminate.
  - reflexivity.
  - discriminate.
  - reflexivity.
  - intros c Hc. injection Hc as <-. reflexivity.
  - exists r1, w1, r2, w2. rewrite H5, H2. repeat split; assumption || reflexivity.
Defined.

Lemma backfill_resyncs_session_without_payment_intent_witness :
  exists r1 w1 r2 w2,
    Backfill.processSession false unpaidStripe "cs_3" Backfill.emptyResults
      Sample.subscriber = (Ok r1, w1)
    /\ Backfill.synced r1 = 1%nat
    /\ Backfill.processSession false unpaidStripe "cs_3" r1 w1 = (Ok r2, w2)
    /\ Backfill.synced r2 = 2%nat
    /\ Backfill.skipped r2 = 0%nat.
Proof.
  destruct (backfill_resyncs_session_without_payment_intent unpaidStripe "cs_3"
              unpaidSession "a@example.com" Backfill.emptyResults Sample.subscriber
              eq_refl eq_refl)
    as (r1 & w1 & r2 & w2 & H).
  - discriminate.
  - reflexivity.
  - reflexivity.
  - intros c Hc. injection Hc as <-. reflexivity.
  - exists r1, w1, r2, w2. exact H.
Defined.

(** X4.  The backfill sync writes the order fields without reading what is
    on record.  With the CRM answering every request, the sync returns
    with success, and the contact a search for the email then finds
    carries each custom field of the order exactly as [syncToKeap] built
    it from the order alone: the history is the one entry of this order
    and the total is the amount paid, whatever history and total the
    contact had. *)
Theorem backfill_sync_overwrites_order_fields :
  forall orderData consent w,
    pending w = [] ->
    exists r w' c,
      Backfill.syncToKeap orderData consent w = (Ok r, w')
      /\ success r = true
      /\ firstMatch (Backfill.o_email orderData) (crm w') = Some c
      /\ contactId r = id c
      /\ forall f, In f (Backfill.customFieldsOf orderData) ->
                   findField (fid f) (custom_fields c) = Some f.
Proof.
  intros orderData consent w Hq.
  destruct (backfill_sync_record orderData consent w Hq)
    as (r & w' & c & old & Hrun & _ & Hfm & Hid & Hok & Hfields).
  exists r, w', c. repeat split; auto.
  intros f Hin. rewrite Hfields. now apply backfill_fields_merged.
Qed.

Lemma backfill_sync_overwrites_order_fields_witness :
  contentOf (crm Sample.afterFirst) 1 ORDER_HISTORY
  = Some "Jan 5, 2026: 1x Destiny Cards ($20.00)"
  /\ exists r w' c,
       Backfill.syncToKeap Sample.backfillOrder false Sample.afterFirst = (Ok r, w')
       /\ firstMatch "a@example.com" (crm w') = Some c
       /\ findField ORDER_HISTORY (custom_fields c)
          = Some (mkField ORDER_HISTORY
                    (Some "Feb 9, 2026: 1x Destiny Cards + Book ($60.00)"))
       /\ findField TOTAL_SPENT (custom_fields c)
          = Some (mkField TOTAL_SPENT (Some "60.00")).
Proof.
  split; [reflexivity|].
  destruct (backfill_sync_overwrites_order_fields Sample.backfillOrder false
              Sample.afterFirst eq_refl)
    as (r & w' & c & Hrun & _ & Hfm & _ & Hfields).
  exists r, w', c. split; [exact Hrun|]. split; [exact Hfm|].
  split; [apply (Hfields (mkField ORDER_HISTORY
                            (Some "Feb 9, 2026: 1x Destiny Cards + Book ($60.00)")))
         | apply (Hfields (mkField TOTAL_SPENT (Some "60.00")))];
    vm_compute; tauto.
Defined.

(** X5.  Through the webhook the total spent adds up from what is on
    record.  A contact has a history and a total in whole cents on
    record, and the CRM answers every request.  After the webhook has
    synced further orders of that email, each paid in whole cents, the
    total on record is the earlier total plus the sum of the amounts
    paid, to two decimals, and the history is the entries of the orders,
    newest first, ahead of the earlier history. *)
Theorem webhook_total_adds_to_what_is_on_record :
  forall env e cid orders amounts hist total w,
    truthy (KEAP_ACCESS_TOKEN env) = true ->
    Forall (fun o => Webhook.i_email (snd o) = e) orders ->
    paidInCents orders amounts ->
    0 <= total ->
    hist <> [] ->
    nonEmpty (join historySeparator hist) = true ->
    onRecord e cid (join historySeparator hist) (toFixed2 (cents total)) w ->
    onRecord e cid (join historySeparator (rev (map entryOf orders) ++ hist))
      (toFixed2 (cents (total + sumZ amounts))) (syncAll env orders w).
Proof.
  intros env e cid orders amounts hist total w Htok Hall Hpaid Htotal Hhist Hne Hrec.
  rewrite <- (totalAfter_cents orders amounts total Htotal Hpaid).
  apply syncAll_on_record; auto. apply toFixed2_nonEmpty.
Qed.

Lemma webhook_total_adds_to_what_is_on_record_witness :
  onRecord "a@example.com" 1
    ("Feb 9, 2026: 1x Destiny Cards + Book ($60.00)" ++ historySeparator
       ++ "Jan 5, 2026: 1x Destiny Cards ($20.00)")
    "80.00"
    (syncAll Sample.env [(Sample.feb, Sample.secondOrder)] Sample.afterFirst).
Proof.
  apply (webhook_total_adds_to_what_is_on_record Sample.env "a@example.com" 1
           [(Sample.feb, Sample.secondOrder)] [6000]
           ["Jan 5, 2026: 1x Destiny Cards ($20.00)"] 2000 Sample.afterFirst eq_refl).
  - repeat constructor.
  - split; [reflexivity|]. repeat constructor; lia.
  - lia.
  - discriminate.
  - reflexivity.
  - repeat split; vm_compute; reflexivity.
Defined.

(** ** The webhook: events, acknowledgement, and the backfill after it *)

Lemma webhook_tags_keep_records cid names :
  preserves recordsKept (forEach names (Webhook.applyOneTag cid) tt).
Proof.
  apply (preserves_forEach _ recordsKept_refl recordsKept_trans).
  intros x []. unfold Webhook.applyOneTag, Webhook.getOrCreateTag,
    Webhook.applyTagToContact.
  records.
Qed.

Lemma webhook_payload_email data fields c :
  email (applyPayload (Webhook.contactPayloadOf data fields) c) = Webhook.i_email data.
Proof. reflexivity. Qed.

Opaque forEach mergeFields.

(** After a webhook sync that the CRM answers throughout, the contact a
    search for the email finds carries the custom fields of the payload,
    merged into what it had. *)
Lemma webhook_sync_record env now data w :
  truthy (KEAP_ACCESS_TOKEN env) = true ->
  pending w = [] ->
  exists r w' c old h t,
    Webhook.integrateWithKeap env now data w = (Ok r, w')
    /\ pending w' = []
    /\ firstMatch (Webhook.i_email data) (crm w') = Some c
    /\ contactId r = id c
    /\ custom_fields c = mergeFields (Webhook.customFieldsOf now data h t) old
    /\ (forall c0, firstMatch (Webhook.i_email data) (crm w) = Some c0 ->
                   exists c1, In c1 (contacts (crm w)) /\ id c1 = id c0
                              /\ old = custom_fields c1).
Proof.
  intros Htok Hq. unfold Webhook.integrateWithKeap. rewrite Htok. cbn [negb].
  erewrite bind_ok by (apply fetch_quiet; exact Hq).
  unfold ok at 1. simpl.
  destruct (firstMatch (Webhook.i_email data) (crm w)) as [c|] eqn:Hfm.
  - destruct (firstMatch_findById _ _ _ Hfm) as (c0 & Hc0).
    pose proof Hfm as Hhd. unfold firstMatch in Hfm.
    destruct (filter _ (contacts (crm w))) as [|c' rest] eqn:Hfilter; [discriminate|].
    injection Hfm as ->. simpl.
    erewrite bind_ok.
    2:{ erewrite bind_ok by (apply fetch_quiet; reflexivity).
        simpl. rewrite Hc0. unfold ok. simpl. unfold ret. reflexivity. }
    cbv beta iota.
    erewrite bind_ok.
    2:{ erewrite bind_ok by (apply fetch_quiet; reflexivity).
        simpl. rewrite Hc0. unfold ok. simpl. unfold ret. reflexivity. }
    match goal with
    | |- context [bind (forEach ?names ?body tt) ?k ?w2] =>
        destruct (webhook_tags_return (id c) names w2) as (w3 & Hloop);
          pose proof (webhook_tags_keep_records (id c) names w2) as Hkept
    end.
    rewrite (bind_ok _ _ _ _ _ Hloop). rewrite Hloop in Hkept. cbn [snd] in Hkept.
    match type of Hkept with
    | recordsKept (mkWorld (mkCrm (mapContact _ (applyPayload ?p) _) _ _) _ _) _ =>
        destruct (firstMatch_mapContact (Webhook.i_email data) (applyPayload p)
                    (contacts (crm w)) c) as (c1 & Hin1 & Hid1 & Hhd1);
          [reflexivity | reflexivity | exact Hhd |];
          destruct (firstMatch_kept (Webhook.i_email data) _ w3 (applyPayload p c1) Hkept)
            as (c2 & Hc2 & Hid & Hfields)
    end.
    { exact Hhd1. }
    exists (mkSyncResult true (id c)), w3, c2, (custom_fields c1).
    do 2 eexists.
    split; [reflexivity|]. split; [apply Hkept; reflexivity|].
    split; [exact Hc2|]. split; [cbn [contactId]; rewrite Hid; cbn [applyPayload id]; auto|].
    split; [rewrite Hfields; reflexivity|].
    intros c3 Hc3. injection Hc3 as <-. eauto.
  - pose proof Hfm as Hnone. apply firstMatch_none in Hfm. rewrite Hfm. simpl.
    erewrite bind_ok by reflexivity. cbv beta iota.
    erewrite bind_ok.
    2:{ erewrite bind_ok by (apply fetch_quiet; reflexivity).
        simpl. unfold ok. simpl. unfold ret. reflexivity. }
    match goal with
    | |- context [bind (forEach ?names ?body tt) ?k ?w2] =>
        destruct (webhook_tags_return (next_id (crm w)) names w2) as (w3 & Hloop);
          pose proof (webhook_tags_keep_records (next_id (crm w)) names w2) as Hkept
    end.
    rewrite (bind_ok _ _ _ _ _ Hloop). rewrite Hloop in Hkept. cbn [snd] in Hkept.
    match type of Hkept with
    | recordsKept (mkWorld (mkCrm (_ ++ [applyPayload ?p _]) _ _) _ _) _ =>
        destruct (firstMatch_kept (Webhook.i_email data) _ w3
                    (applyPayload p (blankContact (next_id (crm w)))) Hkept)
          as (c2 & Hc2 & Hid & Hfields)
    end.
    { unfold firstMatch. cbn [crm contacts perform snd]. rewrite filter_app, Hfm.
      cbn [app filter]. rewrite webhook_payload_email, String.eqb_refl. reflexivity. }
    exists (mkSyncResult true (next_id (crm w))), w3, c2, [].
    do 2 eexists.
    split; [reflexivity|]. split; [apply Hkept; reflexivity|].
    split; [exact Hc2|]. split; [cbn [contactId]; rewrite Hid; reflexivity|].
    split; [rewrite Hfields; reflexivity|].
    intros c3 Hc3. discriminate.
Qed.

Transparent forEach mergeFields.

Lemma integrateWithKeap_with_email env now e data :
  Webhook.i_email data = e ->
  StripeWebhook.integrateWithKeap env now (Some e) data
  = Webhook.integrateWithKeap env now data.
Proof. intros <-. reflexivity. Qed.

Lemma orderInputOf_email session :
  Webhook.i_email (StripeWebhook.orderInputOf session)
  = StripeWebhook.searchKey (customer_email session).
Proof.
  unfold StripeWebhook.orderInputOf.
  destruct (splitName (orElse (customer_name session) EmptyString)). reflexivity.
Qed.

Lemma orderInputOf_paymentId session :
  Webhook.paymentId (StripeWebhook.orderInputOf session) = payment_intent session.
Proof.
  unfold StripeWebhook.orderInputOf.
  destruct (splitName (orElse (customer_name session) EmptyString)). reflexivity.
Qed.

(** X6.  The webhook acknowledges a checkout whatever becomes of the sync.
    For a verified event whose session Stripe returns, the reply is 200
    [received], whatever the CRM answers to any request and whether or
    not the Keap token is configured. *)
Theorem webhook_acknowledges_whatever_the_crm_answers :
  forall env stripe now event ev session w,
    httpMethod event = "POST" ->
    truthy (STRIPE_SECRET_KEY env) = true ->
    ebody event = Ok ev ->
    retrieve stripe (StripeWebhook.ev_object_id ev) = Ok session ->
    fst (StripeWebhook.handler env stripe now event w) = Ok StripeWebhook.Received.
Proof.
  intros env stripe now event ev session w Hm Hkey Hev Hret.
  unfold StripeWebhook.handler. rewrite Hm, Hkey, Hev, String.eqb_refl. cbn [negb].
  assert (Hdone : forall w0,
            exists w1, StripeWebhook.handleCheckoutComplete env stripe now
                         (StripeWebhook.ev_object_id ev) w0 = (Ok tt, w1)).
  { intros w0. unfold StripeWebhook.handleCheckoutComplete. rewrite Hkey. cbn [negb].
    unfold bind at 1. unfold liftRes. rewrite Hret. unfold tryCatch.
    destruct (bind _ _ w0) as [[[]|err] w1]; unfold ret; eauto. }
  unfold tryCatch.
  destruct (String.eqb (StripeWebhook.ev_type ev) "checkout.session.completed");
    [destruct (Hdone w) as (w1 & H1); cbv iota;
     rewrite (bind_ok _ _ _ _ _ H1); reflexivity|].
  destruct (String.eqb (StripeWebhook.ev_type ev)
              "checkout.session.async_payment_succeeded");
    [destruct (Hdone w) as (w1 & H1); cbv iota;
     rewrite (bind_ok _ _ _ _ _ H1); reflexivity|].
  destruct (String.eqb (StripeWebhook.ev_type ev)
              "checkout.session.async_payment_failed"); reflexivity.
Qed.

Lemma webhook_acknowledges_whatever_the_crm_answers_witness :
  fst (StripeWebhook.handler Sample.env Sample.stripe Sample.feb completedEvent
         (mkWorld (crm Sample.subscriber) [500] []))
  = Ok StripeWebhook.Received.
Proof.
  apply (webhook_acknowledges_whatever_the_crm_answers Sample.env Sample.stripe
           Sample.feb completedEvent
           (StripeWebhook.mkStripeEvent "checkout.session.completed" "cs_2")
           Sample.session2);
    reflexivity.
Defined.

(** X7.  What keeps the webhook from the CRM.  No request is sent, and the
    CRM stays as it is, when the method is not POST, when the Stripe key
    is missing or the event does not verify, when the event is of
    another type than the two checkout events, when Stripe does not
    return the session, and when the Keap token is missing. *)
Theorem webhook_sends_nothing_without_checkout :
  forall env stripe now event w,
    httpMethod event <> "POST"
    \/ truthy (STRIPE_SECRET_KEY env) = false
    \/ (exists err, ebody event = Throw err)
    \/ (exists ev, ebody event = Ok ev
                   /\ (isCheckoutEvent (StripeWebhook.ev_type ev) = false
                       \/ exists err,
                            retrieve stripe (StripeWebhook.ev_object_id ev) = Throw err))
    \/ truthy (KEAP_ACCESS_TOKEN env) = false ->
    snd (StripeWebhook.handler env stripe now event w) = w.
Proof.
  intros env stripe now event w H.
  unfold StripeWebhook.handler.
  destruct (String.eqb_spec (httpMethod event) "POST") as [Hm|Hm]; cbn [negb];
    [|reflexivity].
  destruct (truthy (STRIPE_SECRET_KEY env)) eqn:Hkey; cbn [negb]; [|reflexivity].
  destruct (ebody event) as [ev|err] eqn:Hev; [|reflexivity].
  assert (Hquiet :
            (exists err, retrieve stripe (StripeWebhook.ev_object_id ev) = Throw err)
            \/ truthy (KEAP_ACCESS_TOKEN env) = false ->
            snd (tryCatch
                   (StripeWebhook.handleCheckoutComplete env stripe now
                      (StripeWebhook.ev_object_id ev) ;;;
                    ret StripeWebhook.Received)
                   (fun _ => ret (StripeWebhook.Failure 500 "Webhook handler failed")) w)
            = w).
  { intros Hwhy. unfold tryCatch, bind, StripeWebhook.handleCheckoutComplete, liftRes.
    rewrite Hkey. cbn [negb].
    destruct (retrieve stripe (StripeWebhook.ev_object_id ev)) as [session|err];
      [|reflexivity].
    destruct Hwhy as [[err Herr]|Htok]; [discriminate|].
    unfold StripeWebhook.integrateWithKeap. rewrite Htok. reflexivity. }
  unfold isCheckoutEvent in H.
  destruct (String.eqb (StripeWebhook.ev_type ev) "checkout.session.completed") eqn:H1;
    [|destruct (String.eqb (StripeWebhook.ev_type ev)
                  "checkout.session.async_payment_succeeded") eqn:H2].
  - apply Hquiet. destruct H as [H|[H|[[? H]|[(ev' & Hev' & H)|H]]]].
    + now elim H.
    + discriminate.
    + discriminate.
    + injection Hev' as Hev'. subst ev'. rewrite H1 in H. cbn [orb] in H.
      destruct H as [H|H]; [discriminate | now left].
    + now right.
  - apply Hquiet. destruct H as [H|[H|[[? H]|[(ev' & Hev' & H)|H]]]].
    + now elim H.
    + discriminate.
    + discriminate.
    + injection Hev' as Hev'. subst ev'. rewrite H1, H2 in H. cbn [orb] in H.
      destruct H as [H|H]; [discriminate | now left].
    + now right.
  - destruct (String.eqb (StripeWebhook.ev_type ev)
                "checkout.session.async_payment_failed"); reflexivity.
Qed.

Lemma webhook_sends_nothing_without_checkout_witness :
  snd (StripeWebhook.handler Sample.env Sample.stripe Sample.feb refundEvent
         Sample.subscriber)
  = Sample.subscriber.
Proof.
  apply webhook_sends_nothing_without_checkout.
  right. right. right. left.
  exists (StripeWebhook.mkStripeEvent "charge.refunded" "ch_1").
  split; [reflexivity|]. left. reflexivity.
Defined.

Lemma webhook_payment_id_merged now data h t old :
  findField PAYMENT_ID (mergeFields (Webhook.customFieldsOf now data h t) old)
  = Some (mkField PAYMENT_ID (Webhook.paymentId data)).
Proof.
  unfold mergeFields, Webhook.customFieldsOf. cbn [fold_left].
  rewrite !findField_setField. reflexivity.
Qed.

(** X8.  The backfill leaves alone what the webhook has synced.  Once the
    webhook has handled a checkout event for a session with an email and
    a payment intent, with the CRM answering every request, a backfill
    run, dry or live, skips every session of that email and writes
    nothing for it. *)
Theorem backfill_skips_what_the_webhook_synced :
  forall (dryRun : bool) env stripe now event ev session e p sid2 s2 r w,
    httpMethod event = "POST" ->
    truthy (STRIPE_SECRET_KEY env) = true ->
    truthy (KEAP_ACCESS_TOKEN env) = true ->
    ebody event = Ok ev ->
    isCheckoutEvent (StripeWebhook.ev_type ev) = true ->
    retrieve stripe (StripeWebhook.ev_object_id ev) = Ok session ->
    customer_email session = Some e ->
    e <> EmptyString ->
    payment_intent session = Some p ->
    p <> EmptyString ->
    retrieve stripe sid2 = Ok s2 ->
    customer_email s2 = Some e ->
    pending w = [] ->
    exists w1 r2 w2,
      StripeWebhook.handler env stripe now event w = (Ok StripeWebhook.Received, w1)
      /\ Backfill.processSession dryRun stripe sid2 r w1 = (Ok r2, w2)
      /\ Backfill.skipped r2 = S (Backfill.skipped r)
      /\ Backfill.synced r2 = Backfill.synced r
      /\ writes (trace w2) = writes (trace w1).
Proof.
  intros dryRun env stripe now event ev session e p sid2 s2 r w
    Hm Hkey Htok Hev Htype Hret Hmail Hne Hpi Hp Hr2 Hm2 Hq.
  pose proof (orderInputOf_email session) as Hdata. rewrite Hmail in Hdata.
  cbn [StripeWebhook.searchKey orElse] in Hdata.
  destruct (webhook_sync_record env now (StripeWebhook.orderInputOf session) w Htok Hq)
    as (res & w1 & c & old & h & t & Hrun & Hq1 & Hfm & _ & Hfields & _).
  rewrite Hdata in Hfm.
  assert (Hfield : findField PAYMENT_ID (custom_fields c)
                   = Some (mkField PAYMENT_ID (Some p))).
  { rewrite Hfields, webhook_payment_id_merged, orderInputOf_paymentId, Hpi.
    reflexivity. }
  destruct (processSession_skips_on_record dryRun stripe sid2 s2 e c p r w1
              Hr2 Hm2 Hne Hq1 Hfm Hfield Hp)
    as (r2 & w2 & Hrun2 & Hsk & Hsy & Hw).
  exists w1, r2, w2. split; [|repeat split; assumption].
  assert (Hdone : StripeWebhook.handleCheckoutComplete env stripe now
                    (StripeWebhook.ev_object_id ev) w = (Ok tt, w1)).
  { unfold StripeWebhook.handleCheckoutComplete. rewrite Hkey. cbn [negb].
    unfold bind at 1. unfold liftRes. rewrite Hret, Hmail. unfold tryCatch.
    rewrite (integrateWithKeap_with_email env now e _ Hdata).
    rewrite (bind_ok _ _ _ _ _ Hrun). reflexivity. }
  unfold StripeWebhook.handler. rewrite Hm, Hkey, Hev, String.eqb_refl. cbn [negb].
  unfold isCheckoutEvent in Htype. unfold tryCatch.
  destruct (String.eqb (StripeWebhook.ev_type ev) "checkout.session.completed");
    [cbv iota; rewrite (bind_ok _ _ _ _ _ Hdone); reflexivity|].
  cbn [orb] in Htype. rewrite Htype. cbv iota.
  rewrite (bind_ok _ _ _ _ _ Hdone). reflexivity.
Qed.

Lemma backfill_skips_what_the_webhook_synced_witness :
  exists w1 r2 w2,
    StripeWebhook.handler Sample.env Sample.stripe Sample.feb completedEvent
      Sample.subscriber = (Ok StripeWebhook.Received, w1)
    /\ Backfill.processSession false Sample.stripe "cs_2" Backfill.emptyResults w1
       = (Ok r2, w2)
    /\ Backfill.skipped r2 = 1%nat
    /\ Backfill.synced r2 = 0%nat
    /\ writes (trace w2) = writes (trace w1).
Proof.
  apply (backfill_skips_what_the_webhook_synced false Sample.env Sample.stripe
           Sample.feb completedEvent
           (StripeWebhook.mkStripeEvent "checkout.session.completed" "cs_2")
           Sample.session2 "a@example.com" "pi_2" "cs_2" Sample.session2
           Backfill.emptyResults Sample.subscriber);
    try reflexivity; discriminate.
Defined.

(** ** The webhook sync when a lookup fails *)

Lemma fetch_answered (r : Request) (w : World) st rest :
  pending w = st :: rest ->
  ok (mkResponse st NoBody) = true ->
  fetch r w = (Ok (fst (perform r (crm w))),
               mkWorld (snd (perform r (crm w))) rest (trace w ++ [r])).
Proof.
  intros Hq Hok. unfold fetch. rewrite Hq, Hok.
  destruct (perform r (crm w)); reflexivity.
Qed.

Lemma fetch_refused (r : Request) (w : World) st rest :
  pending w = st :: rest ->
  ok (mkResponse st NoBody) = false ->
  fetch r w = (Ok (mkResponse st NoBody), mkWorld (crm w) rest (trace w ++ [r])).
Proof. intros Hq Hok. unfold fetch. rewrite Hq, Hok. reflexivity. Qed.

(** Each field of the webhook payload is on record as sent once the
    payload is merged. *)
Lemma webhook_fields_merged now data h t old f :
  In f (Webhook.customFieldsOf now data h t) ->
  findField (fid f) (mergeFields (Webhook.customFieldsOf now data h t) old) = Some f.
Proof.
  intros Hin. unfold Webhook.customFieldsOf in *. cbn [In] in Hin.
  unfold mergeFields. cbn [fold_left].
  repeat (destruct Hin as [<-|Hin];
          [cbn [fid]; rewrite !findField_setField; reflexivity|]).
  destruct Hin.
Qed.

Opaque forEach mergeFields.

(** X9.  A failed detail lookup resets history and total.  The customer is
    on record, the search is answered, and the request for the contact's
    custom fields is answered with a failure status.  The sync goes on
    and returns with success; the contact then carries this order's
    entry as its whole history and this order's amount as its total,
    whatever it had on record. *)
Theorem webhook_detail_failure_resets_history :
  forall env now data w c s0 st,
    truthy (KEAP_ACCESS_TOKEN env) = true ->
    firstMatch (Webhook.i_email data) (crm w) = Some c ->
    pending w = [s0; st] ->
    ok (mkResponse s0 NoBody) = true ->
    ok (mkResponse st NoBody) = false ->
    exists w' c',
      Webhook.integrateWithKeap env now data w = (Ok (mkSyncResult true (id c)), w')
      /\ firstMatch (Webhook.i_email data) (crm w') = Some c'
      /\ id c' = id c
      /\ findField ORDER_HISTORY (custom_fields c')
         = Some (mkField ORDER_HISTORY (Some (Webhook.thisOrderEntry now data)))
      /\ findField TOTAL_SPENT (custom_fields c')
         = Some (mkField TOTAL_SPENT (Some (toFixed2 (Webhook.amountPaid data)))).
Proof.
  intros env now data w c s0 st Htok Hfm Hq Hs0 Hst.
  unfold Webhook.integrateWithKeap. rewrite Htok. cbn [negb].
  erewrite bind_ok by (eapply fetch_answered; eassumption).
  unfold ok at 1. simpl.
  destruct (firstMatch_findById _ _ _ Hfm) as (c0 & Hc0).
  pose proof Hfm as Hhd. unfold firstMatch in Hfm.
  destruct (filter _ (contacts (crm w))) as [|c' rest] eqn:Hfilter; [discriminate|].
  injection Hfm as ->. simpl.
  erewrite bind_ok.
  2:{ erewrite bind_ok by (eapply fetch_refused; [reflexivity | exact Hst]).
      rewrite Hst. unfold ret. reflexivity. }
  cbv beta iota.
  erewrite bind_ok.
  2:{ erewrite bind_ok by (apply fetch_quiet; reflexivity).
      simpl. rewrite Hc0. unfold ok. simpl. unfold ret. reflexivity. }
  match goal with
  | |- context [bind (forEach ?names ?body tt) ?k ?w2] =>
      destruct (webhook_tags_return (id c) names w2) as (w3 & Hloop);
        pose proof (webhook_tags_keep_records (id c) names w2) as Hkept
  end.
  rewrite (bind_ok _ _ _ _ _ Hloop). rewrite Hloop in Hkept. cbn [snd] in Hkept.
  match type of Hkept with
  | recordsKept (mkWorld (mkCrm (mapContact _ (applyPayload ?p) _) _ _) _ _) _ =>
      destruct (firstMatch_mapContact (Webhook.i_email data) (applyPayload p)
                  (contacts (crm w)) c) as (c1 & _ & Hid1 & Hhd1);
        [reflexivity | reflexivity | exact Hhd |];
        destruct (firstMatch_kept (Webhook.i_email data) _ w3 (applyPayload p c1) Hkept)
          as (c2 & Hc2 & Hid & Hfields)
  end.
  { exact Hhd1. }
  exists w3, c2. split; [reflexivity|]. split; [exact Hc2|].
  split; [rewrite Hid; exact Hid1|].
  rewrite Hfields. cbn [applyPayload custom_fields Webhook.contactPayloadOf p_custom_fields].
  split.
  - apply (webhook_fields_merged now data _ _ _
             (mkField ORDER_HISTORY (Some (Webhook.thisOrderEntry now data)))).
    cbn. tauto.
  - apply (webhook_fields_merged now data _ _ _
             (mkField TOTAL_SPENT (Some (toFixed2 (Webhook.amountPaid data))))).
    cbn. tauto.
Qed.

Transparent forEach mergeFields.

Lemma webhook_detail_failure_resets_history_witness :
  contentOf (crm Sample.afterFirst) 1 ORDER_HISTORY
  = Some "Jan 5, 2026: 1x Destiny Cards ($20.00)"
  /\ exists w' c',
       Webhook.integrateWithKeap Sample.env Sample.feb Sample.secondOrder
         (mkWorld (crm Sample.afterFirst) [200; 503] [])
       = (Ok (mkSyncResult true 1), w')
       /\ firstMatch "a@example.com" (crm w') = Some c'
       /\ findField ORDER_HISTORY (custom_fields c')
          = Some (mkField ORDER_HISTORY
                    (Some "Feb 9, 2026: 1x Destiny Cards + Book ($60.00)"))
       /\ findField TOTAL_SPENT (custom_fields c')
          = Some (mkField TOTAL_SPENT (Some "60.00")).
Proof.
  split; [reflexivity|].
  destruct (webhook_detail_failure_resets_history Sample.env Sample.feb
              Sample.secondOrder (mkWorld (crm Sample.afterFirst) [200; 503] [])
              (orElse (firstMatch "a@example.com" (crm Sample.afterFirst))
                 (blankContact 0))
              200 503 eq_refl eq_refl eq_refl eq_refl eq_refl)
    as (w' & c' & Hrun & Hfm & _ & Hh & Ht).
  exists w', c'. repeat split; assumption.
Defined.

(** ** A sync that fails *)

Lemma fetch_returns (r : Request) (w : World) :
  exists resp w', fetch r w = (Ok resp, w').
Proof.
  destruct (fetch_cases r w) as [(st & _ & _ & Hf)|[_ Hf]]; rewrite Hf; eauto.
Qed.

(** A request answered with a failure status did not change the store. *)
Lemma fetch_not_ok_keeps (r : Request) (w : World) resp w' :
  fetch r w = (Ok resp, w') -> ok resp = false -> crm w' = crm w.
Proof.
  intros Hf Hbad.
  destruct (fetch_cases r w) as [(st & _ & _ & Hf')|[_ Hf']];
    rewrite Hf' in Hf; inversion Hf; subst; clear Hf; [reflexivity|].
  cbn [crm]. destruct r; cbn [perform fst snd] in *; try reflexivity;
    try discriminate.
  - destruct (findContactById cid (contacts (crm w))); reflexivity.
  - destruct (findContactById cid (contacts (crm w))); [discriminate | reflexivity].
  - destruct (findContactById cid (contacts (crm w))); [discriminate | reflexivity].
  - destruct (findContactById cid (contacts (crm w))) as [c|]; [|reflexivity].
    destruct (hasTag tid c); [discriminate | reflexivity].
Qed.

Lemma failsClean_throw {A} (e : Error) : failsClean (@throw A e).
Proof. intros w e' w' H. inversion H. reflexivity. Qed.

Lemma failsClean_ret {A} (a : A) : failsClean (ret a).
Proof. intros w e' w' H. discriminate. Qed.

Lemma failsClean_after_read {A B} (m : M A) (k : A -> M B) :
  preserves sameStore m -> (forall a, failsClean (k a)) -> failsClean (bind m k).
Proof.
  intros Hm Hk w e w' H. unfold bind in H. specialize (Hm w).
  destruct (m w) as [[a|e0] w1]; cbn [snd] in Hm; destruct Hm as [Hm _].
  - rewrite <- Hm. eapply Hk. exact H.
  - inversion H. subst. exact Hm.
Qed.

Lemma failsClean_then_total {A B} (m : M A) (k : A -> M B) :
  failsClean m -> (forall a, neverThrows (k a)) -> failsClean (bind m k).
Proof.
  intros Hm Hk w e w' H. unfold bind in H.
  destruct (m w) as [[a|e0] w1] eqn:Hmw.
  - destruct (Hk a w1) as (b & w2 & Hb). rewrite Hb in H. discriminate.
  - inversion H. subst. eapply Hm. exact Hmw.
Qed.

(** A request whose failure status is thrown, followed by code that
    returns. *)
Lemma failsClean_checked {A} (r : Request) (E : Response -> Error) (k : Response -> M A) :
  (forall resp, neverThrows (k resp)) ->
  failsClean (resp <- fetch r ;; if negb (ok resp) then throw (E resp) else k resp).
Proof.
  intros Hk w e w' H. unfold bind in H.
  destruct (fetch r w) as [[resp|e0] w1] eqn:Hf.
  - destruct (ok resp) eqn:Hok; cbn [negb] in H.
    + destruct (Hk resp w1) as (b & w2 & Hb). rewrite Hb in H. discriminate.
    + inversion H. subst. eapply fetch_not_ok_keeps; eassumption.
  - destruct (fetch_returns r w) as (resp & w2 & Hf'). congruence.
Qed.

Lemma neverThrows_ret {A} (a : A) : neverThrows (ret a).
Proof. intros w. unfold ret. eauto. Qed.

Lemma neverThrows_bind {A B} (m : M A) (k : A -> M B) :
  neverThrows m -> (forall a, neverThrows (k a)) -> neverThrows (bind m k).
Proof.
  intros Hm Hk w. destruct (Hm w) as (a & w1 & Ha).
  rewrite (bind_ok _ _ _ _ _ Ha). apply Hk.
Qed.

Lemma neverThrows_swallowed {A} (m : M A) (a : A) :
  neverThrows (tryCatch m (fun _ => ret a)).
Proof.
  intros w. unfold tryCatch. destruct (m w) as [[x|e] w1]; unfold ret; eauto.
Qed.

Lemma webhook_sync_failsClean env now data :
  failsClean (Webhook.integrateWithKeap env now data).
Proof.
  unfold Webhook.integrateWithKeap.
  destruct (negb (truthy (KEAP_ACCESS_TOKEN env))); [apply failsClean_throw|].
  apply failsClean_after_read; [now apply fetch_read|]. intros searchResponse.
  destruct (negb (ok searchResponse)); [apply failsClean_throw|].
  apply failsClean_after_read.
  { destruct (contactsOf (body searchResponse)) as [|existing l];
      [apply (preserves_ret _ sameStore_refl)|].
    apply (preserves_bind _ sameStore_trans); [now apply fetch_read|].
    intros resp. destruct (ok resp); apply (preserves_ret _ sameStore_refl). }
  intros [orderHistory totalSpent].
  apply failsClean_then_total.
  - destruct (contactsOf (body searchResponse)) as [|existing l];
      apply failsClean_checked; intros resp; apply neverThrows_ret.
  - intros contactId. apply neverThrows_bind; [|intros []; apply neverThrows_ret].
    intros w. destruct (webhook_tags_return contactId
                          (Webhook.tagsOfOrder now
                             match contactsOf (body searchResponse) with
                             | [] => false
                             | _ :: _ => true
                             end data) w) as (w' & H).
    eauto.
Qed.

Lemma backfill_sync_failsClean orderData consent :
  failsClean (Backfill.syncToKeap orderData consent).
Proof.
  unfold Backfill.syncToKeap.
  apply failsClean_after_read; [apply findKeapContact_read|]. intros existingContact.
  apply failsClean_then_total.
  - destruct existingContact as [c|];
      apply failsClean_checked; intros resp; apply neverThrows_ret.
  - intros contactId. apply neverThrows_bind; [|intros []; apply neverThrows_ret].
    intros w. destruct (backfill_tags_return contactId (Backfill.tagsOfOrder orderData) w)
      as (w' & H).
    eauto.
Qed.

Lemma tracking_update_failsClean env today e tn shipmentType :
  failsClean (Tracking.updateTrackingInKeap env today e tn shipmentType).
Proof.
  unfold Tracking.updateTrackingInKeap.
  destruct (negb (truthy (KEAP_ACCESS_TOKEN env))); [apply failsClean_throw|].
  apply failsClean_after_read; [now apply fetch_read|]. intros searchResponse.
  destruct (negb (ok searchResponse)); [apply failsClean_throw|].
  destruct (contactsOf (body searchResponse)) as [|c l]; [apply failsClean_throw|].
  apply failsClean_checked. intros resp.
  apply neverThrows_bind; [apply neverThrows_swallowed|]. intros _.
  apply neverThrows_bind; [apply neverThrows_swallowed|]. intros _.
  apply neverThrows_ret.
Qed.

(** X10.  A sync that fails has changed nothing.  When the webhook sync, the
    backfill sync or the tracking update throws, whatever the CRM
    answered to each request, the CRM holds what it held before: these
    functions throw only up to the contact write, and a tag failure
    after it is never thrown. *)
Theorem failed_sync_leaves_crm_untouched :
  forall w err w',
    (exists env now data,
        Webhook.integrateWithKeap env now data w = (Throw err, w'))
    \/ (exists orderData emailConsent,
           Backfill.syncToKeap orderData emailConsent w
           = (Throw err, w'))
    \/ (exists env today e trackingNumber shipmentType,
           Tracking.updateTrackingInKeap env today e trackingNumber shipmentType w
           = (Throw err, w')) ->
    crm w' = crm w.
Proof.
  intros w err w' [(env & now & data & H)|[(o & consent & H)|(env & today & e & tn & ty & H)]].
  - eapply webhook_sync_failsClean; exact H.
  - eapply backfill_sync_failsClean; exact H.
  - eapply tracking_update_failsClean; exact H.
Qed.

Lemma failed_sync_leaves_crm_untouched_witness :
  fst (Webhook.integrateWithKeap Sample.env Sample.feb Sample.secondOrder
         (mkWorld (crm Sample.afterFirst) [200; 200; 500] []))
  = Throw (ContactUpdateFailed 500)
  /\ crm (snd (Webhook.integrateWithKeap Sample.env Sample.feb Sample.secondOrder
                 (mkWorld (crm Sample.afterFirst) [200; 200; 500] [])))
     = crm Sample.afterFirst.
Proof.
  split; [reflexivity|].
  apply (failed_sync_leaves_crm_untouched
           (mkWorld (crm Sample.afterFirst) [200; 200; 500] [])
           (ContactUpdateFailed 500)).
  left. exists Sample.env, Sample.feb, Sample.secondOrder.
  apply pair_eta_fst. reflexivity.
Defined.

(** ** From a tracking update to the fulfilment status *)

Lemma firstMatch_mapContact_same e cid (f : Contact -> Contact) cs :
  (forall x, email (f x) = email x) ->
  hd_error (filter (fun x => String.eqb (email x) e) (mapContact cid f cs))
  = option_map (fun c => if id c =? cid then f c else c)
      (hd_error (filter (fun x => String.eqb (email x) e) cs)).
Proof.
  intros Hmail. unfold mapContact.
  induction cs as [|a cs IH]; [reflexivity|].
  cbn [map filter].
  replace (email (if id a =? cid then f a else a)) with (email a)
    by (destruct (id a =? cid); [symmetry; apply Hmail | reflexivity]).
  destruct (String.eqb (email a) e); [reflexivity | exact IH].
Qed.

Lemma tracking_tags_keep_records (contactId : Z) (shipped awaiting : string) :
  preserves recordsKept
    (tryCatch
       (shippedTagId <- Tracking.getOrCreateTag shipped ;;
        Tracking.applyTagToContact contactId shippedTagId)
       (fun _ => ret tt) ;;;
     tryCatch
       (awaitingTagId <- Tracking.getTagId awaiting ;;
        match awaitingTagId with
        | Some t => Tracking.removeTagFromContact contactId t
        | None => ret tt
        end)
       (fun _ => ret tt) ;;;
     ret contactId).
Proof.
  unfold Tracking.getOrCreateTag, Tracking.applyTagToContact, Tracking.getTagId,
    Tracking.removeTagFromContact.
  records.
Qed.

Lemma tracking_tags_return (contactId : Z) (shipped awaiting : string) w :
  exists w',
    (tryCatch
       (shippedTagId <- Tracking.getOrCreateTag shipped ;;
        Tracking.applyTagToContact contactId shippedTagId)
       (fun _ => ret tt) ;;;
     tryCatch
       (awaitingTagId <- Tracking.getTagId awaiting ;;
        match awaitingTagId with
        | Some t => Tracking.removeTagFromContact contactId t
        | None => ret tt
        end)
       (fun _ => ret tt) ;;;
     ret contactId) w = (Ok contactId, w').
Proof.
  destruct (neverThrows_swallowed
              (shippedTagId <- Tracking.getOrCreateTag shipped ;;
               Tracking.applyTagToContact contactId shippedTagId) tt w)
    as ([] & w1 & H1).
  rewrite (bind_ok _ _ _ _ _ H1).
  destruct (neverThrows_swallowed
              (awaitingTagId <- Tracking.getTagId awaiting ;;
               match awaitingTagId with
               | Some t => Tracking.removeTagFromContact contactId t
               | None => ret tt
               end) tt w1)
    as ([] & w2 & H2).
  rewrite (bind_ok _ _ _ _ _ H2). unfold ret. eauto.
Qed.

Opaque mergeFields.

(** After a tracking update that the CRM answers throughout, the contact
    a search for the email finds is the one that was found before, with
    the two fields of the leg merged into its custom fields. *)
Lemma tracking_update_record env today e tn shipmentType w c :
  truthy (KEAP_ACCESS_TOKEN env) = true ->
  pending w = [] ->
  firstMatch e (crm w) = Some c ->
  exists w' c',
    Tracking.updateTrackingInKeap env today e tn shipmentType w = (Ok (id c), w')
    /\ pending w' = []
    /\ firstMatch e (crm w') = Some c'
    /\ id c' = id c
    /\ custom_fields c'
       = mergeFields (Tracking.trackingFields tn today shipmentType) (custom_fields c).
Proof.
  intros Htok Hq Hfm.
  unfold Tracking.updateTrackingInKeap. rewrite Htok. cbn [negb].
  erewrite bind_ok by (apply fetch_quiet; exact Hq).
  unfold ok at 1. simpl.
  destruct (firstMatch_findById _ _ _ Hfm) as (c0 & Hc0).
  pose proof Hfm as Hhd. unfold firstMatch in Hfm.
  destruct (filter _ (contacts (crm w))) as [|c' rest] eqn:Hfilter; [discriminate|].
  injection Hfm as ->. simpl.
  erewrite bind_ok by (apply fetch_quiet; reflexivity).
  simpl. rewrite Hc0. unfold ok at 1. simpl.
  match goal with
  | |- context [bind (tryCatch ?a ?b) ?k ?w2] =>
      destruct (tracking_tags_return (id c)
                  (if String.eqb shipmentType "cards"
                   then "Destiny Cards - Cards Shipped"
                   else "Destiny Cards - Book Shipped")
                  (if String.eqb shipmentType "cards"
                   then "Destiny Cards - Awaiting Shipment"
                   else "Destiny Cards - Pending Book Shipment") w2) as (w3 & Hrun);
        pose proof (tracking_tags_keep_records (id c)
                      (if String.eqb shipmentType "cards"
                       then "Destiny Cards - Cards Shipped"
                       else "Destiny Cards - Book Shipped")
                      (if String.eqb shipmentType "cards"
                       then "Destiny Cards - Awaiting Shipment"
                       else "Destiny Cards - Pending Book Shipment") w2) as Hkept
  end.
  rewrite Hrun in Hkept |- *. cbn [snd] in Hkept.
  destruct (firstMatch_kept e _ w3
              (applyPayload
                 (Tracking.trackingPayload
                    (Tracking.trackingFields tn today shipmentType)) c) Hkept)
    as (c2 & Hc2 & Hid & Hfields).
  { unfold firstMatch. cbn [crm contacts].
    rewrite firstMatch_mapContact_same by reflexivity.
    unfold firstMatch in Hhd. rewrite Hhd. cbn [option_map].
    now rewrite Z.eqb_refl. }
  exists w3, c2. split; [reflexivity|]. split; [apply Hkept; reflexivity|].
  split; [exact Hc2|]. split; [exact Hid|]. exact Hfields.
Qed.

Transparent mergeFields.

(** X11.  A tracking update shows in the fulfilment status.  With the CRM
    answering every request, after [updateTrackingInKeap] has returned
    for a contact and a tracking number that is not empty, the status
    lookup for the same email reports the leg of the shipment as shipped
    under that tracking number, and the other leg as it was. *)
Theorem tracking_update_shows_in_fulfilment :
  forall env today e trackingNumber shipmentType w c,
    truthy (KEAP_ACCESS_TOKEN env) = true ->
    pending w = [] ->
    firstMatch e (crm w) = Some c ->
    trackingNumber <> EmptyString ->
    exists w1 s w2,
      Tracking.updateTrackingInKeap env today e trackingNumber shipmentType w
      = (Ok (id c), w1)
      /\ Orders.getKeapFulfillmentStatus e w1 = (Ok s, w2)
      /\ s = (let before := Orders.statusOfFields (custom_fields c) in
              if String.eqb shipmentType "cards"
              then Orders.mkKeapStatus true (Orders.bookShipped before)
                     (Some trackingNumber) (Orders.bookTrackingNumber before)
              else Orders.mkKeapStatus (Orders.cardsShipped before) true
                     (Orders.cardsTrackingNumber before) (Some trackingNumber)).
Proof.
  intros env today e tn ty w c Htok Hq Hfm Htn.
  destruct (tracking_update_record env today e tn ty w c Htok Hq Hfm)
    as (w1 & c' & Hrun & Hq1 & Hfm1 & _ & Hfields).
  unfold Orders.getKeapFulfillmentStatus.
  exists w1. do 2 eexists. split; [exact Hrun|].
  erewrite bind_ok by (apply fetch_quiet; exact Hq1).
  unfold ok at 1. cbn [perform fst snd status body contactsOf negb Z.leb andb].
  unfold firstMatch in Hfm1.
  destruct (filter _ (contacts (crm w1))) as [|x rest]; [discriminate|].
  injection Hfm1 as ->. cbn [Z.leb Z.compare negb andb].
  split; [reflexivity|].
  rewrite Hfields. unfold Tracking.trackingFields, Orders.statusOfFields, mergeFields.
  apply nonEmpty_true in Htn.
  destruct (String.eqb ty "cards"); cbn [fold_left];
    rewrite !findField_setField; cbn [fid Z.eqb Pos.eqb CARDS_TRACKING_NUMBER
      CARDS_SHIPPED_DATE BOOK_TRACKING_NUMBER BOOK_SHIPPED_DATE];
    unfold Orders.shipped, Orders.contentOrNull; cbn [content truthy];
    rewrite Htn; reflexivity.
Qed.

Lemma tracking_update_shows_in_fulfilment_witness :
  exists w1 w2,
    Tracking.updateTrackingInKeap Sample.env "2026-03-01" "a@example.com" "1Z999"
      "cards" Sample.subscriber = (Ok 1, w1)
    /\ Orders.getKeapFulfillmentStatus "a@example.com" w1
       = (Ok (Orders.mkKeapStatus true false (Some "1Z999") None), w2).
Proof.
  destruct (tracking_update_shows_in_fulfilment Sample.env "2026-03-01"
              "a@example.com" "1Z999" "cards" Sample.subscriber
              (mkContact 1 "Ada" "Lovelace" "a@example.com" [] None [] [])
              eq_refl eq_refl eq_refl)
    as (w1 & s & w2 & Hrun & Hstatus & Hs).
  - discriminate.
  - exists w1, w2. split; [exact Hrun|]. rewrite Hstatus, Hs. reflexivity.
Defined.

(** ** The order list *)

Lemma fulfillmentOf_read env customerEmail hasPreOrder :
  preserves sameStore (Orders.fulfillmentOf env customerEmail hasPreOrder).
Proof.
  unfold Orders.fulfillmentOf, Orders.getKeapFulfillmentStatus.
  apply (preserves_bind _ sameStore_trans);
    [|intros ?; apply (preserves_ret _ sameStore_refl)].
  destruct (truthy (KEAP_ACCESS_TOKEN env) && truthy customerEmail);
    [|apply (preserves_ret _ sameStore_refl)].
  apply (preserves_tryCatch _ sameStore_trans);
    [|intros ?; apply (preserves_ret _ sameStore_refl)].
  apply (preserves_bind _ sameStore_trans); [now apply fetch_read|].
  intros resp. destruct (negb (ok resp)); [apply (preserves_throw _ sameStore_refl)|].
  destruct (contactsOf (body resp)); apply (preserves_ret _ sameStore_refl).
Qed.

Lemma fulfillmentOf_returns env customerEmail hasPreOrder w :
  exists f w',
    Orders.fulfillmentOf env customerEmail hasPreOrder w = (Ok f, w')
    /\ Orders.f_status f
       = Orders.fulfillmentStatus hasPreOrder (Orders.f_cardsShipped f)
           (Orders.f_bookShipped f).
Proof.
  unfold Orders.fulfillmentOf.
  destruct (truthy (KEAP_ACCESS_TOKEN env) && truthy customerEmail).
  - destruct (neverThrows_swallowed
                (Orders.getKeapFulfillmentStatus (orElse customerEmail EmptyString))
                (Orders.mkKeapStatus false false None None) w) as (s & w' & H).
    rewrite (bind_ok _ _ _ _ _ H). unfold ret. eauto.
  - unfold bind, ret. eauto.
Qed.

Lemma fulfillmentStatus_known h a b :
  Orders.fulfillmentStatus h a b = "pending"
  \/ Orders.fulfillmentStatus h a b = "partial"
  \/ Orders.fulfillmentStatus h a b = "fulfilled".
Proof. destruct h, a, b; simpl; auto. Qed.

Lemma summary_adds_up orders :
  Forall knownStatus orders ->
  (GetOrders.countStatus "pending" orders + GetOrders.countStatus "partial" orders
   + GetOrders.countStatus "fulfilled" orders = List.length orders)%nat.
Proof.
  unfold GetOrders.countStatus.
  induction 1 as [|o l Ho Hl IH]; [reflexivity|].
  cbn [filter List.length]. unfold knownStatus in Ho. cbv zeta in Ho.
  destruct Ho as [Ho|[Ho|Ho]]; rewrite Ho;
    cbn [String.eqb Ascii.eqb Bool.eqb List.length]; simpl; lia.
Qed.

(** The loop of [GetOrders.handler] when Stripe returns every listed
    session. *)
Lemma get_orders_loop env stripe sessions : forall acc w,
  (forall s, In s sessions -> retrievable stripe s = true) ->
  Forall knownStatus acc ->
  exists orders w',
    forEach sessions (GetOrders.pushOrder env stripe) acc w = (Ok (acc ++ orders)%list, w')
    /\ map GetOrders.ord_id orders = map s_id sessions
    /\ Forall knownStatus (acc ++ orders)%list
    /\ sameStore w w'.
Proof.
  induction sessions as [|s sessions IH]; intros acc w Hall Hacc.
  - exists [], w. rewrite app_nil_r. repeat split; auto.
  - cbn [forEach].
    assert (Hs : retrievable stripe s = true) by (apply Hall; now left).
    unfold retrievable in Hs.
    destruct (retrieve stripe (s_id s)) as [full|] eqn:Hret; [|discriminate].
    destruct (Backfill.cartOf s) as [cartItems hasPreOrder] eqn:Hcart.
    destruct (fulfillmentOf_returns env (customer_email full) hasPreOrder w)
      as (f & w1 & Hf & Hstatus).
    pose proof (fulfillmentOf_read env (customer_email full) hasPreOrder w) as Hread.
    rewrite Hf in Hread. cbn [snd] in Hread.
    assert (Hstep : GetOrders.pushOrder env stripe s acc w
                    = (Ok (acc ++ [GetOrders.orderOf s full cartItems hasPreOrder f])%list, w1)).
    { unfold GetOrders.pushOrder. unfold bind at 1. unfold liftRes. rewrite Hret, Hcart.
      rewrite (bind_ok _ _ _ _ _ Hf). reflexivity. }
    rewrite (bind_ok _ _ _ _ _ Hstep).
    destruct (IH (acc ++ [GetOrders.orderOf s full cartItems hasPreOrder f])%list w1)
      as (orders & w' & Hrun & Hids & Hknown & Hsame).
    { intros x Hx. apply Hall. now right. }
    { apply Forall_app. split; [exact Hacc|]. constructor; [|constructor].
      unfold knownStatus. cbn [GetOrders.orderOf GetOrders.ord_fulfillment].
      rewrite Hstatus. apply fulfillmentStatus_known. }
    exists (GetOrders.orderOf s full cartItems hasPreOrder f :: orders), w'.
    rewrite <- app_assoc in Hrun, Hknown. cbn [app] in Hrun, Hknown.
    split; [exact Hrun|]. split; [cbn [map GetOrders.orderOf GetOrders.ord_id]; now f_equal|].
    split; [exact Hknown|]. eapply sameStore_trans; eassumption.
Qed.

(** X12.  The order list holds every listed session, whatever the CRM answers.
    When Stripe returns each listed session, the handler answers with
    one order per session, in the order listed; the three counts of the
    summary add up to the number of sessions; and no write request is
    sent, however the Keap lookups end. *)
Theorem get_orders_lists_every_session :
  forall env sessions stripe event w,
    httpMethod event = "GET" ->
    unauthorized env (authorization event) = false ->
    truthy (STRIPE_SECRET_KEY env) = true ->
    (forall s, In s sessions -> retrievable stripe s = true) ->
    exists orders w',
      GetOrders.handler env (Ok sessions) stripe event w
      = (Ok (GetOrders.Listing orders (List.length sessions) (GetOrders.summaryOf orders)),
         w')
      /\ map GetOrders.ord_id orders = map s_id sessions
      /\ (GetOrders.sum_pending (GetOrders.summaryOf orders)
          + GetOrders.sum_partial (GetOrders.summaryOf orders)
          + GetOrders.sum_fulfilled (GetOrders.summaryOf orders)
          = List.length sessions)%nat
      /\ sameStore w w'.
Proof.
  intros env sessions stripe event w Hm Hauth Hkey Hall.
  destruct (get_orders_loop env stripe sessions [] w Hall (Forall_nil _))
    as (orders & w' & Hrun & Hids & Hknown & Hsame).
  cbn [app] in Hrun, Hknown.
  assert (Hlen : List.length orders = List.length sessions).
  { rewrite <- (length_map GetOrders.ord_id), Hids. apply length_map. }
  exists orders, w'.
  unfold GetOrders.handler. rewrite Hm, Hauth, Hkey. cbn [String.eqb Ascii.eqb Bool.eqb negb].
  unfold tryCatch. unfold bind at 1. unfold liftRes.
  rewrite (bind_ok _ _ _ _ _ Hrun). unfold ret. rewrite Hlen.
  repeat split; auto; try apply Hsame.
  cbn [GetOrders.summaryOf GetOrders.sum_pending GetOrders.sum_partial
         GetOrders.sum_fulfilled].
  rewrite <- Hlen. now apply summary_adds_up.
Qed.

Lemma get_orders_lists_every_session_witness :
  exists orders w',
    GetOrders.handler Sample.env (Ok [Sample.session2]) Sample.stripe listRequest
      (mkWorld (crm Sample.subscriber) [500] [])
    = (Ok (GetOrders.Listing orders 1 (GetOrders.summaryOf orders)), w')
    /\ map GetOrders.ord_id orders = ["cs_2"]
    /\ writes (trace w') = [].
Proof.
  destruct (get_orders_lists_every_session Sample.env [Sample.session2] Sample.stripe
              listRequest (mkWorld (crm Sample.subscriber) [500] [])
              eq_refl eq_refl eq_refl)
    as (orders & w' & Hrun & Hids & _ & _ & Hw).
  - intros s [<-|[]]. reflexivity.
  - exists orders, w'. repeat split; assumption.
Defined.

Lemma get_orders_pushOrder_read env stripe s acc :
  preserves sameStore (GetOrders.pushOrder env stripe s acc).
Proof.
  unfold GetOrders.pushOrder.
  apply (preserves_bind _ sameStore_trans); [apply (preserves_liftRes _ sameStore_refl)|].
  intros full. destruct (Backfill.cartOf s) as [cartItems hasPreOrder].
  apply (preserves_bind _ sameStore_trans); [apply fulfillmentOf_read|].
  intros f. apply (preserves_ret _ sameStore_refl).
Qed.

Lemma get_orders_read env listed stripe event :
  preserves sameStore (GetOrders.handler env listed stripe event).
Proof.
  unfold GetOrders.handler.
  repeat (apply preserves_if; [apply (preserves_ret _ sameStore_refl)|]).
  apply (preserves_tryCatch _ sameStore_trans);
    [|intros ?; apply (preserves_ret _ sameStore_refl)].
  apply preserves_if; [apply (preserves_throw _ sameStore_refl)|].
  apply (preserves_bind _ sameStore_trans); [apply (preserves_liftRes _ sameStore_refl)|].
  intros sessions.
  apply (preserves_bind _ sameStore_trans);
    [|intros ?; apply (preserves_ret _ sameStore_refl)].
  apply (preserves_forEach _ sameStore_refl sameStore_trans).
  intros s acc. apply get_orders_pushOrder_read.
Qed.

Lemma get_orders_pushOrder_outcome env stripe s acc w :
  if retrievable stripe s
  then exists orders w', GetOrders.pushOrder env stripe s acc w = (Ok orders, w')
  else exists err, GetOrders.pushOrder env stripe s acc w = (Throw err, w).
Proof.
  unfold retrievable, GetOrders.pushOrder.
  destruct (retrieve stripe (s_id s)) as [full|err].
  - unfold bind at 1. unfold liftRes.
    destruct (Backfill.cartOf s) as [cartItems hasPreOrder].
    destruct (fulfillmentOf_returns env (customer_email full) hasPreOrder w)
      as (f & w1 & Hf & _).
    rewrite (bind_ok _ _ _ _ _ Hf). unfold ret. eauto.
  - exists err. reflexivity.
Qed.

Lemma get_orders_loop_fails env stripe sessions : forall acc w,
  (exists s, In s sessions /\ retrievable stripe s = false) ->
  exists err w', forEach sessions (GetOrders.pushOrder env stripe) acc w = (Throw err, w').
Proof.
  induction sessions as [|s sessions IH]; intros acc w (x & Hin & Hx);
    [destruct Hin|].
  cbn [forEach].
  pose proof (get_orders_pushOrder_outcome env stripe s acc w) as Hstep.
  destruct (retrievable stripe s) eqn:Hs.
  - destruct Hstep as (orders & w1 & Hstep). rewrite (bind_ok _ _ _ _ _ Hstep).
    apply IH. exists x. split; [|exact Hx].
    destruct Hin as [<-|Hin]; [congruence | exact Hin].
  - destruct Hstep as (err & Hstep). exists err, w. unfold bind. now rewrite Hstep.
Qed.

(** X13.  One session that Stripe lists and does not return fails the whole
    order list of [GetOrders.handler]: the reply is a 500, and no order
    is reported. *)
Theorem get_orders_fails_when_a_session_is_lost :
  forall env sessions stripe event w,
    httpMethod event = "GET" ->
    unauthorized env (authorization event) = false ->
    truthy (STRIPE_SECRET_KEY env) = true ->
    (exists s, In s sessions /\ retrievable stripe s = false) ->
    exists msg w',
      GetOrders.handler env (Ok sessions) stripe event w
      = (Ok (GetOrders.Failure 500 "Failed to fetch orders" (Some msg)), w')
      /\ sameStore w w'.
Proof.
  intros env sessions stripe event w Hm Hauth Hkey Hlost.
  destruct (get_orders_loop_fails env stripe sessions [] w Hlost) as (err & w' & Hrun).
  pose proof (get_orders_read env (Ok sessions) stripe event w) as Hread.
  exists (message err), w'.
  assert (Hreply : GetOrders.handler env (Ok sessions) stripe event w
                   = (Ok (GetOrders.Failure 500 "Failed to fetch orders"
                            (Some (message err))), w')).
  { unfold GetOrders.handler. rewrite Hm, Hauth, Hkey.
    cbn [String.eqb Ascii.eqb Bool.eqb negb].
    unfold tryCatch. unfold bind at 1. unfold liftRes.
    unfold bind. rewrite Hrun. reflexivity. }
  rewrite Hreply in Hread |- *. split; [reflexivity | exact Hread].
Qed.

Lemma get_orders_fails_when_a_session_is_lost_witness :
  exists msg w',
    GetOrders.handler Sample.env (Ok [Sample.session2; lostSession]) Sample.stripe
      listRequest Sample.subscriber
    = (Ok (GetOrders.Failure 500 "Failed to fetch orders" (Some msg)), w')
    /\ sameStore Sample.subscriber w'.
Proof.
  apply (get_orders_fails_when_a_session_is_lost Sample.env
           [Sample.session2; lostSession] Sample.stripe listRequest Sample.subscriber
           eq_refl eq_refl eq_refl).
  exists lostSession. split; [right; left; reflexivity | reflexivity].
Defined.

Lemma unauthorized_false env h :
  unauthorized env h = false ->
  exists k, ADMIN_API_KEY env = Some k /\ nonEmpty k = true
            /\ h = Some ("Bearer " ++ k).
Proof.
  unfold unauthorized. destruct (ADMIN_API_KEY env) as [k|]; [|discriminate].
  destruct (nonEmpty k) eqn:Hk; [|discriminate].
  destruct h as [h|]; [|discriminate].
  intros H. apply negb_false_iff, String.eqb_eq in H. subst. eauto.
Qed.

(** The loop of [GetOrdersPending.handler]. *)
Lemma get_orders_pending_loop stripe sessions : forall acc w,
  exists orders,
    forEach sessions (GetOrdersPending.pushOrder stripe) acc w = (Ok (acc ++ orders)%list, w)
    /\ map GetOrders.ord_id orders = map s_id (filter (retrievable stripe) sessions)
    /\ Forall (fun o => Orders.f_status (GetOrders.ord_fulfillment o) = "pending"
                        /\ Orders.f_cardsShipped (GetOrders.ord_fulfillment o) = false
                        /\ Orders.f_bookShipped (GetOrders.ord_fulfillment o) = false)
         orders.
Proof.
  induction sessions as [|s sessions IH]; intros acc w.
  - exists []. rewrite app_nil_r. repeat split; auto.
  - cbn [forEach filter].
    destruct (retrieve stripe (s_id s)) as [full|err] eqn:Hret.
    + assert (Hs : retrievable stripe s = true)
        by (unfold retrievable; now rewrite Hret).
      rewrite Hs.
      unfold bind at 1. unfold GetOrdersPending.pushOrder at 1.
      unfold tryCatch, bind, liftRes. rewrite Hret.
      destruct (Backfill.cartOf s) as [cartItems hasPreOrder]. unfold ret.
      destruct (IH (acc ++ [GetOrders.orderOf s full cartItems hasPreOrder
                              (GetOrdersPending.initialFulfillment hasPreOrder)])%list w)
        as (orders & Hrun & Hids & Hall).
      exists (GetOrders.orderOf s full cartItems hasPreOrder
                (GetOrdersPending.initialFulfillment hasPreOrder) :: orders).
      rewrite <- app_assoc in Hrun. cbn [app] in Hrun.
      split; [exact Hrun|].
      split; [cbn [map GetOrders.orderOf GetOrders.ord_id]; now f_equal|].
      constructor; [|exact Hall]. destruct hasPreOrder; repeat split.
    + assert (Hs : retrievable stripe s = false)
        by (unfold retrievable; now rewrite Hret).
      rewrite Hs.
      unfold bind at 1. unfold GetOrdersPending.pushOrder at 1.
      unfold tryCatch, bind, liftRes. rewrite Hret. unfold ret. apply IH.
Qed.

Lemma countStatus_all st orders :
  Forall (fun o => Orders.f_status (GetOrders.ord_fulfillment o) = st) orders ->
  GetOrders.countStatus st orders = List.length orders.
Proof.
  unfold GetOrders.countStatus. induction 1 as [|o l Ho Hl IH]; [reflexivity|].
  cbn [filter]. rewrite Ho, String.eqb_refl. cbn [List.length]. now rewrite IH.
Qed.

Lemma countStatus_none st st' orders :
  String.eqb st st' = false ->
  Forall (fun o => Orders.f_status (GetOrders.ord_fulfillment o) = st) orders ->
  GetOrders.countStatus st' orders = 0%nat.
Proof.
  intros Hne. unfold GetOrders.countStatus.
  induction 1 as [|o l Ho Hl IH]; [reflexivity|].
  cbn [filter]. rewrite Ho, Hne. exact IH.
Qed.

(** X14.  The order list that leaves the fulfilment to be checked apart.
    [GetOrdersPending.handler] lists the sessions Stripe returns, in the
    order listed, and drops the others without failing; every order is
    reported pending with nothing shipped, whatever the CRM holds; and
    the CRM is not asked anything. *)
Theorem get_orders_pending_lists_what_stripe_returns :
  forall env sessions stripe event w,
    httpMethod event = "GET" ->
    unauthorized env (authorization event) = false ->
    truthy (STRIPE_SECRET_KEY env) = true ->
    exists orders,
      GetOrdersPending.handler env (Ok sessions) stripe event w
      = (Ok (GetOrders.Listing orders (List.length orders)
               (GetOrders.mkSummary (List.length orders) (List.length orders) 0 0)), w)
      /\ map GetOrders.ord_id orders = map s_id (filter (retrievable stripe) sessions)
      /\ Forall (fun o => Orders.f_status (GetOrders.ord_fulfillment o) = "pending"
                          /\ Orders.f_cardsShipped (GetOrders.ord_fulfillment o) = false
                          /\ Orders.f_bookShipped (GetOrders.ord_fulfillment o) = false)
           orders.
Proof.
  intros env sessions stripe event w Hm Hauth Hkey.
  destruct (unauthorized_false _ _ Hauth) as (k & Hk & Hne & Hh).
  destruct (get_orders_pending_loop stripe sessions [] w) as (orders & Hrun & Hids & Hall).
  cbn [app] in Hrun. exists orders. split; [|split; assumption].
  assert (Hpending : Forall (fun o => Orders.f_status (GetOrders.ord_fulfillment o)
                                      = "pending") orders).
  { eapply Forall_impl; [|exact Hall]. intros o Ho. apply Ho. }
  unfold GetOrdersPending.handler. rewrite Hm, Hk, Hh, Hkey.
  cbn [String.eqb Ascii.eqb Bool.eqb negb truthy orElse]. rewrite Hne, String.eqb_refl.
  cbn [negb]. unfold tryCatch. unfold bind at 1. unfold liftRes.
  rewrite (bind_ok _ _ _ _ _ Hrun). unfold ret, GetOrders.summaryOf.
  rewrite (countStatus_all _ _ Hpending).
  rewrite (countStatus_none "pending" "partial" _ eq_refl Hpending).
  rewrite (countStatus_none "pending" "fulfilled" _ eq_refl Hpending).
  reflexivity.
Qed.

Lemma get_orders_pending_lists_what_stripe_returns_witness :
  exists orders,
    GetOrdersPending.handler Sample.env (Ok [Sample.session2; lostSession]) Sample.stripe
      listRequest Sample.subscriber
    = (Ok (GetOrders.Listing orders 1 (GetOrders.mkSummary 1 1 0 0)), Sample.subscriber)
    /\ map GetOrders.ord_id orders = ["cs_2"].
Proof.
  destruct (get_orders_pending_lists_what_stripe_returns Sample.env
              [Sample.session2; lostSession] Sample.stripe listRequest Sample.subscriber
              eq_refl eq_refl eq_refl)
    as (orders & Hrun & Hids & _).
  exists orders.
  assert (Hlen : List.length orders = 1%nat).
  { rewrite <- (length_map GetOrders.ord_id), Hids. reflexivity. }
  rewrite Hlen in Hrun. split; [exact Hrun | exact Hids].
Defined.

(** ** The inventory count *)

Lemma sold_fold sessions : forall total,
  fold_left (fun total session => total + Inventory.soldIn session) sessions total
  = total + soldInAll sessions.
Proof.
  unfold soldInAll. induction sessions as [|s l IH]; intros total; simpl.
  - lia.
  - rewrite IH. lia.
Qed.

Lemma soldInAll_app a b : soldInAll (a ++ b) = soldInAll a + soldInAll b.
Proof.
  unfold soldInAll. rewrite map_app. induction (map Inventory.soldIn a); simpl; lia.
Qed.

Lemma countSold_served list_ pages : forall fuel startingAfter total,
  servedFrom list_ startingAfter pages ->
  (List.length pages <= fuel)%nat ->
  Inventory.countSold fuel list_ startingAfter total
  = Some (Ok (total + soldInAll (List.concat (map Inventory.data pages)))).
Proof.
  induction pages as [|p rest IH]; intros fuel startingAfter total Hserved Hfuel;
    [destruct Hserved|].
  destruct fuel as [|fuel]; [simpl in Hfuel; lia|].
  destruct Hserved as [Hpage Hrest].
  cbn [Inventory.countSold]. rewrite Hpage. rewrite sold_fold.
  cbn [map List.concat]. rewrite soldInAll_app.
  destruct rest as [|q rest].
  - cbn [map List.concat].
    replace (soldInAll []) with 0 by reflexivity. rewrite Z.add_0_r.
    destruct Hrest as [Hmore|Hempty].
    + rewrite Hmore. destruct (Inventory.data p); reflexivity.
    + rewrite Hempty. reflexivity.
  - destruct Hrest as (Hmore & Hdata & Hnext).
    unfold lastIdOf in Hnext.
    destruct (Inventory.data p) as [|first l] eqn:Hp; [now elim Hdata|].
    rewrite Hmore.
    rewrite (IH fuel _ _ Hnext) by (cbn [List.length] in *; lia).
    f_equal. f_equal. lia.
Qed.

(** X15.  The count goes through every page.  When Stripe serves the
    completed sessions in pages, each asked for after the last id of the
    page before, the handler sums the quantities of all the sessions of
    all the pages, and reports what is left of the 75 decks. *)
Theorem inventory_counts_every_page :
  forall env fuel list_ event pages,
    httpMethod event = "GET" ->
    truthy (STRIPE_SECRET_KEY env) = true ->
    servedFrom list_ None pages ->
    (List.length pages <= fuel)%nat ->
    Inventory.handler env fuel list_ event
    = Some (Inventory.levelsOf (soldInAll (List.concat (map Inventory.data pages)))).
Proof.
  intros env fuel list_ event pages Hm Hkey Hserved Hfuel.
  unfold Inventory.handler. rewrite Hm, Hkey.
  cbn [String.eqb Ascii.eqb Bool.eqb negb].
  rewrite (countSold_served list_ pages fuel None 0 Hserved Hfuel).
  reflexivity.
Qed.

Lemma inventory_counts_every_page_witness :
  Inventory.handler Sample.env 2 twoPages inventoryRequest
  = Some (Inventory.Levels 75 6 69 8).
Proof.
  apply (inventory_counts_every_page Sample.env 2 twoPages inventoryRequest
           [pageOne; pageTwo] eq_refl eq_refl).
  - split; [reflexivity|]. split; [reflexivity|]. split; [discriminate|].
    split; [reflexivity|]. left. reflexivity.
  - simpl. lia.
Defined.

Lemma levelsOf_facts (n : Z) :
  exists r p,
    Inventory.levelsOf n = Inventory.Levels 75 n r p
    /\ r = Z.max 0 (75 - n)
    /\ 150 * p <= 200 * n + 75 < 150 * p + 150.
Proof.
  exists (Z.max 0 (75 - n)), ((2 * (n * 100) + 75) / 150).
  split; [reflexivity|]. split; [reflexivity|].
  pose proof (Z.div_mod (2 * (n * 100) + 75) 150 ltac:(lia)) as Hd.
  pose proof (Z.mod_pos_bound (2 * (n * 100) + 75) 150 ltac:(lia)) as Hb.
  lia.
Qed.

(** X16.  What the inventory reply can show.  The remaining stock is never
    negative and is what is left of 75 while no more than 75 are sold;
    once more are sold it stays 0, while the percentage sold goes on
    past 100; the percentage is [4 * sold / 3] to the nearest integer. *)
Theorem inventory_levels_bounds :
  forall env fuel list_ event total sold remaining percentSold,
    Inventory.handler env fuel list_ event
    = Some (Inventory.Levels total sold remaining percentSold) ->
    total = 75
    /\ 0 <= remaining
    /\ (0 <= sold <= 75 -> sold + remaining = 75 /\ 0 <= percentSold <= 100)
    /\ (75 < sold -> remaining = 0 /\ 100 < percentSold)
    /\ -1 <= 3 * percentSold - 4 * sold <= 1.
Proof.
  intros env fuel list_ event total sold remaining percentSold H.
  unfold Inventory.handler in H.
  destruct (String.eqb (httpMethod event) "OPTIONS"); [discriminate|].
  destruct (negb (String.eqb (httpMethod event) "GET")); [discriminate|].
  destruct (negb (truthy (STRIPE_SECRET_KEY env))); [discriminate|].
  destruct (Inventory.countSold fuel list_ None 0) as [[n|err]|]; try discriminate.
  destruct (levelsOf_facts n) as (r & p & Hl & Hr & Hp).
  rewrite Hl in H. injection H as Ht Hs Hrem Hpc. subst total sold remaining percentSold.
  split; [reflexivity|]. split; [lia|].
  split; [intros ?; lia|]. split; [intros ?; lia | lia].
Qed.

Lemma inventory_levels_bounds_witness :
  0 <= 69 /\ 6 + 69 = 75 /\ -1 <= 3 * 8 - 4 * 6 <= 1.
Proof.
  destruct (inventory_levels_bounds Sample.env 2 twoPages inventoryRequest 75 6 69 8
              eq_refl) as (_ & Hr & Hin & _ & Hp).
  split; [exact Hr|]. split; [apply Hin; lia | exact Hp].
Defined.

(** ** The first payment handler *)

Lemma legacy_payload_email now data pid c :
  email (applyPayload (LegacyPayment.contactPayloadOf now data pid) c)
  = LegacyPayment.c_email data.
Proof. reflexivity. Qed.

Lemma legacy_payment_id_merged now data pid old :
  findField LegacyPayment.PAYMENT_ID
    (mergeFields (LegacyPayment.customFieldsOf now data pid) old)
  = Some (mkField LegacyPayment.PAYMENT_ID (Some pid)).
Proof.
  unfold mergeFields, LegacyPayment.customFieldsOf. cbn [fold_left].
  rewrite !findField_setField. reflexivity.
Qed.

Opaque mergeFields.

(** The contact write of the first payment handler, answered. *)
Lemma legacy_contact_written now data pid w s0 s1 rest :
  pending w = s0 :: s1 :: rest ->
  ok (mkResponse s0 NoBody) = true ->
  ok (mkResponse s1 NoBody) = true ->
  exists cid w1 c,
    LegacyPayment.createOrUpdateContact now data pid w = (Ok cid, w1)
    /\ pending w1 = rest
    /\ firstMatch (LegacyPayment.c_email data) (crm w1) = Some c
    /\ findField LegacyPayment.PAYMENT_ID (custom_fields c)
       = Some (mkField LegacyPayment.PAYMENT_ID (Some pid)).
Proof.
  intros Hq Hs0 Hs1. unfold LegacyPayment.createOrUpdateContact.
  erewrite bind_ok by (eapply fetch_answered; eassumption).
  unfold ok at 1. simpl.
  destruct (firstMatch (LegacyPayment.c_email data) (crm w)) as [c|] eqn:Hfm.
  - destruct (firstMatch_findById _ _ _ Hfm) as (c0 & Hc0).
    pose proof Hfm as Hhd. unfold firstMatch in Hfm.
    destruct (filter _ (contacts (crm w))) as [|c' l] eqn:Hfilter; [discriminate|].
    injection Hfm as ->. simpl.
    erewrite bind_ok by (eapply fetch_answered; [reflexivity | exact Hs1]).
    simpl. rewrite Hc0. unfold ok at 1. simpl.
    destruct (firstMatch_mapContact (LegacyPayment.c_email data)
                (applyPayload (LegacyPayment.contactPayloadOf now data pid))
                (contacts (crm w)) c) as (c1 & _ & _ & Hhd1);
      [reflexivity | reflexivity | exact Hhd |].
    do 3 eexists. split; [reflexivity|]. split; [reflexivity|].
    split; [exact Hhd1|]. apply legacy_payment_id_merged.
  - apply firstMatch_none in Hfm. rewrite Hfm. simpl.
    erewrite bind_ok by (eapply fetch_answered; [reflexivity | exact Hs1]).
    simpl.
    do 3 eexists. split; [reflexivity|]. split; [reflexivity|].
    split.
    + unfold firstMatch. cbn [crm contacts]. rewrite filter_app, Hfm.
      cbn [app filter]. rewrite legacy_payload_email, String.eqb_refl. reflexivity.
    + apply legacy_payment_id_merged.
Qed.

Transparent mergeFields.

Lemma legacy_tags_refused now product pid w st rest :
  pending w = st :: rest ->
  ok (mkResponse st NoBody) = false ->
  LegacyPayment.createOrderTags now product pid w
  = (Throw (OtherError ("Failed to search for tag " ++ dquote
                          ++ "Destiny Cards - Order Received" ++ dquote
                          ++ ": " ++ showZ st)),
     mkWorld (crm w) rest (trace w ++ [SearchTags "Destiny Cards - Order Received"])).
Proof.
  intros Hq Hst. unfold LegacyPayment.createOrderTags, LegacyPayment.createTag, bind.
  rewrite (fetch_refused _ w st rest Hq Hst). rewrite Hst. reflexivity.
Qed.

(** X17.  The first payment handler can take the payment, write the contact,
    and still answer that the order failed.  The payment succeeds, the
    Keap token is well formed, the contact search and the contact write
    are answered, and the first tag search is answered with a failure
    status.  The reply is the 500 for a failed registration, carrying
    the payment id; yet the contact a search for the email finds has the
    payment id on record. *)
Theorem legacy_tag_failure_fails_a_written_order :
  forall env now createIntent event request intent token w s0 s1 st rest,
    httpMethod event = "POST" ->
    ebody event = Some request ->
    createIntent request = Ok intent ->
    LegacyPayment.pi_status intent = "succeeded" ->
    KEAP_ACCESS_TOKEN env = Some token ->
    String.prefix "KeapAK-" token = true ->
    pending w = s0 :: s1 :: st :: rest ->
    ok (mkResponse s0 NoBody) = true ->
    ok (mkResponse s1 NoBody) = true ->
    ok (mkResponse st NoBody) = false ->
    exists w' c,
      LegacyPayment.handler env now createIntent event w
      = (Ok (LegacyPayment.RegistrationFailed (LegacyPayment.pi_id intent)
               "Failed to process Keap integration"), w')
      /\ firstMatch (LegacyPayment.c_email (LegacyPayment.customerData request)) (crm w')
         = Some c
      /\ findField LegacyPayment.PAYMENT_ID (custom_fields c)
         = Some (mkField LegacyPayment.PAYMENT_ID (Some (LegacyPayment.pi_id intent))).
Proof.
  intros env now createIntent event request intent token w s0 s1 st rest
    Hm Hbody Hintent Hok Htok Hprefix Hq Hs0 Hs1 Hst.
  destruct (legacy_contact_written now (LegacyPayment.customerData request)
              (LegacyPayment.pi_id intent) w s0 s1 (st :: rest) Hq Hs0 Hs1)
    as (cid & w1 & c & Hwrite & Hq1 & Hfm & Hfield).
  exists (mkWorld (crm w1) rest (trace w1 ++ [SearchTags "Destiny Cards - Order Received"])), c.
  split; [|split; assumption].
  unfold LegacyPayment.handler. rewrite Hm, Hbody, String.eqb_refl. cbn [negb].
  unfold tryCatch at 1. unfold bind at 1. unfold liftRes. rewrite Hintent, Hok.
  rewrite String.eqb_refl.
  assert (Hkeap : LegacyPayment.integrateWithKeap env now
                    (LegacyPayment.customerData request) (LegacyPayment.pi_id intent) w
                  = (Ok (LegacyPayment.mkKeapResult false
                           "Failed to process Keap integration" None None
                           (Some (message
                              (OtherError ("Failed to search for tag " ++ dquote
                                 ++ "Destiny Cards - Order Received" ++ dquote
                                 ++ ": " ++ showZ st))))),
                     mkWorld (crm w1) rest
                       (trace w1 ++ [SearchTags "Destiny Cards - Order Received"]))).
  { unfold LegacyPayment.integrateWithKeap. rewrite Htok, Hprefix.
    assert (Hne : nonEmpty token = true) by (destruct token; [discriminate | reflexivity]).
    rewrite Hne. cbn [negb]. unfold tryCatch.
    rewrite (bind_ok _ _ _ _ _ Hwrite).
    unfold bind. rewrite (legacy_tags_refused _ _ _ w1 st rest Hq1 Hst).
    reflexivity. }
  unfold tryCatch. rewrite (bind_ok _ _ _ _ _ Hkeap). reflexivity.
Qed.

Lemma legacy_tag_failure_fails_a_written_order_witness :
  exists w' c,
    LegacyPayment.handler Sample.env Sample.jan confirmIntent legacyRequest
      (mkWorld (crm Sample.fresh) [200; 201; 503] [])
    = (Ok (LegacyPayment.RegistrationFailed "pi_0123456789"
             "Failed to process Keap integration"), w')
    /\ firstMatch "a@example.com" (crm w') = Some c
    /\ findField 299 (custom_fields c) = Some (mkField 299 (Some "pi_0123456789")).
Proof.
  apply (legacy_tag_failure_fails_a_written_order Sample.env Sample.jan confirmIntent
           legacyRequest (LegacyPayment.mkPaymentRequest "pm_1" 20 legacyCustomer)
           (LegacyPayment.mkPaymentIntent "pi_0123456789" "succeeded" None)
           "KeapAK-1" (mkWorld (crm Sample.fresh) [200; 201; 503] []) 200 201 503 []);
    reflexivity.
Defined.

(** ** Which custom fields a handler can change *)

Lemma fieldsOutside_refl ids w : fieldsOutside ids w w.
Proof. intros k i _. reflexivity. Qed.

Lemma fieldsOutside_trans ids a b c :
  fieldsOutside ids a b -> fieldsOutside ids b c -> fieldsOutside ids a c.
Proof. intros H1 H2 k i Hi. now rewrite H2, H1. Qed.

Lemma findField_mergeFields_other i new : forall old,
  ~ In i (map fid new) -> findField i (mergeFields new old) = findField i old.
Proof.
  unfold mergeFields. induction new as [|f new IH]; intros old Hi; [reflexivity|].
  cbn [fold_left]. rewrite IH by (intros H; apply Hi; now right).
  rewrite findField_setField.
  destruct (Z.eqb_spec (fid f) i) as [Hf|Hf]; [|reflexivity].
  exfalso. apply Hi. left. exact Hf.
Qed.

Lemma find_app_some {A} (p : A -> bool) l l' a :
  find p l = Some a -> find p (l ++ l') = Some a.
Proof.
  induction l as [|x l IH]; simpl; [discriminate|].
  destruct (p x); [auto | exact IH].
Qed.

Lemma payload_frame ids p c i :
  (forall f, In f (p_custom_fields p) -> In (fid f) ids) ->
  ~ In i ids ->
  findField i (custom_fields (applyPayload p c)) = findField i (custom_fields c).
Proof.
  intros Hids Hi. cbn [applyPayload custom_fields].
  apply findField_mergeFields_other. intros Hin. apply Hi.
  apply in_map_iff in Hin. destruct Hin as (f & <- & Hf). now apply Hids.
Qed.

Lemma perform_frame ids (r : Request) (s : Crm) :
  (forall p, payloadOf r = Some p ->
             forall f, In f (p_custom_fields p) -> In (fid f) ids) ->
  forall k i, ~ In i ids -> fieldOf (snd (perform r s)) k i = fieldOf s k i.
Proof.
  intros Hids k i Hi.
  destruct (isContactWrite r) eqn:Hr; [|now apply perform_keeps_fields].
  destruct r; try discriminate; cbn [perform].
  - specialize (Hids p eq_refl). unfold fieldOf. cbn [snd contacts].
    unfold findContactById.
    destruct (find (fun c => id c =? k) (contacts s)) as [c|] eqn:Hfind.
    + erewrite find_app_some by exact Hfind. reflexivity.
    + rewrite find_app_none by exact Hfind. cbn [find applyPayload id blankContact].
      destruct (next_id s =? k); [|reflexivity].
      rewrite (payload_frame ids p _ i Hids Hi). reflexivity.
  - specialize (Hids p eq_refl).
    destruct (findContactById cid (contacts s)) as [c|]; [|reflexivity].
    unfold fieldOf. cbn [snd contacts].
    rewrite findContactById_mapContact by reflexivity.
    destruct (findContactById k (contacts s)) as [c0|]; [|reflexivity].
    cbn [option_map]. destruct (id c0 =? cid); [|reflexivity].
    apply (payload_frame ids p c0 i Hids Hi).
Qed.

Lemma fetch_frame ids (r : Request) :
  (forall p, payloadOf r = Some p ->
             forall f, In f (p_custom_fields p) -> In (fid f) ids) ->
  preserves (fieldsOutside ids) (fetch r).
Proof.
  intros Hids w.
  destruct (fetch_cases r w) as [(st & _ & _ & Hf)|[_ Hf]]; rewrite Hf; cbn [snd].
  - intros k i _. reflexivity.
  - intros k i Hi. cbn [crm]. now apply perform_frame with (ids := ids).
Qed.

Ltac no_payload := intros ? Hp; discriminate Hp.

Ltac framed ids :=
  repeat first
    [ apply (preserves_ret _ (fieldsOutside_refl ids))
    | apply (preserves_throw _ (fieldsOutside_refl ids))
    | apply (preserves_bind _ (fieldsOutside_trans ids)); [|intros ?]
    | apply (preserves_tryCatch _ (fieldsOutside_trans ids)); [|intros ?]
    | apply (preserves_forEach _ (fieldsOutside_refl ids) (fieldsOutside_trans ids));
      intros ? ?
    | apply fetch_frame; no_payload
    | match goal with
      | |- preserves _ (if ?b then _ else _) => destruct b
      | |- preserves _ (match ?x with _ => _ end) => destruct x
      end ].

Ltac payload_ids :=
  let p := fresh "p" in
  let Hp := fresh "Hp" in
  let f := fresh "f" in
  let Hin := fresh "Hin" in
  intros p Hp f Hin; cbn [payloadOf] in Hp; injection Hp as <-;
  cbn in Hin;
  repeat (destruct Hin as [<-|Hin]; [cbn; tauto|]);
  destruct Hin.

Lemma webhook_sync_frame env now data :
  preserves (fieldsOutside orderFieldIds) (Webhook.integrateWithKeap env now data).
Proof.
  unfold Webhook.integrateWithKeap, Webhook.applyOneTag, Webhook.getOrCreateTag,
    Webhook.applyTagToContact.
  framed orderFieldIds; apply fetch_frame; payload_ids.
Qed.

Lemma backfill_getOrCreateTagFuel_frame ids fuel name :
  preserves (fieldsOutside ids) (Backfill.getOrCreateTagFuel fuel name).
Proof.
  induction fuel as [|fuel IH]; simpl; framed ids. exact IH.
Qed.

Lemma backfill_findKeapContactFuel_frame ids fuel e :
  preserves (fieldsOutside ids) (Backfill.findKeapContactFuel fuel e).
Proof.
  induction fuel as [|fuel IH]; simpl; framed ids. exact IH.
Qed.

Lemma backfill_sync_frame orderData consent :
  preserves (fieldsOutside orderFieldIds) (Backfill.syncToKeap orderData consent).
Proof.
  unfold Backfill.syncToKeap.
  apply (preserves_bind _ (fieldsOutside_trans orderFieldIds));
    [intros w; apply backfill_findKeapContactFuel_frame|].
  intros existing.
  apply (preserves_bind _ (fieldsOutside_trans orderFieldIds)).
  - destruct existing as [c|];
      (apply (preserves_bind _ (fieldsOutside_trans orderFieldIds));
       [|intros ?; framed orderFieldIds]);
      apply fetch_frame; intros p Hp f Hin; cbn [payloadOf] in Hp; injection Hp as <-;
      rewrite backfill_payload_fields in Hin; cbn in Hin;
      repeat (destruct Hin as [<-|Hin]; [cbn; tauto|]); destruct Hin.
  - intros contactId.
    apply (preserves_bind _ (fieldsOutside_trans orderFieldIds));
      [|intros ?; framed orderFieldIds].
    apply (preserves_forEach _ (fieldsOutside_refl orderFieldIds)
             (fieldsOutside_trans orderFieldIds)).
    intros name []. unfold Backfill.applyOneTag, Backfill.applyTagToContact.
    apply (preserves_tryCatch _ (fieldsOutside_trans orderFieldIds));
      [|intros ?; framed orderFieldIds].
    apply (preserves_bind _ (fieldsOutside_trans orderFieldIds));
      [intros w; apply backfill_getOrCreateTagFuel_frame | intros ?; framed orderFieldIds].
Qed.

Lemma legacy_integration_frame env now data pid :
  preserves (fieldsOutside legacyFieldIds)
    (LegacyPayment.integrateWithKeap env now data pid).
Proof.
  unfold LegacyPayment.integrateWithKeap, LegacyPayment.createOrUpdateContact,
    LegacyPayment.createOrderTags, LegacyPayment.createTag,
    LegacyPayment.applyTagsToContact.
  framed legacyFieldIds; apply fetch_frame; payload_ids.
Qed.

Lemma tracking_update_fields_frame env today e tn shipmentType :
  preserves (fieldsOutside trackingFieldIds)
    (Tracking.updateTrackingInKeap env today e tn shipmentType).
Proof.
  unfold Tracking.updateTrackingInKeap, Tracking.getOrCreateTag,
    Tracking.applyTagToContact, Tracking.getTagId, Tracking.removeTagFromContact.
  framed trackingFieldIds; apply fetch_frame;
    intros p Hp f Hin; cbn [payloadOf] in Hp; injection Hp as <-;
    unfold Tracking.trackingFields in Hin;
    destruct (String.eqb shipmentType "cards"); cbn in Hin;
    repeat (destruct Hin as [<-|Hin]; [cbn; tauto|]); destruct Hin.
Qed.

(** X18.  Each writer keeps to its own custom fields, whatever the CRM
    answers and whether it returns or throws.  The webhook sync and the
    backfill sync change no field but the nine order fields, so a
    tracking number on record outlasts every later order; the first
    payment handler changes none but its six fields, 291 to 301; the
    tracking update changes none but the four tracking fields. *)
Theorem writers_keep_to_their_fields :
  forall w,
    (forall env now data,
        fieldsOutside orderFieldIds w (snd (Webhook.integrateWithKeap env now data w)))
    /\ (forall orderData emailConsent,
           fieldsOutside orderFieldIds w
             (snd (Backfill.syncToKeap orderData emailConsent w)))
    /\ (forall env now data paymentId,
           fieldsOutside legacyFieldIds w
             (snd (LegacyPayment.integrateWithKeap env now data paymentId w)))
    /\ (forall env today e trackingNumber shipmentType,
           fieldsOutside trackingFieldIds w
             (snd (Tracking.updateTrackingInKeap env today e trackingNumber
                     shipmentType w))).
Proof.
  intros w. split; [|split; [|split]].
  - intros. apply webhook_sync_frame.
  - intros. apply backfill_sync_frame.
  - intros. apply legacy_integration_frame.
  - intros. apply tracking_update_fields_frame.
Qed.

(** ** A new order of a customer whose earlier order has shipped *)

Lemma statusOfFields_order_fields now data h t old :
  Orders.statusOfFields (mergeFields (Webhook.customFieldsOf now data h t) old)
  = Orders.statusOfFields old.
Proof.
  unfold Orders.statusOfFields.
  rewrite !findField_mergeFields_other; [reflexivity| |];
    cbn; intros H; repeat (destruct H as [H|H]; [discriminate|]); exact H.
Qed.

(** X19.  The fulfilment status is kept per contact, not per order.  A
    customer is on record under an id no other contact has; the webhook
    syncs a new order of theirs, with the CRM answering every request.
    The status lookup for their email then reports what it reported
    before the order: when the cards of the earlier order had shipped,
    the new order is reported as shipped, under the earlier tracking
    number. *)
Theorem new_order_inherits_fulfilment_status :
  forall env now data w c,
    truthy (KEAP_ACCESS_TOKEN env) = true ->
    pending w = [] ->
    firstMatch (Webhook.i_email data) (crm w) = Some c ->
    (forall x, In x (contacts (crm w)) -> id x = id c -> x = c) ->
    exists r w1 s w2,
      Webhook.integrateWithKeap env now data w = (Ok r, w1)
      /\ Orders.getKeapFulfillmentStatus (Webhook.i_email data) w1 = (Ok s, w2)
      /\ s = Orders.statusOfFields (custom_fields c).
Proof.
  intros env now data w c Htok Hq Hfm Hunique.
  destruct (webhook_sync_record env now data w Htok Hq)
    as (r & w1 & c' & old & h & t & Hrun & Hq1 & Hfm1 & _ & Hfields & Hold).
  destruct (Hold c Hfm) as (c1 & Hin & Hid & ->).
  rewrite (Hunique c1 Hin Hid) in Hfields.
  exists r, w1. do 2 eexists. split; [exact Hrun|].
  unfold Orders.getKeapFulfillmentStatus.
  erewrite bind_ok by (apply fetch_quiet; exact Hq1).
  unfold ok at 1. cbn [perform fst snd status body contactsOf negb Z.leb andb].
  unfold firstMatch in Hfm1.
  destruct (filter _ (contacts (crm w1))) as [|x rest]; [discriminate|].
  injection Hfm1 as ->. cbn [Z.leb Z.compare negb andb].
  split; [reflexivity|].
  rewrite Hfields. apply statusOfFields_order_fields.
Qed.

Lemma new_order_inherits_fulfilment_status_witness :
  exists r w1 w2,
    Webhook.integrateWithKeap Sample.env Sample.feb Sample.secondOrder afterShipping
    = (Ok r, w1)
    /\ Orders.getKeapFulfillmentStatus "a@example.com" w1
       = (Ok (Orders.mkKeapStatus true false (Some "1Z999") None), w2).
Proof.
  destruct (new_order_inherits_fulfilment_status Sample.env Sample.feb
              Sample.secondOrder afterShipping shippedCustomer eq_refl eq_refl eq_refl)
    as (r & w1 & s & w2 & Hrun & Hstatus & Hs).
  - intros x [<-|[]] _. reflexivity.
  - exists r, w1, w2. split; [exact Hrun|]. rewrite Hs in Hstatus. exact Hstatus.
Defined.

(** ** From the checkout to the sync *)

Lemma boolToString_true b : String.eqb (Checkout.boolToString b) "true" = b.
Proof. destruct b; reflexivity. Qed.

Lemma checkout_hasPreOrder_bundle cart :
  Checkout.hasPreOrderOf cart = existsb isBundle cart.
Proof.
  unfold Checkout.hasPreOrderOf. induction cart as [|item cart IH]; [reflexivity|].
  cbn [existsb]. rewrite IH. f_equal.
  unfold isBundle, Checkout.PRODUCTS.
  destruct (String.eqb_spec (productId item) "cards-only") as [->|_]; [reflexivity|].
  destruct (String.eqb (productId item) "cards-book-bundle"); [reflexivity|].
  destruct (existsb _ Checkout.inheritedKeys); reflexivity.
Qed.

Lemma digit_not_t (c : ascii) : isDigit c = true -> Ascii.eqb c "t" = false.
Proof.
  destruct c as [[] [] [] [] [] [] [] []]; vm_compute; intros H;
    try discriminate; auto.
Qed.

Lemma showZ_not_true (n : Z) : String.eqb (showZ n) "true" = false.
Proof.
  destruct n as [|p|p].
  - reflexivity.
  - destruct (showZ_head (Zpos p) ltac:(lia)) as (c & s & -> & Hc).
    cbn [String.eqb]. now rewrite (digit_not_t c Hc).
  - reflexivity.
Qed.

Lemma comma_not_in_true (a b : string) : (a ++ "," ++ b)%string <> "true".
Proof.
  destruct a as [|c1 [|c2 [|c3 [|c4 [|c5 a]]]]]; cbn; intros H; inversion H.
Qed.

(** The text of a value is ["true"] for the boolean, for the string,
    and for an array that wraps one of them, and for nothing else. *)
Lemma jsString_true : forall v, jsString v = Some "true" <-> standsForTrue v = true.
Proof.
  fix IH 1. intros [ | |b|n|s|items|props].
  - cbn. split; discriminate.
  - cbn. split; discriminate.
  - destruct b; cbn; split; intros H; try discriminate H; reflexivity.
  - cbn. split; [|discriminate]. intros H. injection H as H.
    pose proof (showZ_not_true n) as Hn. rewrite H in Hn. discriminate Hn.
  - cbn. split.
    + intros H. injection H as ->. reflexivity.
    + intros H. apply String.eqb_eq in H. now rewrite H.
  - destruct items as [|x [|y rest]].
    + cbn. split; discriminate.
    + pose proof (IH x) as Hx. clear IH.
      change (standsForTrue (JArr [x])) with (standsForTrue x).
      destruct x; cbn in *; try exact Hx; split; discriminate.
    + clear IH. change (standsForTrue (JArr (x :: y :: rest))) with false.
      split; [|discriminate]. cbn [jsString].
      match goal with
      | |- match ?ex with Some _ => _ | None => _ end = _ -> _ => destruct ex as [a|]
      end; [|discriminate].
      match goal with
      | |- match ?er with Some _ => _ | None => _ end = _ -> _ => destruct er as [c|]
      end; [|discriminate].
      intros H. injection H as H. now apply comma_not_in_true in H.
  - clear IH. cbn. destruct (existsb _ props); split; discriminate.
Qed.

(** The consent text the checkout sets reads back as consent for the
    values that stand for true, and for no other. *)
Lemma consent_read_back (consent : JsVal) :
  Checkout.toString (jsOr consent (JBool false)) = Ok "true"
  <-> standsForTrue consent = true.
Proof.
  assert (Hto : forall v, Checkout.toString v = Ok "true" <-> jsString v = Some "true").
  { intros v. unfold Checkout.toString. destruct (jsString v) as [t|]; split;
      intros H; try discriminate H; congruence. }
  rewrite Hto.
  destruct consent as [ | |[]|[|q|q]|[|c s]|items|props];
    try apply jsString_true; cbn; split; discriminate.
Qed.

(** X20.  What the checkout puts in the session metadata is what the webhook
    and the backfill read back.  For a session that carries the metadata
    the checkout handler set for a cart and a consent value: both take
    the order for a pre-order exactly when the cart holds the bundle, and
    both take consent as given exactly when the value sent stands for
    true: the boolean [true], the string ["true"], or an array whose one
    element is such a value.  Every other value, truthy or not, is read
    as no consent. *)
Theorem checkout_metadata_read_back :
  forall cart consent m session,
    Checkout.metadataOf cart consent = Ok m ->
    metadata session = Some m ->
    StripeWebhook.hasPreOrderOf session = existsb isBundle cart
    /\ snd (Backfill.cartOf session) = existsb isBundle cart
    /\ (StripeWebhook.emailConsentOf session = true <-> standsForTrue consent = true)
    /\ Backfill.emailConsentOf session = StripeWebhook.emailConsentOf session.
Proof.
  intros cart consent m session Hm Hmeta.
  unfold Checkout.metadataOf in Hm.
  destruct (Checkout.toString (jsOr consent (JBool false))) as [text|err] eqn:Htext;
    [|discriminate Hm].
  injection Hm as <-.
  unfold StripeWebhook.hasPreOrderOf, Backfill.cartOf,
    StripeWebhook.emailConsentOf, Backfill.emailConsentOf.
  rewrite Hmeta. cbn [m_cartItems m_hasPreOrder m_emailConsent snd].
  rewrite boolToString_true, checkout_hasPreOrder_bundle.
  repeat split; try reflexivity.
  - intros H. apply String.eqb_eq in H. subst text. now apply consent_read_back.
  - intros H. apply consent_read_back in H. rewrite H in Htext.
    injection Htext as <-. reflexivity.
Qed.

Lemma checkout_metadata_read_back_witness :
  StripeWebhook.hasPreOrderOf bundleSession = true
  /\ StripeWebhook.emailConsentOf bundleSession = true
  /\ Backfill.emailConsentOf bundleSession = true.
Proof.
  destruct (checkout_metadata_read_back [Sample.bundle] (JArr [JStr "true"])
              (mkMetadata (CartParsed [Sample.bundle]) (Some "true") (Some "true"))
              bundleSession eq_refl eq_refl)
    as (Hpre & _ & Hconsent & Hsame).
  split; [exact Hpre|].
  split; [exact (proj2 Hconsent eq_refl)|].
  rewrite Hsame. exact (proj2 Hconsent eq_refl).
Defined.




Lemma lineItemsOf_sold cart :
  forallb isSold cart = true ->
  exists lineItems,
    Checkout.lineItemsOf cart = Ok lineItems
    /\ map Checkout.li_quantity lineItems = map quantity cart
    /\ map Checkout.unit_amount lineItems
       = map (fun item => if isBundle item then 6000 else 2000) cart.
Proof.
  induction cart as [|item cart IH]; [intros _; exists []; repeat split|].
  cbn [forallb Checkout.lineItemsOf]. unfold Checkout.lineItemOf at 1.
  unfold isSold at 1, isBundle at 1, Checkout.PRODUCTS. intros H.
  apply andb_true_iff in H. destruct H as [Hitem Hrest].
  destruct (IH Hrest) as (lineItems & -> & Hq & Hu).
  unfold isBundle at 1.
  destruct (String.eqb_spec (productId item) "cards-only") as [Hid|_].
  - eexists. split; [reflexivity|]. cbn [map Checkout.li_quantity Checkout.unit_amount].
    rewrite Hq, Hu, Hid. auto.
  - destruct (String.eqb (productId item) "cards-book-bundle") eqn:Hb; [|discriminate].
    eexists. split; [reflexivity|].
    cbn [map Checkout.li_quantity Checkout.unit_amount Checkout.price].
    rewrite Hq, Hu, Hb. auto.
Qed.

(** The argument of the session creation is built unless the consent
    value has no text, and it carries the line items and shipping options
    it was given. *)
Lemma sessionParamsOf_outcome lineItems shippingOptions request cart :
  match Checkout.sessionParamsOf lineItems shippingOptions request cart with
  | Ok params =>
      jsString (jsOr (Checkout.emailConsent request) (JBool false)) <> None
      /\ Checkout.line_items params = lineItems
      /\ Checkout.shipping_options params = shippingOptions
  | Throw _ => jsString (jsOr (Checkout.emailConsent request) (JBool false)) = None
  end.
Proof.
  unfold Checkout.sessionParamsOf, Checkout.metadataOf, Checkout.toString.
  destruct (jsString (jsOr (Checkout.emailConsent request) (JBool false))) as [text|].
  - repeat split. discriminate.
  - reflexivity.
Qed.

(** X22.  The checkout does not depend on the shipping rates.  For a cart of
    products for sale, when the shipping rates cannot be listed the
    session is still created, without shipping options, and the reply is
    what the creation of the session gives; the quantities charged are
    those of the cart and the unit amounts those of the table, whatever
    price the request names.  The one request that gets no session is
    the one whose consent value has no text (an object that carries a
    toString property, alone or inside arrays): taking its text throws,
    and the reply is the 500 of a failed checkout. *)
Theorem checkout_survives_rate_failure :
  forall env stripe event request cart err,
    httpMethod event = "POST" ->
    truthy (STRIPE_SECRET_KEY env) = true ->
    ebody event = Some request ->
    Checkout.cartItems request = Some cart ->
    cart <> [] ->
    forallb isSold cart = true ->
    Checkout.listRates stripe = Throw err ->
    exists lineItems,
      Checkout.lineItemsOf cart = Ok lineItems
      /\ map Checkout.li_quantity lineItems = map quantity cart
      /\ map Checkout.unit_amount lineItems
         = map (fun item => if isBundle item then 6000 else 2000) cart
      /\ match jsString (jsOr (Checkout.emailConsent request) (JBool false)) with
         | Some _ =>
             exists params,
               Checkout.sessionParamsOf lineItems [] request cart = Ok params
               /\ Checkout.line_items params = lineItems
               /\ Checkout.shipping_options params = []
               /\ Checkout.handler env stripe event
                  = match Checkout.createSession stripe params with
                    | Ok session =>
                        Checkout.Created (Checkout.client_secret session)
                          (Checkout.cs_id session)
                    | Throw error =>
                        Checkout.Failure 500 "Failed to create checkout session"
                          (Some (message error))
                    end
         | None =>
             exists msg,
               Checkout.handler env stripe event
               = Checkout.Failure 500 "Failed to create checkout session" (Some msg)
         end.
Proof.
  intros env stripe event request cart err Hm Hkey Hbody Hcart Hne Hsold Hrates.
  destruct (lineItemsOf_sold cart Hsold) as (lineItems & Hitems & Hq & Hu).
  exists lineItems. repeat split; auto.
  assert (Hrun : Checkout.handler env stripe event
                 = match Checkout.sessionParamsOf lineItems [] request cart with
                   | Throw error =>
                       Checkout.Failure 500 "Failed to create checkout session"
                         (Some (message error))
                   | Ok params =>
                       match Checkout.createSession stripe params with
                       | Ok session =>
                           Checkout.Created (Checkout.client_secret session)
                             (Checkout.cs_id session)
                       | Throw error =>
                           Checkout.Failure 500 "Failed to create checkout session"
                             (Some (message error))
                       end
                   end).
  { unfold Checkout.handler. rewrite Hm, Hkey, Hbody, Hcart, Hitems.
    cbn [String.eqb Ascii.eqb Bool.eqb negb].
    unfold Checkout.getOrCreateShippingRates. rewrite Hrates.
    destruct cart as [|item cart]; [now elim Hne|].
    destruct (Checkout.sessionParamsOf lineItems [] request (item :: cart));
      [destruct (Checkout.createSession stripe _)|]; reflexivity. }
  pose proof (sessionParamsOf_outcome lineItems [] request cart) as Hout.
  destruct (Checkout.sessionParamsOf lineItems [] request cart) as [params|error].
  - destruct Hout as (Htext & Hli & Hso).
    destruct (jsString (jsOr (Checkout.emailConsent request) (JBool false)));
      [|now elim Htext].
    exists params. repeat split; assumption.
  - rewrite Hout. eexists. exact Hrun.
Qed.

Lemma checkout_survives_rate_failure_witness :
  Checkout.handler Sample.env noRatesStripe (checkoutRequest [Sample.bundle])
  = Checkout.Created "cs_secret_1" "cs_1".
Proof.
  destruct (checkout_survives_rate_failure Sample.env noRatesStripe
              (checkoutRequest [Sample.bundle])
              (Checkout.mkCheckoutRequest (Some [Sample.bundle]) JUndefined (JBool true))
              [Sample.bundle] (OtherError "rate limit")
              eq_refl eq_refl eq_refl eq_refl)
    as (lineItems & _ & _ & _ & Hreply).
  - discriminate.
  - reflexivity.
  - reflexivity.
  - cbn [jsString jsOr Checkout.emailConsent] in Hreply.
    destruct Hreply as (params & Hparams & _ & _ & Hreply).
    injection Hparams as <-. exact Hreply.
Defined.

(** ** Tags are created once *)

Lemma keepsTagNames_refl w : keepsTagNames w w.
Proof. intros H. exact H. Qed.

Lemma keepsTagNames_trans a b c :
  keepsTagNames a b -> keepsTagNames b c -> keepsTagNames a c.
Proof. unfold keepsTagNames. auto. Qed.

Lemma perform_keeps_tags (r : Request) (s : Crm) :
  (forall name, r <> CreateTag name) -> tags (snd (perform r s)) = tags s.
Proof.
  intros Hr. destruct r; cbn [perform]; try reflexivity.
  - destruct (findContactById cid (contacts s)); reflexivity.
  - destruct (findContactById cid (contacts s)); reflexivity.
  - now elim (Hr name).
  - destruct (findContactById cid (contacts s)); reflexivity.
  - destruct (findContactById cid (contacts s)) as [c|]; [|reflexivity].
    destruct (hasTag tid c); reflexivity.
Qed.

Lemma fetch_keeps_tags (r : Request) (w : World) :
  (forall name, r <> CreateTag name) -> tags (crm (snd (fetch r w))) = tags (crm w).
Proof.
  intros Hr.
  destruct (fetch_cases r w) as [(st & _ & _ & Hf)|[_ Hf]]; rewrite Hf; cbn [snd crm];
    [reflexivity | now apply perform_keeps_tags].
Qed.

Lemma fetch_keeps_tag_names (r : Request) :
  (forall name, r <> CreateTag name) -> preserves keepsTagNames (fetch r).
Proof.
  intros Hr w. unfold keepsTagNames, tagNamesDistinct.
  now rewrite fetch_keeps_tags.
Qed.

(** A tag is created only after a search that found none of its name. *)
Lemma search_then_create_keeps_tag_names {A} (name : string)
    (found : Tag -> M A) (failed : Response -> M A) (created : Response -> M A) :
  (forall t, preserves keepsTagNames (found t)) ->
  (forall resp, preserves keepsTagNames (failed resp)) ->
  (forall resp, preserves keepsTagNames (created resp)) ->
  preserves keepsTagNames
    (searchResponse <- fetch (SearchTags name) ;;
     if negb (ok searchResponse) then failed searchResponse
     else match tagsOf (body searchResponse) with
          | t :: _ => found t
          | [] => createResponse <- fetch (CreateTag name) ;; created createResponse
          end).
Proof.
  intros Hfound Hfailed Hcreated w. unfold bind at 1.
  destruct (fetch_cases (SearchTags name) w) as [(st & Hbad & _ & Hf)|[_ Hf]];
    rewrite Hf.
  - cbn [ok status] in Hbad |- *. unfold ok in Hbad |- *. cbn [status] in *.
    rewrite Hbad. cbn [negb].
    eapply keepsTagNames_trans; [|apply Hfailed]. intros H. exact H.
  - cbn [perform fst snd]. unfold ok at 1. cbn [status body tagsOf].
    change ((200 <=? 200) && (200 <=? 299)) with true. cbn [negb].
    destruct (filter (fun t => String.eqb (tag_name t) name) (tags (crm w)))
      as [|t l] eqn:Hnone.
    + unfold bind.
      match goal with
      | |- context [fetch ?r0 ?w0] =>
          destruct (fetch_cases r0 w0) as [(st & _ & _ & Hc)|[_ Hc]]; rewrite Hc
      end.
      * eapply keepsTagNames_trans; [|apply Hcreated]. intros H. exact H.
      * eapply keepsTagNames_trans; [|apply Hcreated].
        unfold keepsTagNames, tagNamesDistinct. cbn [perform snd crm tags].
        intros Hnd. rewrite map_app. cbn [map tag_name].
        apply NoDup_app; [exact Hnd | repeat constructor; intros [] |].
        { intros x Hx [<-|[]]. apply in_map_iff in Hx.
          destruct Hx as (t & Hname & Hin).
          assert (Hmatch : In t (filter (fun t => String.eqb (tag_name t) name)
                                   (tags (crm w)))).
          { apply filter_In. split; [exact Hin|]. rewrite Hname.
            apply String.eqb_refl. }
          rewrite Hnone in Hmatch. exact Hmatch. }
    + eapply keepsTagNames_trans; [|apply Hfound]. intros H. exact H.
Qed.

Ltac tag_names :=
  repeat first
    [ apply (preserves_ret _ keepsTagNames_refl)
    | apply (preserves_throw _ keepsTagNames_refl)
    | apply search_then_create_keeps_tag_names; intros ?
    | apply (preserves_bind _ keepsTagNames_trans); [|intros ?]
    | apply (preserves_tryCatch _ keepsTagNames_trans); [|intros ?]
    | apply (preserves_forEach _ keepsTagNames_refl keepsTagNames_trans); intros ? ?
    | apply fetch_keeps_tag_names; intros ?; discriminate
    | match goal with
      | |- preserves _ (if ?b then _ else _) => destruct b
      | |- preserves _ (match ?x with _ => _ end) => destruct x
      end ].

Lemma webhook_sync_keeps_tag_names env now data :
  preserves keepsTagNames (Webhook.integrateWithKeap env now data).
Proof.
  unfold Webhook.integrateWithKeap, Webhook.applyOneTag, Webhook.getOrCreateTag,
    Webhook.applyTagToContact.
  tag_names.
Qed.

Lemma backfill_getOrCreateTagFuel_keeps_tag_names fuel name :
  preserves keepsTagNames (Backfill.getOrCreateTagFuel fuel name).
Proof.
  induction fuel as [|fuel IH]; cbn [Backfill.getOrCreateTagFuel].
  - apply (search_then_create_keeps_tag_names name
             (fun t => ret (tag_id t))
             (fun searchResponse =>
                if status searchResponse =? 429
                then throw (OtherError "rate limited")
                else throw (TagSearchFailed (status searchResponse)))
             (fun createResponse =>
                if negb (ok createResponse)
                then throw (TagCreationFailed (status createResponse))
                else ret (tagIdOf (body createResponse))));
      intros ?; tag_names.
  - apply (search_then_create_keeps_tag_names name
             (fun t => ret (tag_id t))
             (fun searchResponse =>
                if status searchResponse =? 429
                then Backfill.getOrCreateTagFuel fuel name
                else throw (TagSearchFailed (status searchResponse)))
             (fun createResponse =>
                if negb (ok createResponse)
                then throw (TagCreationFailed (status createResponse))
                else ret (tagIdOf (body createResponse))));
      intros ?; tag_names. exact IH.
Qed.

Lemma backfill_findKeapContactFuel_keeps_tag_names fuel e :
  preserves keepsTagNames (Backfill.findKeapContactFuel fuel e).
Proof.
  induction fuel as [|fuel IH]; simpl; tag_names. exact IH.
Qed.

Lemma backfill_sync_keeps_tag_names orderData consent :
  preserves keepsTagNames (Backfill.syncToKeap orderData consent).
Proof.
  unfold Backfill.syncToKeap.
  apply (preserves_bind _ keepsTagNames_trans);
    [intros w; apply backfill_findKeapContactFuel_keeps_tag_names|].
  intros existing.
  apply (preserves_bind _ keepsTagNames_trans); [destruct existing; tag_names|].
  intros contactId.
  apply (preserves_bind _ keepsTagNames_trans); [|intros ?; tag_names].
  apply (preserves_forEach _ keepsTagNames_refl keepsTagNames_trans).
  intros name []. unfold Backfill.applyOneTag, Backfill.applyTagToContact.
  apply (preserves_tryCatch _ keepsTagNames_trans); [|intros ?; tag_names].
  apply (preserves_bind _ keepsTagNames_trans);
    [intros w; apply backfill_getOrCreateTagFuel_keeps_tag_names | intros ?; tag_names].
Qed.

Lemma tracking_update_keeps_tag_names env today e tn shipmentType :
  preserves keepsTagNames (Tracking.updateTrackingInKeap env today e tn shipmentType).
Proof.
  unfold Tracking.updateTrackingInKeap, Tracking.getOrCreateTag,
    Tracking.applyTagToContact, Tracking.getTagId, Tracking.removeTagFromContact.
  tag_names.
Qed.

Lemma legacy_integration_keeps_tag_names env now data pid :
  preserves keepsTagNames (LegacyPayment.integrateWithKeap env now data pid).
Proof.
  unfold LegacyPayment.integrateWithKeap, LegacyPayment.createOrUpdateContact,
    LegacyPayment.createOrderTags, LegacyPayment.createTag,
    LegacyPayment.applyTagsToContact.
  tag_names.
Qed.

(** X23.  No handler creates a tag whose name is taken.  When the tags of the
    CRM have distinct names, they still have after the webhook sync, the
    backfill sync, the tracking update and the first payment handler's
    integration, whatever the CRM answers to each request and whether
    the run returns or throws: a tag is only created right after a
    search that found none of its name. *)
Theorem tags_are_created_once :
  forall w,
    tagNamesDistinct (crm w) ->
    (forall env now data,
        tagNamesDistinct (crm (snd (Webhook.integrateWithKeap env now data w))))
    /\ (forall orderData emailConsent,
           tagNamesDistinct (crm (snd (Backfill.syncToKeap orderData emailConsent w))))
    /\ (forall env today e trackingNumber shipmentType,
           tagNamesDistinct
             (crm (snd (Tracking.updateTrackingInKeap env today e trackingNumber
                          shipmentType w))))
    /\ (forall env now data paymentId,
           tagNamesDistinct
             (crm (snd (LegacyPayment.integrateWithKeap env now data paymentId w)))).
Proof.
  intros w Hw. split; [|split; [|split]]; intros.
  - now apply webhook_sync_keeps_tag_names.
  - now apply backfill_sync_keeps_tag_names.
  - now apply tracking_update_keeps_tag_names.
  - now apply legacy_integration_keeps_tag_names.
Qed.

Lemma tags_are_created_once_witness :
  tagNamesDistinct (crm Sample.afterFirst)
  /\ tagNamesDistinct
       (crm (snd (Webhook.integrateWithKeap Sample.env Sample.feb Sample.secondOrder
                    Sample.afterFirst))).
Proof.
  assert (H : tagNamesDistinct (crm Sample.afterFirst)).
  { unfold tagNamesDistinct. vm_compute.
    repeat (constructor; [intros Hin; repeat (destruct Hin as [Hin|Hin];
                                                [discriminate|]); exact Hin|]).
    constructor. }
  split; [exact H|].
  apply (proj1 (tags_are_created_once Sample.afterFirst H)).
Defined.

(** ** The two status lookups *)

(** X24.  The fulfilment check and the lookup of the order list agree.  For
    an authorised request with an email, [Fulfillment.handler] sends the
    one request [getKeapFulfillmentStatus] sends and leaves the same
    world.  Where the lookup returns, the store decides what both
    answer: with a contact on record under the email, the lookup returns
    the status of the first one and the handler reports found with the
    same four values, also when nothing has shipped; with no contact on
    record, the lookup returns the all-false status and the handler
    reports not found.  Where the lookup throws, the handler answers 429
    for a rate limit and 500 with the error's message otherwise. *)
Theorem check_fulfillment_agrees_with_order_lookup :
  forall env event e w,
    httpMethod event = "GET" ->
    unauthorized env (authorization event) = false ->
    ebody event = Some e ->
    e <> EmptyString ->
    truthy (KEAP_ACCESS_TOKEN env) = true ->
    snd (Fulfillment.handler env event w) = snd (Orders.getKeapFulfillmentStatus e w)
    /\ match fst (Orders.getKeapFulfillmentStatus e w) with
       | Ok s =>
           match firstMatch e (crm w) with
           | Some c =>
               s = Orders.statusOfFields (custom_fields c)
               /\ fst (Fulfillment.handler env event w)
                  = Ok (Fulfillment.Found (Orders.cardsShipped s) (Orders.bookShipped s)
                          (Orders.cardsTrackingNumber s) (Orders.bookTrackingNumber s))
           | None =>
               s = Orders.mkKeapStatus false false None None
               /\ fst (Fulfillment.handler env event w) = Ok Fulfillment.NotFound
           end
       | Throw err =>
           exists st,
             err = KeapSearchFailed st
             /\ fst (Fulfillment.handler env event w)
                = Ok (if st =? 429
                      then Fulfillment.Failure 429 "Rate limited. Please wait a moment."
                      else Fulfillment.Failure 500 (message err))
       end.
Proof.
  intros env event e w Hm Hauth Hbody Hne Htok.
  unfold Fulfillment.handler, Orders.getKeapFulfillmentStatus.
  rewrite Hm, Hauth, Hbody, Htok. cbn [String.eqb Ascii.eqb Bool.eqb negb truthy orElse].
  rewrite (nonEmpty_true e Hne). cbn [negb].
  unfold tryCatch, bind.
  destruct (fetch_cases (SearchContacts e true) w)
    as [(st & Hbad & _ & Hf)|[_ Hf]]; rewrite Hf.
  - cbn [status]. rewrite Hbad. cbn [negb].
    destruct (st =? 429) eqn:H429; unfold ret, throw; cbn [fst snd];
      (split; [reflexivity|]); exists st; rewrite H429; auto.
  - cbn [perform fst snd]. unfold ok. cbn [status body contactsOf].
    change ((200 <=? 200) && (200 <=? 299)) with true. cbn [negb].
    unfold firstMatch.
    destruct (filter (fun c => String.eqb (email c) e) (contacts (crm w))) as [|c l];
      unfold ret; cbn [fst snd hd_error]; (split; [reflexivity|]); auto.
Qed.

Lemma check_fulfillment_agrees_with_order_lookup_witness :
  fst (Fulfillment.handler Sample.env
         (mkEvent "GET" (Some "Bearer admin-key") (Some "a@example.com")) afterShipping)
  = Ok (Fulfillment.Found true false (Some "1Z999") None)
  /\ fst (Fulfillment.handler Sample.env
            (mkEvent "GET" (Some "Bearer admin-key") (Some "a@example.com"))
            Sample.subscriber)
     = Ok (Fulfillment.Found false false None None).
Proof.
  split.
  - destruct (check_fulfillment_agrees_with_order_lookup Sample.env
                (mkEvent "GET" (Some "Bearer admin-key") (Some "a@example.com"))
                "a@example.com" afterShipping eq_refl eq_refl eq_refl)
      as (_ & H).
    + discriminate.
    + reflexivity.
    + exact (proj2 H).
  - destruct (check_fulfillment_agrees_with_order_lookup Sample.env
                (mkEvent "GET" (Some "Bearer admin-key") (Some "a@example.com"))
                "a@example.com" Sample.subscriber eq_refl eq_refl eq_refl)
      as (_ & H).
    + discriminate.
    + reflexivity.
    + exact (proj2 H).
Defined.

(** ** The admin key *)

Lemma unauthorized_without_key env auth :
  (forall k, ADMIN_API_KEY env = Some k ->
             k = EmptyString \/ auth <> Some ("Bearer " ++ k)) ->
  unauthorized env auth = true.
Proof.
  intros H. unfold unauthorized.
  destruct (ADMIN_API_KEY env) as [k|]; [|reflexivity].
  destruct (H k eq_refl) as [->|Hk]; [reflexivity|].
  destruct (nonEmpty k); [|reflexivity].
  destruct auth as [h|]; [|reflexivity].
  destruct (String.eqb_spec h ("Bearer " ++ k)) as [->|_]; [now elim Hk | reflexivity].
Qed.

(** X25.  Without the admin key nothing is asked of Stripe or of the CRM.
    When the admin key is not configured, or is empty, or the
    Authorization header is not the bearer of that key, the backfill,
    the tracking update, the fulfilment check and both order lists
    answer 401 and leave the world as it is; with an empty key no header
    is accepted. *)
Theorem admin_endpoints_refuse_without_the_key :
  forall env auth,
    (forall k, ADMIN_API_KEY env = Some k ->
               k = EmptyString \/ auth <> Some ("Bearer " ++ k)) ->
    (forall stripe body w,
        Backfill.handler env stripe (mkEvent "POST" auth body) w
        = (Ok (Backfill.Failure 401 "Unauthorized" None), w))
    /\ (forall today body w,
           Tracking.handler env today (mkEvent "POST" auth body) w
           = (Ok (Tracking.Failure 401 "Unauthorized"), w))
    /\ (forall body w,
           Fulfillment.handler env (mkEvent "GET" auth body) w
           = (Ok (Fulfillment.Failure 401 "Unauthorized"), w))
    /\ (forall listed stripe w,
           GetOrders.handler env listed stripe (mkEvent "GET" auth tt) w
           = (Ok (GetOrders.Failure 401 "Unauthorized" None), w))
    /\ (forall listed stripe w,
           exists msg,
             GetOrdersPending.handler env listed stripe (mkEvent "GET" auth tt) w
             = (Ok (GetOrders.Failure 401 msg None), w)).
Proof.
  intros env auth Hkey.
  pose proof (unauthorized_without_key env auth Hkey) as Hun.
  split; [|split; [|split; [|split]]]; intros.
  - unfold Backfill.handler. cbn [httpMethod authorization]. rewrite Hun. reflexivity.
  - unfold Tracking.handler. cbn [httpMethod authorization]. rewrite Hun. reflexivity.
  - unfold Fulfillment.handler. cbn [httpMethod authorization]. rewrite Hun. reflexivity.
  - unfold GetOrders.handler. cbn [httpMethod authorization]. rewrite Hun. reflexivity.
  - unfold GetOrdersPending.handler. cbn [httpMethod authorization].
    cbn [String.eqb Ascii.eqb Bool.eqb negb].
    destruct (ADMIN_API_KEY env) as [k|] eqn:Hk; cbn [truthy]; [|eexists; reflexivity].
    destruct (nonEmpty k) eqn:Hne; cbn [negb]; [|eexists; reflexivity].
    destruct (Hkey k eq_refl) as [->|Hauth]; [discriminate|].
    destruct auth as [h|]; [|eexists; reflexivity].
    cbn [orElse].
    destruct (String.eqb_spec h ("Bearer " ++ k)) as [->|_]; [now elim Hauth|].
    eexists; reflexivity.
Qed.

Lemma admin_endpoints_refuse_without_the_key_witness :
  Backfill.handler (mkEnv (Some EmptyString) (Some "KeapAK-1") (Some "sk_test_1"))
    Sample.stripe (mkEvent "POST" (Some "Bearer ") None) Sample.subscriber
  = (Ok (Backfill.Failure 401 "Unauthorized" None), Sample.subscriber).
Proof.
  apply (proj1 (admin_endpoints_refuse_without_the_key
                  (mkEnv (Some EmptyString) (Some "KeapAK-1") (Some "sk_test_1"))
                  (Some "Bearer ")
                  (fun k Hk => or_introl (eq_sym (f_equal (fun o => orElse o EmptyString) Hk))))).
Defined.

(** ** The contact lookup of the backfill when the provider fails *)

Lemma findKeapContact_refused e w st rest :
  pending w = st :: rest ->
  ok (mkResponse st NoBody) = false ->
  st <> 429 ->
  Backfill.findKeapContact e w
  = (Ok None, mkWorld (crm w) rest (trace w ++ [SearchContacts e true])).
Proof.
  intros Hq Hbad H429. unfold Backfill.findKeapContact. rewrite Hq.
  cbn [List.length Backfill.findKeapContactFuel].
  erewrite bind_ok by (eapply fetch_refused; eassumption).
  rewrite Hbad. cbn [negb status].
  destruct (Z.eqb_spec st 429) as [H|_]; [now elim H429 | reflexivity].
Qed.

Lemma traceGrows_refl w : traceGrows w w.
Proof. exists []. now rewrite app_nil_r. Qed.

Lemma traceGrows_trans a b c : traceGrows a b -> traceGrows b c -> traceGrows a c.
Proof.
  intros (t1 & H1) (t2 & H2). exists (t1 ++ t2)%list.
  now rewrite H2, H1, app_assoc.
Qed.

Lemma fetch_sends (r : Request) (w : World) :
  trace (snd (fetch r w)) = (trace w ++ [r])%list.
Proof.
  destruct (fetch_cases r w) as [(st & _ & _ & Hf)|[_ Hf]]; rewrite Hf; reflexivity.
Qed.

Lemma fetch_grows (r : Request) : preserves traceGrows (fetch r).
Proof. intros w. exists [r]. apply fetch_sends. Qed.

Ltac grows :=
  repeat first
    [ apply (preserves_ret _ traceGrows_refl)
    | apply (preserves_throw _ traceGrows_refl)
    | apply (preserves_bind _ traceGrows_trans); [|intros ?]
    | apply (preserves_tryCatch _ traceGrows_trans); [|intros ?]
    | apply fetch_grows
    | match goal with
      | |- preserves _ (if ?b then _ else _) => destruct b
      | |- preserves _ (match ?x with _ => _ end) => destruct x
      end ].

Lemma bind_fetch_sends {A} (r : Request) (k : Response -> M A) (w : World) :
  (forall resp, preserves traceGrows (k resp)) ->
  exists tr, trace (snd (bind (fetch r) k w)) = (trace w ++ r :: tr)%list.
Proof.
  intros Hk. unfold bind.
  pose proof (fetch_sends r w) as Hsent.
  destruct (fetch r w) as [[resp|err] w1]; cbn [snd] in *.
  - destruct (Hk resp w1) as (tr & Htr). exists tr.
    rewrite Htr, Hsent, <- app_assoc. reflexivity.
  - exists []. exact Hsent.
Qed.

Lemma bind_assoc {A B C} (m : M A) (k1 : A -> M B) (k2 : B -> M C) (w : World) :
  bind (bind m k1) k2 w = bind m (fun a => bind (k1 a) k2) w.
Proof. unfold bind. destruct (m w) as [[a|e] w1]; reflexivity. Qed.

Lemma backfill_getOrCreateTagFuel_grows fuel name :
  preserves traceGrows (Backfill.getOrCreateTagFuel fuel name).
Proof.
  induction fuel as [|fuel IH]; simpl; grows. exact IH.
Qed.

Lemma backfill_tags_grow cid names :
  preserves traceGrows (forEach names (Backfill.applyOneTag cid) tt).
Proof.
  apply (preserves_forEach _ traceGrows_refl traceGrows_trans).
  intros x []. unfold Backfill.applyOneTag, Backfill.applyTagToContact.
  apply (preserves_tryCatch _ traceGrows_trans); [|intros ?; grows].
  apply (preserves_bind _ traceGrows_trans); [|intros ?; grows].
  intros w. apply backfill_getOrCreateTagFuel_grows.
Qed.

(** On a provider that answers, the sync of the backfill looks the
    contact up and, finding one, sends the PATCH of that contact. *)
Lemma backfill_sync_sends_update orderData consent w c :
  pending w = [] ->
  firstMatch (Backfill.o_email orderData) (crm w) = Some c ->
  exists tail,
    trace (snd (Backfill.syncToKeap orderData consent w))
    = (trace w
         ++ SearchContacts (Backfill.o_email orderData) true
         :: UpdateContact (id c) (Backfill.contactPayloadOf orderData consent)
         :: tail)%list.
Proof.
  intros Hq Hfm. unfold Backfill.syncToKeap.
  erewrite bind_ok by (apply findKeapContact_quiet; exact Hq).
  rewrite Hfm. cbv beta iota. rewrite bind_assoc.
  match goal with
  | |- context [bind (fetch ?r) ?k ?w1] =>
      destruct (bind_fetch_sends r k w1) as (tail & Htail)
  end.
  { intros resp. cbv beta.
    apply (preserves_bind _ traceGrows_trans); [grows|]. intros cid.
    apply (preserves_bind _ traceGrows_trans); [apply backfill_tags_grow|].
    intros ?. grows. }
  exists tail. rewrite Htail. cbn [trace]. rewrite <- app_assoc. reflexivity.
Qed.

(** C8.  The contact search of the backfill does not fail on a failure.
    For a status that is neither a success nor 429, [findKeapContact]
    returns [null], which is what it returns for an email nobody has,
    whatever the store holds: it does not fail, and no error carries the
    status.  The other contact searches, those of the fulfilment lookup,
    of the tracking update and of the webhook sync, fail on the same
    answer with an error that carries the status. *)
Theorem find_contact_failure_reports_no_contact :
  forall (st : Z) (rest : list Z) (s : Crm) (tr : list Request) (e : string),
    ok (mkResponse st NoBody) = false ->
    st <> 429 ->
    let w := mkWorld s (st :: rest) tr in
    Backfill.findKeapContact e w
    = (Ok None, mkWorld s rest (tr ++ [SearchContacts e true]))
    /\ ~ failsWithStatus st (Backfill.findKeapContact e w)
    /\ failsWithStatus st (Orders.getKeapFulfillmentStatus e w)
    /\ (forall env today tn ty,
           truthy (KEAP_ACCESS_TOKEN env) = true ->
           failsWithStatus st (Tracking.updateTrackingInKeap env today e tn ty w))
    /\ (forall env now data,
           truthy (KEAP_ACCESS_TOKEN env) = true ->
           Webhook.i_email data = e ->
           failsWithStatus st (Webhook.integrateWithKeap env now data w)).
Proof.
  intros st rest s tr e Hbad H429 w. subst w.
  assert (Hfind : Backfill.findKeapContact e (mkWorld s (st :: rest) tr)
                  = (Ok None, mkWorld s rest (tr ++ [SearchContacts e true])))
    by (apply (findKeapContact_refused e (mkWorld s (st :: rest) tr) st rest);
        [reflexivity | exact Hbad | exact H429]).
  split; [exact Hfind|].
  split; [rewrite Hfind; intros (err & Herr & _); discriminate Herr|].
  assert (Hbad' : (200 <=? st) && (st <=? 299) = false) by exact Hbad.
  apply Z.eqb_neq in H429.
  split; [|split].
  - unfold Orders.getKeapFulfillmentStatus. run_failure Hbad Hbad' H429.
  - intros env today tn ty Htok. unfold Tracking.updateTrackingInKeap. rewrite Htok.
    run_failure Hbad Hbad' H429.
  - intros env now data Htok <-. unfold Webhook.integrateWithKeap. rewrite Htok.
    run_failure Hbad Hbad' H429.
Qed.

Lemma find_contact_failure_reports_no_contact_witness :
  firstMatch "a@example.com" (mkCrm [Sample.customer] [] 2) = Some Sample.customer
  /\ fst (Backfill.findKeapContact "a@example.com"
            (mkWorld (mkCrm [Sample.customer] [] 2) [500] [])) = Ok None
  /\ failsWithStatus 500
       (Orders.getKeapFulfillmentStatus "a@example.com"
          (mkWorld (mkCrm [Sample.customer] [] 2) [500] [])).
Proof.
  split; [reflexivity|].
  destruct (find_contact_failure_reports_no_contact 500 []
              (mkCrm [Sample.customer] [] 2) [] "a@example.com" eq_refl
              ltac:(discriminate))
    as (Hfind & _ & Hlookup & _).
  split; [rewrite Hfind; reflexivity | exact Hlookup].
Defined.

Opaque forEach.

(** C3.  The guard of the backfill gives way when its lookup fails.  The
    customer of the session is on record with a filled-in payment-id
    field (custom field 311), and the lookup of the guard is answered
    with a failure status other than 429.  [findKeapContact] then takes
    the customer for one that is not on record, and the session is not
    skipped: with dryRun true it is reported as would_sync; with dryRun
    false, the CRM answering from there on, it is synced, the PATCH of
    the contact is sent, and the payment id on record is overwritten
    with that of the session. *)
Theorem backfill_guard_gives_way_when_lookup_fails :
  forall (dryRun : bool) stripe sid session e c results s tr st,
    retrieve stripe sid = Ok session ->
    customer_email session = Some e ->
    e <> EmptyString ->
    firstMatch e s = Some c ->
    fieldFilled 311 (custom_fields c) ->
    ok (mkResponse st NoBody) = false ->
    st <> 429 ->
    exists results' w' detail,
      Backfill.processSession dryRun stripe sid results (mkWorld s [st] tr)
      = (Ok results', w')
      /\ Backfill.skipped results' = Backfill.skipped results
      /\ Backfill.synced results' = S (Backfill.synced results)
      /\ Backfill.errors results' = Backfill.errors results
      /\ Backfill.details results' = (Backfill.details results ++ [detail])%list
      /\ Backfill.d_status detail = (if dryRun then "would_sync" else "synced")
      /\ (dryRun = false ->
          exists c' p tail,
            trace w'
            = (tr ++ SearchContacts e true :: SearchContacts e true
                  :: UpdateContact (id c) p :: tail)%list
            /\ firstMatch e (crm w') = Some c'
            /\ findField PAYMENT_ID (custom_fields c')
               = Some (mkField PAYMENT_ID (payment_intent session))).
Proof.
  intros dryRun stripe sid session e c results s tr st
    Hret Hmail Hne Hfm Hfilled Hbad H429.
  unfold Backfill.processSession, tryCatch.
  erewrite bind_ok by (unfold liftRes; rewrite Hret; reflexivity).
  rewrite Hmail. destruct e as [|a e]; [now elim Hne|].
  erewrite bind_ok
    by (apply (findKeapContact_refused _ (mkWorld s [st] tr) st []);
        [reflexivity | exact Hbad | exact H429]).
  cbn [crm trace].
  destruct (Backfill.cartOf session) as [cartItems hasPreOrder].
  destruct dryRun.
  - unfold ret. do 3 eexists. split; [reflexivity|].
    cbn. repeat split; try reflexivity. discriminate.
  - match goal with
    | |- context [Backfill.syncToKeap ?o ?consent] =>
        set (orderData := o); set (emailConsent := consent)
    end.
    set (w1 := mkWorld s [] (tr ++ [SearchContacts (String a e) true])).
    destruct (backfill_sync_record orderData emailConsent w1 eq_refl)
      as (res & w2 & c' & old & Hrun & _ & Hfm' & _ & _ & Hfields).
    destruct (backfill_sync_sends_update orderData emailConsent w1 c eq_refl Hfm)
      as (tail & Htail).
    rewrite Hrun in Htail. cbn [snd] in Htail.
    erewrite bind_ok by exact Hrun. unfold ret.
    do 3 eexists. split; [reflexivity|].
    cbn. repeat split; try reflexivity.
    intros _. exists c', (Backfill.contactPayloadOf orderData emailConsent), tail.
    split; [|split].
    + rewrite Htail. subst w1. cbn [trace Backfill.o_email orderData].
      rewrite <- app_assoc. reflexivity.
    + exact Hfm'.
    + rewrite Hfields.
      apply (backfill_fields_merged orderData old
               (mkField PAYMENT_ID (payment_intent session))).
      cbn. tauto.
Qed.

Transparent forEach.

Lemma backfill_guard_gives_way_when_lookup_fails_witness :
  firstMatch "a@example.com" (mkCrm [Sample.customer] [] 2) = Some Sample.customer
  /\ fieldFilled 311 (custom_fields Sample.customer)
  /\ exists results' w' c',
       Backfill.processSession false Sample.stripe "cs_2" Backfill.emptyResults
         (mkWorld (mkCrm [Sample.customer] [] 2) [500] []) = (Ok results', w')
       /\ Backfill.skipped results' = 0%nat
       /\ Backfill.synced results' = 1%nat
       /\ firstMatch "a@example.com" (crm w') = Some c'
       /\ findField PAYMENT_ID (custom_fields c')
          = Some (mkField PAYMENT_ID (Some "pi_2")).
Proof.
  assert (Hfilled : fieldFilled 311 (custom_fields Sample.customer)).
  { exists (mkField 311 (Some "pi_1")), "pi_1". repeat split. discriminate. }
  split; [reflexivity|]. split; [exact Hfilled|].
  destruct (backfill_guard_gives_way_when_lookup_fails false Sample.stripe "cs_2"
              Sample.session2 "a@example.com" Sample.customer Backfill.emptyResults
              (mkCrm [Sample.customer] [] 2) [] 500
              eq_refl eq_refl ltac:(discriminate) eq_refl Hfilled eq_refl
              ltac:(discriminate))
    as (results' & w' & detail & Hrun & Hsk & Hsy & _ & _ & _ & Hlive).
  destruct (Hlive eq_refl) as (c' & p & tail & _ & Hfm & Hfield).
  exists results', w', c'. repeat split; assumption.
Defined.

(** ** The backfill when the contact lookup fails *)

Lemma contactsUnder_untagged e (s s' : Crm) :
  map untagged (contacts s') = map untagged (contacts s) ->
  contactsUnder e s' = contactsUnder e s.
Proof.
  unfold contactsUnder. generalize (contacts s') (contacts s).
  induction l as [|a l IH]; intros [|b l'] H; try discriminate H; [reflexivity|].
  cbn [map] in H.
  assert (Hab : untagged a = untagged b)
    by exact (f_equal (fun l => hd (untagged a) l) H).
  assert (Hl : map untagged l = map untagged l') by exact (f_equal (@tl _) H).
  assert (Hmail : email a = email b).
  { change (email (untagged a) = email (untagged b)). now rewrite Hab. }
  cbn [filter]. rewrite Hmail.
  destruct (String.eqb (email b) e); cbn [List.length]; rewrite (IH l' Hl); reflexivity.
Qed.

Opaque forEach.

(** X26.  A lookup that fails is taken for a customer that is not there.  The
    guard lookup and the lookup of the sync are both answered with a
    failure status other than 429, and the rest is answered.  The
    session is then synced by creating a contact, whether or not the
    customer is on record, with or without order data: one more contact
    is on record under the email than before. *)
Theorem backfill_lookup_failure_creates_a_contact :
  forall stripe sid session e r w s1 s2,
    retrieve stripe sid = Ok session ->
    customer_email session = Some e ->
    e <> EmptyString ->
    pending w = [s1; s2] ->
    ok (mkResponse s1 NoBody) = false -> s1 <> 429 ->
    ok (mkResponse s2 NoBody) = false -> s2 <> 429 ->
    exists r1 w1,
      Backfill.processSession false stripe sid r w = (Ok r1, w1)
      /\ Backfill.synced r1 = S (Backfill.synced r)
      /\ Backfill.errors r1 = Backfill.errors r
      /\ contactsUnder e (crm w1) = S (contactsUnder e (crm w)).
Proof.
  intros stripe sid session e r w s1 s2 Hret Hmail Hne Hq Hs1 H1 Hs2 H2.
  unfold Backfill.processSession, tryCatch.
  erewrite bind_ok by (unfold liftRes; rewrite Hret; reflexivity).
  rewrite Hmail. destruct e as [|a e]; [now elim Hne|].
  erewrite bind_ok by (eapply findKeapContact_refused; eassumption).
  destruct (Backfill.cartOf session) as [cartItems hasPreOrder].
  match goal with
  | |- context [Backfill.syncToKeap ?o ?consent] =>
      set (orderData := o); set (emailConsent := consent)
  end.
  assert (Hsync : exists res w1,
             Backfill.syncToKeap orderData emailConsent
               (mkWorld (crm w) [s2] (trace w ++ [SearchContacts (String a e) true]))
             = (Ok res, w1)
             /\ contactsUnder (String a e) (crm w1)
                = S (contactsUnder (String a e) (crm w))).
  { unfold Backfill.syncToKeap.
    erewrite bind_ok
      by (eapply findKeapContact_refused; [reflexivity | eassumption | eassumption]).
    erewrite bind_ok.
    2:{ erewrite bind_ok by (apply fetch_quiet; reflexivity).
        simpl. unfold ok. simpl. unfold ret. reflexivity. }
    match goal with
    | |- context [bind (forEach ?names ?body tt) ?k ?w2] =>
        destruct (backfill_tags_return (next_id (crm w)) names w2) as (w3 & Hloop);
          pose proof (backfill_tags_keep (next_id (crm w)) names w2) as Hkept
    end.
    rewrite (bind_ok _ _ _ _ _ Hloop). rewrite Hloop in Hkept. cbn [snd] in Hkept.
    do 2 eexists. split; [reflexivity|].
    rewrite (contactsUnder_untagged _ _ _ (proj1 Hkept)).
    unfold contactsUnder. cbn [crm contacts]. rewrite filter_app, length_app.
    cbn [filter]. subst orderData.
    rewrite backfill_payload_email. cbn [Backfill.o_email].
    rewrite String.eqb_refl. cbn [List.length]. lia. }
  destruct Hsync as (res & w1 & Hsync & Hcount).
  erewrite bind_ok by exact Hsync. unfold ret.
  do 2 eexists. split; [reflexivity|]. cbn. repeat split; auto.
Qed.

Transparent forEach.


Lemma backfill_lookup_failure_creates_a_contact_witness :
  contactsUnder "a@example.com" (crm Sample.afterFirst) = 1%nat
  /\ exists r1 w1,
       Backfill.processSession false Sample.stripe "cs_2" Backfill.emptyResults
         (mkWorld (crm Sample.afterFirst) [500; 503] []) = (Ok r1, w1)
       /\ Backfill.synced r1 = 1%nat
       /\ contactsUnder "a@example.com" (crm w1) = 2%nat.
Proof.
  assert (Hbefore : contactsUnder "a@example.com" (crm Sample.afterFirst) = 1%nat)
    by (vm_compute; reflexivity).
  split; [exact Hbefore|].
  destruct (backfill_lookup_failure_creates_a_contact Sample.stripe "cs_2"
              Sample.session2 "a@example.com" Backfill.emptyResults
              (mkWorld (crm Sample.afterFirst) [500; 503] []) 500 503
              eq_refl eq_refl ltac:(discriminate) eq_refl
              eq_refl ltac:(discriminate) eq_refl ltac:(discriminate))
    as (r1 & w1 & Hrun & Hsy & _ & Hcount).
  exists r1, w1. split; [exact Hrun|]. split; [exact Hsy|].
  rewrite Hcount. cbn [crm]. rewrite Hbefore. reflexivity.
Defined.

(** ** The tags of a tracking update *)

Lemma hasTag_addTag tid c : hasTag tid (addTag tid c) = true.
Proof.
  unfold addTag. destruct (hasTag tid c) eqn:H; [exact H|].
  unfold hasTag. cbn [withTags tag_ids]. rewrite existsb_app. cbn [existsb].
  rewrite Z.eqb_refl. apply orb_true_iff. right. reflexivity.
Qed.

Lemma hasTag_dropTag tid c : hasTag tid (dropTag tid c) = false.
Proof.
  unfold hasTag, dropTag. cbn [withTags tag_ids].
  induction (tag_ids c) as [|t l IH]; [reflexivity|].
  cbn [filter]. destruct (Z.eqb_spec t tid) as [->|Hne]; cbn [negb]; [exact IH|].
  cbn [existsb]. rewrite IH.
  destruct (Z.eqb_spec tid t) as [->|_]; [now elim Hne | reflexivity].
Qed.

Lemma hasTag_dropTag_other tid a c : a <> tid -> hasTag tid (dropTag a c) = hasTag tid c.
Proof.
  intros Hne. unfold hasTag, dropTag. cbn [withTags tag_ids].
  induction (tag_ids c) as [|t l IH]; [reflexivity|].
  cbn [filter existsb]. destruct (Z.eqb_spec t a) as [->|Hta]; cbn [negb].
  - rewrite IH. destruct (Z.eqb_spec tid a) as [->|_]; [now elim Hne | reflexivity].
  - cbn [existsb]. now rewrite IH.
Qed.

Lemma findContactById_unique c cs :
  In c cs -> (forall x, In x cs -> id x = id c -> x = c) ->
  findContactById (id c) cs = Some c.
Proof.
  intros Hin Hunique. unfold findContactById.
  destruct (find (fun x => id x =? id c) cs) as [x|] eqn:Hfind.
  - apply find_some in Hfind. destruct Hfind as [Hx Hid].
    apply Z.eqb_eq in Hid. now rewrite (Hunique x Hx Hid).
  - apply (find_none _ _ Hfind) in Hin. rewrite Z.eqb_refl in Hin. discriminate.
Qed.

Lemma firstMatch_In e s c : firstMatch e s = Some c -> In c (contacts s).
Proof.
  unfold firstMatch. intros H.
  destruct (filter _ (contacts s)) as [|x l] eqn:Hf; [discriminate|].
  injection H as ->.
  assert (Hin : In c (filter (fun c => String.eqb (email c) e) (contacts s)))
    by (rewrite Hf; now left).
  apply filter_In in Hin. tauto.
Qed.

(** Where the contact of id [cid] stands after each contact of that id
    went through [f], for an [f] that keeps id and email. *)
Lemma contact_after_map e cid (f : Contact -> Contact) cs c :
  (forall x, id (f x) = id x) ->
  (forall x, email (f x) = email x) ->
  id c = cid ->
  hd_error (filter (fun x => String.eqb (email x) e) cs) = Some c ->
  findContactById cid cs = Some c ->
  hd_error (filter (fun x => String.eqb (email x) e) (mapContact cid f cs)) = Some (f c)
  /\ findContactById cid (mapContact cid f cs) = Some (f c).
Proof.
  intros Hid Hmail Hc Hhd Hfind. split.
  - rewrite firstMatch_mapContact_same by exact Hmail. rewrite Hhd. cbn [option_map].
    rewrite Hc, Z.eqb_refl. reflexivity.
  - rewrite findContactById_mapContact by exact Hid. rewrite Hfind. cbn [option_map].
    rewrite Hc, Z.eqb_refl. reflexivity.
Qed.

(** Getting or creating a tag and applying it, in a CRM that answers. *)
Lemma tracking_apply_shipped cid name c0 w :
  pending w = [] ->
  findContactById cid (contacts (crm w)) = Some c0 ->
  exists tid w',
    tryCatch
      (shippedTagId <- Tracking.getOrCreateTag name ;;
       Tracking.applyTagToContact cid shippedTagId)
      (fun _ => ret tt) w = (Ok tt, w')
    /\ pending w' = []
    /\ contacts (crm w') = mapContact cid (addTag tid) (contacts (crm w))
    /\ tagIdNamed name (crm w') = Some tid.
Proof.
  intros Hq Hc0. unfold tryCatch, Tracking.getOrCreateTag, Tracking.applyTagToContact.
  unfold bind at 1. unfold bind at 1.
  rewrite (fetch_quiet _ w Hq). cbn [perform fst snd]. unfold ok at 1.
  cbn [status body tagsOf].
  change ((200 <=? 200) && (200 <=? 299)) with true. cbn [negb].
  destruct (filter (fun t => String.eqb (tag_name t) name) (tags (crm w)))
    as [|t l] eqn:Hfilter.
  - unfold bind at 1. rewrite fetch_quiet by reflexivity.
    cbn [perform fst snd crm]. unfold ok at 1. cbn [status body tagIdOf tag_id].
    change ((200 <=? 201) && (201 <=? 299)) with true. cbn [negb]. unfold ret at 1.
    unfold bind. rewrite fetch_quiet by reflexivity.
    cbn [perform fst snd crm contacts]. rewrite Hc0. cbn [fst snd]. unfold ok.
    cbn [status]. change ((200 <=? 200) && (200 <=? 299)) with true. cbn [negb].
    unfold ret. exists (next_id (crm w)). eexists. split; [reflexivity|].
    cbn [pending crm contacts tags]. split; [reflexivity|]. split; [reflexivity|].
    unfold tagIdNamed. cbn [tags]. rewrite filter_app, Hfilter. cbn [app filter tag_name].
    rewrite String.eqb_refl. reflexivity.
  - unfold ret at 1. unfold bind. rewrite fetch_quiet by reflexivity.
    cbn [perform fst snd crm contacts]. rewrite Hc0. cbn [fst snd]. unfold ok.
    cbn [status]. change ((200 <=? 200) && (200 <=? 299)) with true. cbn [negb].
    unfold ret. exists (tag_id t). eexists. split; [reflexivity|].
    cbn [pending crm contacts tags]. split; [reflexivity|]. split; [reflexivity|].
    unfold tagIdNamed. cbn [tags]. rewrite Hfilter. reflexivity.
Qed.

(** Looking the awaiting tag up and removing it, in a CRM that
    answers. *)
Lemma tracking_remove_awaiting cid name c0 w :
  pending w = [] ->
  findContactById cid (contacts (crm w)) = Some c0 ->
  exists w',
    tryCatch
      (awaitingTagId <- Tracking.getTagId name ;;
       match awaitingTagId with
       | Some t => Tracking.removeTagFromContact cid t
       | None => ret tt
       end)
      (fun _ => ret tt) w = (Ok tt, w')
    /\ tags (crm w') = tags (crm w)
    /\ contacts (crm w')
       = match tagIdNamed name (crm w) with
         | Some a =>
             if a =? 0 then contacts (crm w)
             else if hasTag a c0 then mapContact cid (dropTag a) (contacts (crm w))
             else contacts (crm w)
         | None => contacts (crm w)
         end.
Proof.
  intros Hq Hc0. unfold tryCatch, Tracking.getTagId, Tracking.removeTagFromContact.
  unfold bind at 1. unfold bind at 1.
  rewrite (fetch_quiet _ w Hq). cbn [perform fst snd]. unfold ok at 1.
  cbn [status body tagsOf].
  change ((200 <=? 200) && (200 <=? 299)) with true. cbn [negb].
  unfold tagIdNamed.
  destruct (filter (fun t => String.eqb (tag_name t) name) (tags (crm w)))
    as [|t l] eqn:Hfilter; cbn [hd_error option_map].
  - unfold ret. eexists. split; [reflexivity|]. split; reflexivity.
  - unfold ret at 1. destruct (tag_id t =? 0) eqn:Hzero.
    + unfold ret. eexists. split; [reflexivity|]. split; reflexivity.
    + unfold bind. rewrite fetch_quiet by reflexivity.
      cbn [perform fst snd crm contacts]. rewrite Hc0.
      destruct (hasTag (tag_id t) c0) eqn:Hhas; cbn [fst snd]; unfold ok;
        cbn [status].
      * change ((200 <=? 204) && (204 <=? 299)) with true. cbn [negb andb].
        unfold ret. eexists. split; [reflexivity|]. split; reflexivity.
      * change ((200 <=? 404) && (404 <=? 299)) with false.
        change (404 =? 404) with true. cbn [negb andb].
        unfold ret. eexists. split; [reflexivity|]. split; reflexivity.
Qed.

Lemma addTag_id tid x : id (addTag tid x) = id x.
Proof. unfold addTag. destruct (hasTag tid x); reflexivity. Qed.

Lemma addTag_email tid x : email (addTag tid x) = email x.
Proof. unfold addTag. destruct (hasTag tid x); reflexivity. Qed.

(** X27.  A tracking update swaps the tags.  The customer is on record under
    an id no other contact has, and the CRM answers every request.
    After the update the contact carries the shipped tag of the leg, and
    no longer the awaiting tag of the leg where the CRM holds one. *)
Theorem tracking_update_swaps_the_tags :
  forall env today e trackingNumber shipmentType w c,
    truthy (KEAP_ACCESS_TOKEN env) = true ->
    pending w = [] ->
    firstMatch e (crm w) = Some c ->
    (forall x, In x (contacts (crm w)) -> id x = id c -> x = c) ->
    exists w' c' tid,
      Tracking.updateTrackingInKeap env today e trackingNumber shipmentType w
      = (Ok (id c), w')
      /\ firstMatch e (crm w') = Some c'
      /\ tagIdNamed (shippedTagOf shipmentType) (crm w') = Some tid
      /\ match tagIdNamed (awaitingTagOf shipmentType) (crm w') with
         | Some a =>
             if a =? 0 then hasTag tid c' = true
             else hasTag a c' = false /\ (a <> tid -> hasTag tid c' = true)
         | None => hasTag tid c' = true
         end.
Proof.
  intros env today e tn ty w c Htok Hq Hfm Hunique.
  pose proof (findContactById_unique c (contacts (crm w)) (firstMatch_In _ _ _ Hfm)
                Hunique) as Hc0.
  pose proof Hfm as Hhd. unfold firstMatch in Hhd.
  set (f := applyPayload (Tracking.trackingPayload (Tracking.trackingFields tn today ty))).
  destruct (contact_after_map e (id c) f (contacts (crm w)) c) as [Hhd2 Hfind2];
    [reflexivity | reflexivity | reflexivity | exact Hhd | exact Hc0 |].
  set (w2 := mkWorld (mkCrm (mapContact (id c) f (contacts (crm w))) (tags (crm w))
                        (next_id (crm w))) []
               ((trace w ++ [SearchContacts e false])
                  ++ [UpdateContact (id c)
                        (Tracking.trackingPayload (Tracking.trackingFields tn today ty))])).
  destruct (tracking_apply_shipped (id c) (shippedTagOf ty) (f c) w2 eq_refl Hfind2)
    as (tid & w3 & Hrun3 & Hq3 & Hcontacts3 & Hshipped3).
  destruct (contact_after_map e (id c) (addTag tid) (contacts (crm w2)) (f c))
    as [Hhd3 Hfind3];
    [apply addTag_id | apply addTag_email | reflexivity | exact Hhd2 | exact Hfind2 |].
  rewrite <- Hcontacts3 in Hhd3, Hfind3.
  destruct (tracking_remove_awaiting (id c) (awaitingTagOf ty) (addTag tid (f c)) w3
              Hq3 Hfind3)
    as (w4 & Hrun4 & Htags4 & Hcontacts4).
  assert (Hrun : Tracking.updateTrackingInKeap env today e tn ty w = (Ok (id c), w4)).
  { unfold Tracking.updateTrackingInKeap. rewrite Htok. cbn [negb].
    erewrite bind_ok by (apply fetch_quiet; exact Hq).
    unfold ok at 1. cbn [perform fst snd status body contactsOf].
    change ((200 <=? 200) && (200 <=? 299)) with true. cbn [negb].
    destruct (filter (fun c0 => String.eqb (email c0) e) (contacts (crm w)))
      as [|c' rest]; [discriminate|].
    injection Hhd as ->. cbn [map withoutFields id].
    erewrite bind_ok by (apply fetch_quiet; reflexivity).
    cbn [perform fst snd crm]. rewrite Hc0. cbn [fst snd]. unfold ok at 1.
    cbn [status]. change ((200 <=? 200) && (200 <=? 299)) with true. cbn [negb].
    fold f. fold w2.
    change (if String.eqb ty "cards"
            then "Destiny Cards - Cards Shipped"
            else "Destiny Cards - Book Shipped") with (shippedTagOf ty).
    change (if String.eqb ty "cards"
            then "Destiny Cards - Awaiting Shipment"
            else "Destiny Cards - Pending Book Shipment") with (awaitingTagOf ty).
    rewrite (bind_ok _ _ _ _ _ Hrun3). rewrite (bind_ok _ _ _ _ _ Hrun4).
    reflexivity. }
  assert (Hhas : hasTag tid (addTag tid (f c)) = true) by apply hasTag_addTag.
  assert (Hshipped4 : tagIdNamed (shippedTagOf ty) (crm w4) = Some tid)
    by (unfold tagIdNamed in *; rewrite Htags4; exact Hshipped3).
  assert (Hawait4 : tagIdNamed (awaitingTagOf ty) (crm w4)
                    = tagIdNamed (awaitingTagOf ty) (crm w3))
    by (unfold tagIdNamed; now rewrite Htags4).
  destruct (tagIdNamed (awaitingTagOf ty) (crm w3)) as [a|] eqn:Hawait.
  - destruct (a =? 0) eqn:Hzero.
    + exists w4, (addTag tid (f c)), tid. split; [exact Hrun|].
      split; [unfold firstMatch; rewrite Hcontacts4; exact Hhd3|].
      split; [exact Hshipped4|]. rewrite Hawait4, Hzero. exact Hhas.
    + destruct (hasTag a (addTag tid (f c))) eqn:Ha.
      * destruct (contact_after_map e (id c) (dropTag a) (contacts (crm w3))
                    (addTag tid (f c))) as [Hhd4 _];
          [reflexivity | reflexivity | rewrite addTag_id; reflexivity | exact Hhd3
          | exact Hfind3 |].
        exists w4, (dropTag a (addTag tid (f c))), tid. split; [exact Hrun|].
        split; [unfold firstMatch; rewrite Hcontacts4; exact Hhd4|].
        split; [exact Hshipped4|]. rewrite Hawait4, Hzero.
        split; [apply hasTag_dropTag|].
        intros Hne. rewrite hasTag_dropTag_other by exact Hne. exact Hhas.
      * exists w4, (addTag tid (f c)), tid. split; [exact Hrun|].
        split; [unfold firstMatch; rewrite Hcontacts4; exact Hhd3|].
        split; [exact Hshipped4|]. rewrite Hawait4, Hzero.
        split; [exact Ha | intros _; exact Hhas].
  - exists w4, (addTag tid (f c)), tid. split; [exact Hrun|].
    split; [unfold firstMatch; rewrite Hcontacts4; exact Hhd3|].
    split; [exact Hshipped4|]. rewrite Hawait4. exact Hhas.
Qed.

Lemma tracking_update_swaps_the_tags_witness :
  exists w' c',
    Tracking.updateTrackingInKeap Sample.env "2026-03-01" "a@example.com" "1Z999"
      "cards" awaitingCustomer = (Ok 1, w')
    /\ firstMatch "a@example.com" (crm w') = Some c'
    /\ hasTag 12 c' = true
    /\ hasTag 11 c' = false.
Proof.
  destruct (tracking_update_swaps_the_tags Sample.env "2026-03-01" "a@example.com"
              "1Z999" "cards" awaitingCustomer
              (mkContact 1 "Ada" "Lovelace" "a@example.com" [] None
                 [mkField 311 (Some "pi_1")] [10; 11])
              eq_refl eq_refl eq_refl)
    as (w' & c' & tid & Hrun & Hfm & Hship & Hawait).
  - intros x [<-|[]] _. reflexivity.
  - assert (Hw : w' = snd (Tracking.updateTrackingInKeap Sample.env "2026-03-01"
                             "a@example.com" "1Z999" "cards" awaitingCustomer))
      by (rewrite Hrun; reflexivity).
    assert (Hs : tagIdNamed (shippedTagOf "cards") (crm w') = Some 12)
      by (rewrite Hw; vm_compute; reflexivity).
    assert (Ha : tagIdNamed (awaitingTagOf "cards") (crm w') = Some 11)
      by (rewrite Hw; vm_compute; reflexivity).
    rewrite Hs in Hship. injection Hship as <-.
    rewrite Ha in Hawait. cbn [Z.eqb] in Hawait. destruct Hawait as [H11 H12].
    exists w', c'. split; [exact Hrun|]. split; [exact Hfm|].
    split; [apply H12; discriminate | exact H11].
Defined.

(** ** What reaches the CRM through the tracking handler *)

(** With the token configured, the first request of a tracking update
    is the search for the contact. *)
Lemma update_tracking_searches_first env today e tn leg w :
  truthy (KEAP_ACCESS_TOKEN env) = true ->
  exists tr,
    trace (snd (Tracking.updateTrackingInKeap env today e tn leg w))
    = (trace w ++ SearchContacts e false :: tr)%list.
Proof.
  intros Htok. unfold Tracking.updateTrackingInKeap. rewrite Htok. cbn [negb].
  match goal with
  | |- context [bind (fetch ?r) ?k] =>
      assert (Hk : forall resp, preserves traceGrows (k resp))
  end.
  { intros resp. cbv beta.
    unfold Tracking.getOrCreateTag, Tracking.applyTagToContact, Tracking.getTagId,
      Tracking.removeTagFromContact.
    grows. }
  unfold bind at 1.
  pose proof (fetch_sends (SearchContacts e false) w) as Hsent.
  destruct (fetch (SearchContacts e false) w) as [[resp|err] w1]; cbn [snd] in *.
  - destruct (Hk resp w1) as (tr & Htr). exists tr.
    rewrite Htr, Hsent, <- app_assoc. reflexivity.
  - exists []. exact Hsent.
Qed.

(** X28.  The tracking handler asks the CRM nothing unless the request is
    complete.  Whenever a run of the handler sends a request, the method
    was POST, the admin key was presented, the Keap token is configured,
    and the body parsed and named an email and a tracking number that are
    truthy and the shipment type cards or book, as a string.  The email
    and the tracking number need not be strings: what is searched for is
    the text of the email, which for the empty array is the empty
    string, and the search is the first request sent. *)
Theorem tracking_handler_reaches_crm_only_when_valid :
  forall env today event w,
    trace (snd (Tracking.handler env today event w)) <> trace w ->
    httpMethod event = "POST"
    /\ unauthorized env (authorization event) = false
    /\ truthy (KEAP_ACCESS_TOKEN env) = true
    /\ exists e trackingNumber shipmentType text,
         ebody event
         = Some (Tracking.mkTrackingRequest e trackingNumber (JStr shipmentType))
         /\ jsTruthy e = true
         /\ jsTruthy trackingNumber = true
         /\ (shipmentType = "cards" \/ shipmentType = "book")
         /\ jsString e = Some text
         /\ exists tr,
              trace (snd (Tracking.handler env today event w))
              = (trace w ++ SearchContacts text false :: tr)%list.
Proof.
  intros env today event w Hsent. unfold Tracking.handler in *.
  destruct (String.eqb (httpMethod event) "OPTIONS"); [now elim Hsent|].
  destruct (String.eqb_spec (httpMethod event) "POST") as [Hm|_];
    cbn [negb] in *; [|now elim Hsent].
  destruct (unauthorized env (authorization event)); [now elim Hsent|].
  split; [exact Hm|]. split; [reflexivity|].
  unfold tryCatch in *.
  destruct (ebody event) as [[e tn ty]|]; [|now elim Hsent].
  cbn [Tracking.b_email Tracking.b_trackingNumber Tracking.b_shipmentType] in *.
  destruct (jsTruthy e) eqn:He; cbn [negb orb] in *; [|now elim Hsent].
  destruct (jsTruthy tn) eqn:Htn; cbn [negb orb] in *; [|now elim Hsent].
  destruct (jsTruthy ty) eqn:Hty; cbn [negb orb] in *; [|now elim Hsent].
  destruct (Tracking.cardsOrBook ty) as [leg|] eqn:Hleg; [|now elim Hsent].
  assert (Hty' : ty = JStr leg /\ (leg = "cards" \/ leg = "book")).
  { unfold Tracking.cardsOrBook in Hleg. destruct ty; try discriminate Hleg.
    destruct (String.eqb_spec s "cards") as [Hc|_]; cbn [orb] in Hleg.
    - injection Hleg as <-. auto.
    - destruct (String.eqb_spec s "book") as [Hb|_]; [|discriminate Hleg].
      injection Hleg as <-. auto. }
  destruct Hty' as [-> Hlegs].
  unfold bind at 1 in Hsent. unfold bind at 1.
  unfold Tracking.updateTrackingInKeapOf in *.
  destruct (truthy (KEAP_ACCESS_TOKEN env)) eqn:Htok; cbn [negb] in *;
    [|now elim Hsent].
  split; [reflexivity|].
  destruct (jsString e) as [text|] eqn:Htext; [|now elim Hsent].
  exists e, tn, leg, text. repeat split; auto.
  destruct (update_tracking_searches_first env today text (Tracking.contentText tn)
              leg w Htok) as (tr & Htr).
  exists tr.
  destruct (Tracking.updateTrackingInKeap env today text (Tracking.contentText tn) leg w)
    as [[cid|err] w1]; exact Htr.
Qed.

Lemma tracking_handler_reaches_crm_only_when_valid_witness :
  trace (snd (Tracking.handler Sample.env "2026-03-01" emptyArrayRequest
                Sample.subscriber))
  <> trace Sample.subscriber
  /\ exists tr,
       trace (snd (Tracking.handler Sample.env "2026-03-01" emptyArrayRequest
                     Sample.subscriber))
       = (trace Sample.subscriber ++ SearchContacts EmptyString false :: tr)%list.
Proof.
  assert (Hsent : trace (snd (Tracking.handler Sample.env "2026-03-01" emptyArrayRequest
                                Sample.subscriber))
                  <> trace Sample.subscriber)
    by (vm_compute; discriminate).
  split; [exact Hsent|].
  destruct (tracking_handler_reaches_crm_only_when_valid Sample.env "2026-03-01"
              emptyArrayRequest Sample.subscriber Hsent)
    as (_ & _ & _ & e & tn & ty & text & Hbody & _ & _ & _ & Htext & Htr).
  injection Hbody as <- _ _. injection Htext as <-. exact Htr.
Defined.

(** ** Rate limits in the tag loop of the backfill *)

Lemma tagIdNamed_found name s tid :
  tagIdNamed name s = Some tid ->
  exists t l, filter (fun t => String.eqb (tag_name t) name) (tags s) = t :: l
              /\ tag_id t = tid.
Proof.
  unfold tagIdNamed. destruct (filter _ (tags s)) as [|t l]; [discriminate|].
  cbn [hd_error option_map]. intros H. injection H as <-. eauto.
Qed.

Lemma getOrCreateTagFuel_rate_limited fuel name store rest tr :
  Backfill.getOrCreateTagFuel (S fuel) name (mkWorld store (429 :: rest) tr)
  = Backfill.getOrCreateTagFuel fuel name (mkWorld store rest (tr ++ [SearchTags name])).
Proof.
  cbn [Backfill.getOrCreateTagFuel].
  erewrite bind_ok by (eapply fetch_refused; reflexivity).
  reflexivity.
Qed.

(** X29.  A rate limit is waited out on a tag search and not on a tag
    application.  For a tag the CRM holds: when the search is answered
    and the application is answered 429, the round of the tag loop ends
    without an error and without another request, the tag not applied;
    when the search is answered 429, it is sent again, and the tag is
    applied once the search is answered. *)
Theorem backfill_rate_limited_tag_application_is_dropped :
  forall cid name tid s0 s1 store tr,
    tagIdNamed name store = Some tid ->
    ok (mkResponse s0 NoBody) = true ->
    ok (mkResponse s1 NoBody) = true ->
    Backfill.applyOneTag cid name tt (mkWorld store [s0; 429] tr)
    = (Ok tt, mkWorld store [] (tr ++ [SearchTags name; ApplyTag cid tid]))
    /\ Backfill.applyOneTag cid name tt (mkWorld store [429; s0; s1] tr)
       = (Ok tt,
          mkWorld (snd (perform (ApplyTag cid tid) store)) []
            (tr ++ [SearchTags name; SearchTags name; ApplyTag cid tid])).
Proof.
  intros cid name tid s0 s1 store tr Htag Hs0 Hs1.
  destruct (tagIdNamed_found name store tid Htag) as (t & l & Hfilter & Htid).
  assert (Hsearch : forall fuel rest tr0,
            Backfill.getOrCreateTagFuel (S fuel) name
              (mkWorld store (s0 :: rest) tr0)
            = (Ok tid, mkWorld store rest (tr0 ++ [SearchTags name]))).
  { intros fuel rest tr0. cbn [Backfill.getOrCreateTagFuel].
    erewrite bind_ok by (eapply fetch_answered; [reflexivity | exact Hs0]).
    cbn [perform fst snd crm]. unfold ok at 1. cbn [status body tagsOf].
    change ((200 <=? 200) && (200 <=? 299)) with true. cbn [negb].
    rewrite Hfilter, Htid. reflexivity. }
  split.
  - unfold Backfill.applyOneTag, tryCatch, Backfill.getOrCreateTag.
    unfold bind at 1. cbn [pending List.length]. rewrite (Hsearch 1%nat [429] tr).
    unfold Backfill.applyTagToContact.
    erewrite bind_ok by (eapply fetch_refused; reflexivity).
    cbn [trace crm]. rewrite <- app_assoc. reflexivity.
  - unfold Backfill.applyOneTag, tryCatch, Backfill.getOrCreateTag.
    unfold bind at 1. cbn [pending List.length].
    rewrite (getOrCreateTagFuel_rate_limited 2 name store [s0; s1] tr).
    rewrite (Hsearch 1%nat [s1] (tr ++ [SearchTags name])%list).
    unfold Backfill.applyTagToContact.
    erewrite bind_ok by (eapply fetch_answered; [reflexivity | exact Hs1]).
    cbn [crm trace]. rewrite <- !app_assoc. cbn [app].
    destruct (perform (ApplyTag cid tid) store) as [resp store'] eqn:Hp.
    cbn [fst snd].
    destruct (negb (ok resp) && negb (status resp =? 429)); reflexivity.
Qed.

Lemma backfill_rate_limited_tag_application_is_dropped_witness :
  Backfill.applyOneTag 1 "Destiny Cards - Awaiting Shipment" tt
    (mkWorld (crm awaitingCustomer) [200; 429] [])
  = (Ok tt,
     mkWorld (crm awaitingCustomer) []
       [SearchTags "Destiny Cards - Awaiting Shipment"; ApplyTag 1 11]).
Proof.
  apply (proj1 (backfill_rate_limited_tag_application_is_dropped 1
                  "Destiny Cards - Awaiting Shipment" 11 200 200
                  (crm awaitingCustomer) [] eq_refl eq_refl eq_refl)).
Defined.
